(** * electron-ipc-socket: the protocol engine ([socket.ts]) and its
    transport adapter ([transport.ts]), embedded as state-passing programs.

    The two classes are translated method by method into one monad that
    threads the mutable world (the fields of the Socket and of its Transport,
    the objects they share by reference, and a trace of every call that
    leaves the two classes) and carries JavaScript exceptions.  An exception
    keeps the state reached when it was thrown, as in JavaScript. *)

From stdpp Require Import base list sets strings.
From Stdlib Require Import ZArith DecimalString Lia.

Set Warnings "-register-all".

(** ** JavaScript values *)

(** The classes of error the two files construct.  [Error_] is the built-in
    [Error]; [TypeError] is what calling [undefined] raises. *)
Inductive ErrorClass :=
| Error_ | TypeError
| RequiredError | DisposedError | InvalidInputError | InvalidOutputError
| SocketOpenError | SocketClosedError
| ConnectionLostError | TimeoutError | NotFoundError | UnhandledExceptionError.

(** Values that travel through the code as [any].  Numbers are integers
    (timestamps and durations in milliseconds); [VObj] is any other object,
    told apart only by its identity; [VPromise] is a thenable. *)
Inductive Value :=
| VUndefined
| VNull
| VBool (b : bool)
| VNum (n : Z)
| VStr (s : string)
| VArr (xs : list Value)
| VObj (tag : nat)
| VPromise (p : nat)
| VError (cls : ErrorClass) (message : string) (detail : Value)
| VEvent (name payload : Value)
| VInboundRequest (path payload : Value).

(** [if (v)], [v ? a : b], [v || d]. *)
Definition truthy (v : Value) : bool :=
  match v with
  | VUndefined | VNull => false
  | VBool b => b
  | VNum n => negb (n =? 0)%Z
  | VStr s => negb (String.eqb s "")
  | _ => true
  end.

(** [isError] of the is-error package. *)
Definition isError (v : Value) : bool :=
  match v with VError _ _ _ => true | _ => false end.

(** [isPromise] of the is-promise package. *)
Definition isPromise (v : Value) : bool :=
  match v with VPromise _ => true | _ => false end.

Definition string_of_Z (z : Z) : string := NilZero.string_of_int (Z.to_int z).

(** Modelled from the spec: the [name] property of the error classes of
    src/errors/ (not under src/), taken to be the class name of the taxonomy
    of section 7; it only shows when an error object is turned into a string. *)
Definition error_name (c : ErrorClass) : string :=
  match c with
  | Error_ => "Error"
  | TypeError => "TypeError"
  | RequiredError => "RequiredError"
  | DisposedError => "DisposedError"
  | InvalidInputError => "InvalidInputError"
  | InvalidOutputError => "InvalidOutputError"
  | SocketOpenError => "SocketOpenError"
  | SocketClosedError => "SocketClosedError"
  | ConnectionLostError => "ConnectionLostError"
  | TimeoutError => "TimeoutError"
  | NotFoundError => "NotFoundError"
  | UnhandledExceptionError => "UnhandledExceptionError"
  end.

(** String conversion, as done by a template literal, by [x.toString()] and
    by a property key [o[x]]. *)
Fixpoint toString (v : Value) : string :=
  match v with
  | VUndefined => "undefined"
  | VNull => "null"
  | VBool true => "true"
  | VBool false => "false"
  | VNum n => string_of_Z n
  | VStr s => s
  | VArr xs =>
      String.concat ","
        (map (fun x => match x with
                       | VUndefined | VNull => ""
                       | _ => toString x
                       end) xs)
  | VObj _ => "[object Object]"
  | VPromise _ => "[object Promise]"
  | VError c m _ =>
      if String.eqb m "" then error_name c else error_name c +:+ ": " +:+ m
  | VEvent _ _ => "[object Object]"
  | VInboundRequest _ _ => "[object Object]"
  end.

(** [const [a, b, c] = data]: a missing position reads [undefined]. *)
Definition at_ (data : list Value) (i : nat) : Value := nth i data VUndefined.

(** Destructuring a value that is expected to be an array. *)
Definition array_items (v : Value) : list Value :=
  match v with VArr xs => xs | _ => [] end.

(** [req.path] *)
Definition path_of (v : Value) : Value :=
  match v with VInboundRequest p _ => p | _ => VUndefined end.

(** [err.message] *)
Definition message_of (v : Value) : string :=
  match v with VError _ m _ => m | _ => "" end.

(** ** Objects with a [string] key set: [Object.create(null)]

    Keys are kept in insertion order, which is the order [Object.keys]
    enumerates them in (the ids used as keys are not array indices). *)
Section Dict.
Context {A : Type}.

Fixpoint dict_get (k : string) (d : list (string * A)) : option A :=
  match d with
  | [] => None
  | (k', a) :: d' => if String.eqb k k' then Some a else dict_get k d'
  end.

(** [d[k] = a] *)
Fixpoint dict_set (k : string) (a : A) (d : list (string * A)) : list (string * A) :=
  match d with
  | [] => [(k, a)]
  | (k', a') :: d' =>
      if String.eqb k k' then (k', a) :: d' else (k', a') :: dict_set k a d'
  end.

(** [delete d[k]] *)
Fixpoint dict_delete (k : string) (d : list (string * A)) : list (string * A) :=
  match d with
  | [] => []
  | (k', a') :: d' =>
      if String.eqb k k' then dict_delete k d' else (k', a') :: dict_delete k d'
  end.

(** [Object.keys(d)] *)
Definition dict_keys (d : list (string * A)) : list string := map fst d.
End Dict.

(** ** Closures and records of the two classes *)

(** The functions registered on the internal bus.  [LUser h] is the user's
    function [h]; [LResponder fn h] is [this.__responder.bind(this, h)], a
    new function object [fn] at each [onRequest]; [LOnce cell inner] is the
    arrow function [__subscribe] builds when [once] is set, whose captured
    variable [unbind] lives in [cell]. *)
Inductive Listener :=
| LUser (h : nat)
| LResponder (fn : nat) (h : nat)
| LOnce (cell : nat) (inner : Listener).

#[global] Instance Listener_eq_dec : EqDecision Listener.
Proof. solve_decision. Defined.

(** What the Transport calls back: the three bound methods [Socket.open]
    passes, or any other function. *)
Inductive Subscriber :=
| HandleEvent
| HandleRequest
| HandleResponse
| UserSubscriber (n : nat).

(** The arrow function [(_, ...args) => { subscriber(args); }] of
    [Transport.on]; [tl_fn] is its identity. *)
Record TListener := { tl_fn : nat; tl_subscriber : Subscriber }.

(** The cancel functions in circulation: the unbind function nanoevents'
    [on] returns, the function [__subscribe] returns when [once] is set,
    and [this.__unsubscribe.bind(this, id)] of the Transport. *)
Inductive Subscription :=
| Unbind (event : string) (cb : Listener)
| OnceCancel (cell : nat)
| Unsubscribe (id : string).

Inductive Settlement :=
| Resolved (v : Value)
| Rejected (e : Value).

(** Modelled from the spec: the OutboundRequest record of
    src/outbound-request.ts (not under src/): a correlation id, the creation
    time and whether it has settled; the two settlement callbacks are those
    of the promise [request] returns. *)
Record OutboundRequest := {
  req_id : string;
  req_timestamp : Z;
  req_settled : option Settlement
}.

Definition settled_as (s : Settlement) (q : OutboundRequest) : OutboundRequest :=
  {| req_id := req_id q; req_timestamp := req_timestamp q; req_settled := Some s |}.

(** Calls that leave the two classes, in the order they are made. *)
Inductive Effect :=
| EOutputSend (channel : string) (args : list Value)
| EInputOn (channel : string) (fn : TListener)
| EInputRemoveListener (channel : string) (fn : TListener)
| EResolve (req : nat) (v : Value)
| EReject (req : nat) (e : Value)
| EInvoke (h : nat) (args : list Value)
| ESetTimeout (event : string) (args : list Value)
| EThen (out : Value) (path id : Value)
| EIntervalStart
| EIntervalStop.

(** ** The world

    Fields of the Socket ([s_disposed] is the flag of its [Disposable] base,
    [interval_time] and [interval_running] are the [Interval] it owns, and
    [bus_events] is the [events] object of its nanoevents emitter), fields of
    its Transport, and the objects reached by reference: the [unbind]
    variables of once-listeners, the OutboundRequest objects and the
    pending-request tables.  [__pendingRequests] holds a reference into
    [tables], table entries hold references into [requests]. *)
Record World := {
  s_disposed : bool;
  __isOpen : bool;
  __channel : option string;
  __requestTimeout : Z;
  interval_time : Z;
  interval_running : bool;
  __pendingRequests : option nat;
  __subscriptions : option (list Subscription);
  bus_events : list (string * list Listener);
  t_disposed : bool;
  __listeners : option (list (string * (string * TListener)));
  cells : list (option (string * Listener));
  requests : list OutboundRequest;
  tables : list (list (string * nat));
  clock : Z;
  nanoid_count : nat;
  fresh_fn : nat;
  trace : list Effect
}.

(** Field updates. *)
Definition set_s_disposed (v : bool) (w : World) : World :=
  {| s_disposed := v; __isOpen := __isOpen w; __channel := __channel w;
     __requestTimeout := __requestTimeout w; interval_time := interval_time w;
     interval_running := interval_running w; __pendingRequests := __pendingRequests w;
     __subscriptions := __subscriptions w; bus_events := bus_events w;
     t_disposed := t_disposed w; __listeners := __listeners w; cells := cells w;
     requests := requests w; tables := tables w; clock := clock w;
     nanoid_count := nanoid_count w; fresh_fn := fresh_fn w; trace := trace w |}.
Definition set_isOpen (v : bool) (w : World) : World :=
  {| s_disposed := s_disposed w; __isOpen := v; __channel := __channel w;
     __requestTimeout := __requestTimeout w; interval_time := interval_time w;
     interval_running := interval_running w; __pendingRequests := __pendingRequests w;
     __subscriptions := __subscriptions w; bus_events := bus_events w;
     t_disposed := t_disposed w; __listeners := __listeners w; cells := cells w;
     requests := requests w; tables := tables w; clock := clock w;
     nanoid_count := nanoid_count w; fresh_fn := fresh_fn w; trace := trace w |}.
Definition set_channel (v : option string) (w : World) : World :=
  {| s_disposed := s_disposed w; __isOpen := __isOpen w; __channel := v;
     __requestTimeout := __requestTimeout w; interval_time := interval_time w;
     interval_running := interval_running w; __pendingRequests := __pendingRequests w;
     __subscriptions := __subscriptions w; bus_events := bus_events w;
     t_disposed := t_disposed w; __listeners := __listeners w; cells := cells w;
     requests := requests w; tables := tables w; clock := clock w;
     nanoid_count := nanoid_count w; fresh_fn := fresh_fn w; trace := trace w |}.
Definition set_requestTimeout (v : Z) (w : World) : World :=
  {| s_disposed := s_disposed w; __isOpen := __isOpen w; __channel := __channel w;
     __requestTimeout := v; interval_time := interval_time w;
     interval_running := interval_running w; __pendingRequests := __pendingRequests w;
     __subscriptions := __subscriptions w; bus_events := bus_events w;
     t_disposed := t_disposed w; __listeners := __listeners w; cells := cells w;
     requests := requests w; tables := tables w; clock := clock w;
     nanoid_count := nanoid_count w; fresh_fn := fresh_fn w; trace := trace w |}.
Definition set_interval_time (v : Z) (w : World) : World :=
  {| s_disposed := s_disposed w; __isOpen := __isOpen w; __channel := __channel w;
     __requestTimeout := __requestTimeout w; interval_time := v;
     interval_running := interval_running w; __pendingRequests := __pendingRequests w;
     __subscriptions := __subscriptions w; bus_events := bus_events w;
     t_disposed := t_disposed w; __listeners := __listeners w; cells := cells w;
     requests := requests w; tables := tables w; clock := clock w;
     nanoid_count := nanoid_count w; fresh_fn := fresh_fn w; trace := trace w |}.
Definition set_interval_running (v : bool) (w : World) : World :=
  {| s_disposed := s_disposed w; __isOpen := __isOpen w; __channel := __channel w;
     __requestTimeout := __requestTimeout w; interval_time := interval_time w;
     interval_running := v; __pendingRequests := __pendingRequests w;
     __subscriptions := __subscriptions w; bus_events := bus_events w;
     t_disposed := t_disposed w; __listeners := __listeners w; cells := cells w;
     requests := requests w; tables := tables w; clock := clock w;
     nanoid_count := nanoid_count w; fresh_fn := fresh_fn w; trace := trace w |}.
Definition set_pendingRequests (v : option nat) (w : World) : World :=
  {| s_disposed := s_disposed w; __isOpen := __isOpen w; __channel := __channel w;
     __requestTimeout := __requestTimeout w; interval_time := interval_time w;
     interval_running := interval_running w; __pendingRequests := v;
     __subscriptions := __subscriptions w; bus_events := bus_events w;
     t_disposed := t_disposed w; __listeners := __listeners w; cells := cells w;
     requests := requests w; tables := tables w; clock := clock w;
     nanoid_count := nanoid_count w; fresh_fn := fresh_fn w; trace := trace w |}.
Definition set_subscriptions (v : option (list Subscription)) (w : World) : World :=
  {| s_disposed := s_disposed w; __isOpen := __isOpen w; __channel := __channel w;
     __requestTimeout := __requestTimeout w; interval_time := interval_time w;
     interval_running := interval_running w; __pendingRequests := __pendingRequests w;
     __subscriptions := v; bus_events := bus_events w; t_disposed := t_disposed w;
     __listeners := __listeners w; cells := cells w; requests := requests w;
     tables := tables w; clock := clock w; nanoid_count := nanoid_count w;
     fresh_fn := fresh_fn w; trace := trace w |}.
Definition set_bus_events (v : list (string * list Listener)) (w : World) : World :=
  {| s_disposed := s_disposed w; __isOpen := __isOpen w; __channel := __channel w;
     __requestTimeout := __requestTimeout w; interval_time := interval_time w;
     interval_running := interval_running w; __pendingRequests := __pendingRequests w;
     __subscriptions := __subscriptions w; bus_events := v; t_disposed := t_disposed w;
     __listeners := __listeners w; cells := cells w; requests := requests w;
     tables := tables w; clock := clock w; nanoid_count := nanoid_count w;
     fresh_fn := fresh_fn w; trace := trace w |}.
Definition set_t_disposed (v : bool) (w : World) : World :=
  {| s_disposed := s_disposed w; __isOpen := __isOpen w; __channel := __channel w;
     __requestTimeout := __requestTimeout w; interval_time := interval_time w;
     interval_running := interval_running w; __pendingRequests := __pendingRequests w;
     __subscriptions := __subscriptions w; bus_events := bus_events w; t_disposed := v;
     __listeners := __listeners w; cells := cells w; requests := requests w;
     tables := tables w; clock := clock w; nanoid_count := nanoid_count w;
     fresh_fn := fresh_fn w; trace := trace w |}.
Definition set_listeners (v : option (list (string * (string * TListener)))) (w : World) : World :=
  {| s_disposed := s_disposed w; __isOpen := __isOpen w; __channel := __channel w;
     __requestTimeout := __requestTimeout w; interval_time := interval_time w;
     interval_running := interval_running w; __pendingRequests := __pendingRequests w;
     __subscriptions := __subscriptions w; bus_events := bus_events w;
     t_disposed := t_disposed w; __listeners := v; cells := cells w; requests := requests w;
     tables := tables w; clock := clock w; nanoid_count := nanoid_count w;
     fresh_fn := fresh_fn w; trace := trace w |}.
Definition set_cells (v : list (option (string * Listener))) (w : World) : World :=
  {| s_disposed := s_disposed w; __isOpen := __isOpen w; __channel := __channel w;
     __requestTimeout := __requestTimeout w; interval_time := interval_time w;
     interval_running := interval_running w; __pendingRequests := __pendingRequests w;
     __subscriptions := __subscriptions w; bus_events := bus_events w;
     t_disposed := t_disposed w; __listeners := __listeners w; cells := v;
     requests := requests w; tables := tables w; clock := clock w;
     nanoid_count := nanoid_count w; fresh_fn := fresh_fn w; trace := trace w |}.
Definition set_requests (v : list OutboundRequest) (w : World) : World :=
  {| s_disposed := s_disposed w; __isOpen := __isOpen w; __channel := __channel w;
     __requestTimeout := __requestTimeout w; interval_time := interval_time w;
     interval_running := interval_running w; __pendingRequests := __pendingRequests w;
     __subscriptions := __subscriptions w; bus_events := bus_events w;
     t_disposed := t_disposed w; __listeners := __listeners w; cells := cells w; requests := v;
     tables := tables w; clock := clock w; nanoid_count := nanoid_count w;
     fresh_fn := fresh_fn w; trace := trace w |}.
Definition set_tables (v : list (list (string * nat))) (w : World) : World :=
  {| s_disposed := s_disposed w; __isOpen := __isOpen w; __channel := __channel w;
     __requestTimeout := __requestTimeout w; interval_time := interval_time w;
     interval_running := interval_running w; __pendingRequests := __pendingRequests w;
     __subscriptions := __subscriptions w; bus_events := bus_events w;
     t_disposed := t_disposed w; __listeners := __listeners w; cells := cells w;
     requests := requests w; tables := v; clock := clock w; nanoid_count := nanoid_count w;
     fresh_fn := fresh_fn w; trace := trace w |}.
Definition set_clock (v : Z) (w : World) : World :=
  {| s_disposed := s_disposed w; __isOpen := __isOpen w; __channel := __channel w;
     __requestTimeout := __requestTimeout w; interval_time := interval_time w;
     interval_running := interval_running w; __pendingRequests := __pendingRequests w;
     __subscriptions := __subscriptions w; bus_events := bus_events w;
     t_disposed := t_disposed w; __listeners := __listeners w; cells := cells w;
     requests := requests w; tables := tables w; clock := v; nanoid_count := nanoid_count w;
     fresh_fn := fresh_fn w; trace := trace w |}.
Definition set_nanoid_count (v : nat) (w : World) : World :=
  {| s_disposed := s_disposed w; __isOpen := __isOpen w; __channel := __channel w;
     __requestTimeout := __requestTimeout w; interval_time := interval_time w;
     interval_running := interval_running w; __pendingRequests := __pendingRequests w;
     __subscriptions := __subscriptions w; bus_events := bus_events w;
     t_disposed := t_disposed w; __listeners := __listeners w; cells := cells w;
     requests := requests w; tables := tables w; clock := clock w; nanoid_count := v;
     fresh_fn := fresh_fn w; trace := trace w |}.
Definition set_fresh_fn (v : nat) (w : World) : World :=
  {| s_disposed := s_disposed w; __isOpen := __isOpen w; __channel := __channel w;
     __requestTimeout := __requestTimeout w; interval_time := interval_time w;
     interval_running := interval_running w; __pendingRequests := __pendingRequests w;
     __subscriptions := __subscriptions w; bus_events := bus_events w;
     t_disposed := t_disposed w; __listeners := __listeners w; cells := cells w;
     requests := requests w; tables := tables w; clock := clock w;
     nanoid_count := nanoid_count w; fresh_fn := v; trace := trace w |}.
Definition set_trace (v : list Effect) (w : World) : World :=
  {| s_disposed := s_disposed w; __isOpen := __isOpen w; __channel := __channel w;
     __requestTimeout := __requestTimeout w; interval_time := interval_time w;
     interval_running := interval_running w; __pendingRequests := __pendingRequests w;
     __subscriptions := __subscriptions w; bus_events := bus_events w;
     t_disposed := t_disposed w; __listeners := __listeners w; cells := cells w;
     requests := requests w; tables := tables w; clock := clock w;
     nanoid_count := nanoid_count w; fresh_fn := fresh_fn w; trace := v |}.

(** ** The monad: state and exceptions *)

Inductive Result (A : Type) :=
| Ok (a : A) (w : World)
| Throw (e : Value) (w : World).
Arguments Ok {A} a w.
Arguments Throw {A} e w.

Definition M (A : Type) : Type := World -> Result A.

Definition world_of {A} (r : Result A) : World :=
  match r with Ok _ w => w | Throw _ w => w end.

Definition ret {A} (a : A) : M A := fun w => Ok a w.

Definition bind {A B} (m : M A) (k : A -> M B) : M B :=
  fun w => match m w with
           | Ok a w' => k a w'
           | Throw e w' => Throw e w'
           end.

Definition throw {A} (e : Value) : M A := fun w => Throw e w.

(** [try { m } catch (e) { h e }] *)
Definition try_catch {A} (m : M A) (h : Value -> M A) : M A :=
  fun w => match m w with
           | Ok a w' => Ok a w'
           | Throw e w' => h e w'
           end.

Definition gets {A} (f : World -> A) : M A := fun w => Ok (f w) w.

Definition modify (f : World -> World) : M unit := fun w => Ok tt (f w).

Declare Scope js_scope.
Delimit Scope js_scope with js.
Notation "x <- c ;; k" := (bind c (fun x => k))
  (at level 100, c at next level, right associativity) : js_scope.
Notation "c ;; k" := (bind c (fun _ => k))
  (at level 100, right associativity) : js_scope.
Open Scope js_scope.

(** [xs.forEach(f)] *)
Fixpoint forEach {A} (xs : list A) (f : A -> M unit) : M unit :=
  match xs with
  | [] => ret tt
  | x :: xs' => f x ;; forEach xs' f
  end.

Definition log (e : Effect) : M unit :=
  modify (fun w => set_trace (trace w ++ [e]) w).

(** ** Constants of socket.ts *)

Definition REQUESTS : string := "requests".
Definition RESPONSES : string := "responses".
Definition EVENTS : string := "events".

(** [`${channel}:${sub}`] for the optional field [__channel] *)
Definition sub_channel (channel : option string) (sub : string) : string :=
  default "undefined" channel +:+ ":" +:+ sub.

Record Settings := { timeout : option Z; cleanup : option Z }.

(** [x || d] for an optional number *)
Definition or_else (x : option Z) (d : Z) : Z :=
  match x with
  | Some n => if (n =? 0)%Z then d else n
  | None => d
  end.

(** What the object handed to the Transport constructor offers. *)
Record Capabilities := {
  has_on : bool;
  has_once : bool;
  has_removeAllListeners : bool;
  has_removeListener : bool;
  has_send : bool
}.

(** The first argument of the Socket constructor: nothing, a Transport
    (with its state), or an object to build one from. *)
Inductive TransportArg :=
| NoTransport
| ATransport (disposed : bool) (listeners : option (list (string * (string * TListener))))
| RawEndpoint (c : Capabilities).

(** ** The environment

    What the code takes from outside: the two bus prefixes, which are
    [Math.random().toString()] drawn once; the message text the error
    classes of src/errors/ (not under src/) give an instance, from the class
    and the constructor argument; the ids [nanoid()] returns, in the order it
    is called; and the foreign code called synchronously, which is the
    user's handlers and the [send] of the underlying output.  Foreign code
    may return or throw, and may have called back into the Socket before it
    does. *)
Record Env := {
  BUS_EVENTS : string;
  BUS_REQUESTS : string;
  error_text : ErrorClass -> Value -> string;
  nanoid : nat -> string;
  user : nat -> list Value -> M Value;
  output_send : string -> list Value -> M unit
}.

Section Program.

Variable env : Env.

(** *** Errors and guards *)

Definition new_error (c : ErrorClass) (arg : Value) : Value :=
  VError c (error_text env c arg) arg.

(** [new Error(message)] *)
Definition new_Error (message : string) : Value := VError Error_ message VUndefined.

(** Modelled from the spec: [assert(ErrorClass, condition)] of
    utils/assertions (not under src/): fails with a new instance of the class
    unless the condition holds. *)
Definition assert (c : ErrorClass) (condition : bool) : M unit :=
  if condition then ret tt else throw (new_error c VUndefined).

(** Modelled from the spec: [requires(name, value)] of utils/assertions
    (not under src/): a required-argument violation when the value is
    absent or empty. *)
Definition requires (name : string) (value : Value) : M unit :=
  match value with
  | VUndefined | VNull => throw (new_error RequiredError (VStr name))
  | VStr s =>
      if String.eqb s "" then throw (new_error RequiredError (VStr name)) else ret tt
  | _ => ret tt
  end.

(** [@protect({ err: true })] on a Socket method *)
Definition protect_socket : M unit :=
  d <- gets s_disposed ;;
  if d then throw (new_error DisposedError (VStr "Socket")) else ret tt.

(** [@protect({ err: true })] on a Transport method *)
Definition protect_transport : M unit :=
  d <- gets t_disposed ;;
  if d then throw (new_error DisposedError (VStr "Transport")) else ret tt.

(** *** Environment: clock, ids, function identities *)

Definition Date_now : M Z := gets clock.

Definition nanoid_next : M string :=
  n <- gets nanoid_count ;;
  modify (fun w => set_nanoid_count (S n) w) ;;
  ret (nanoid env n).

Definition new_function : M nat :=
  n <- gets fresh_fn ;;
  modify (fun w => set_fresh_fn (S n) w) ;;
  ret n.

(** *** OutboundRequest objects *)

(** Modelled from the spec: [new OutboundRequest(resolve, reject)]: a
    fresh correlation id and the current time, not settled. *)
Definition OutboundRequest_new : M nat :=
  id <- nanoid_next ;;
  now <- Date_now ;;
  r <- gets (fun w => length (requests w)) ;;
  modify (fun w =>
    set_requests (requests w ++ [{| req_id := id; req_timestamp := now; req_settled := None |}]) w) ;;
  ret r.

Definition settle_effect (r : nat) (s : Settlement) : Effect :=
  match s with Resolved v => EResolve r v | Rejected e => EReject r e end.

(** Modelled from the spec: an OutboundRequest settles at most once: the
    first [resolve] or [reject] calls the promise's callback and marks the
    request, a later one does nothing. *)
Definition OutboundRequest_settle (r : nat) (s : Settlement) : M unit :=
  q <- gets (fun w => requests w !! r) ;;
  match q with
  | Some q =>
      match req_settled q with
      | None =>
          modify (fun w => set_requests (<[r := settled_as s q]> (requests w)) w) ;;
          log (settle_effect r s)
      | Some _ => ret tt
      end
  | None => ret tt
  end.

Definition OutboundRequest_resolve (r : nat) (v : Value) : M unit :=
  OutboundRequest_settle r (Resolved v).

Definition OutboundRequest_reject (r : nat) (e : Value) : M unit :=
  OutboundRequest_settle r (Rejected e).

(** Modelled from the spec: [req.isDisposed()] holds once the request has
    settled. *)
Definition OutboundRequest_isDisposed (r : nat) : M bool :=
  gets (fun w => match requests w !! r with
                 | Some q => bool_decide (req_settled q ≠ None)
                 | None => true
                 end).

Definition OutboundRequest_id (r : nat) : M string :=
  gets (fun w => match requests w !! r with Some q => req_id q | None => "" end).

Definition OutboundRequest_timestamp (r : nat) : M Z :=
  gets (fun w => match requests w !! r with Some q => req_timestamp q | None => 0%Z end).

(** *** Pending-request tables *)

Definition table_of (t : nat) (w : World) : list (string * nat) :=
  default [] (tables w !! t).

(** [Object.create(null)] *)
Definition table_new : M nat :=
  t <- gets (fun w => length (tables w)) ;;
  modify (fun w => set_tables (tables w ++ [[]]) w) ;;
  ret t.

Definition table_get (t : nat) (k : string) : M (option nat) :=
  gets (fun w => dict_get k (table_of t w)).

Definition table_set (t : nat) (k : string) (r : nat) : M unit :=
  modify (fun w => set_tables (<[t := dict_set k r (table_of t w)]> (tables w)) w).

Definition table_delete (t : nat) (k : string) : M unit :=
  modify (fun w => set_tables (<[t := dict_delete k (table_of t w)]> (tables w)) w).

Definition table_keys (t : nat) : M (list string) :=
  gets (fun w => dict_keys (table_of t w)).

(** *** The internal bus: nanoevents' [createNanoEvents()]

    [on] appends the callback to [events[event]] and returns a function
    that replaces [events[event]] by the list without that callback;
    [emit] calls, in order, the callbacks that were registered when it
    started. *)

Definition listeners_of (event : string) (w : World) : list Listener :=
  default [] (dict_get event (bus_events w)).

Definition bus_on (event : string) (cb : Listener) : M Subscription :=
  modify (fun w =>
    set_bus_events (dict_set event (listeners_of event w ++ [cb]) (bus_events w)) w) ;;
  ret (Unbind event cb).

Definition bus_unbind (event : string) (cb : Listener) : M unit :=
  modify (fun w =>
    match dict_get event (bus_events w) with
    | Some l => set_bus_events (dict_set event (filter (fun i => i ≠ cb) l) (bus_events w)) w
    | None => w
    end).

Definition read_cell (cell : nat) : M (option (string * Listener)) :=
  gets (fun w => default None (cells w !! cell)).

Definition write_cell (cell : nat) (v : option (string * Listener)) : M unit :=
  modify (fun w => set_cells (<[cell := v]> (cells w)) w).

Definition call_user (h : nat) (args : list Value) : M Value :=
  log (EInvoke h args) ;;
  user env h args.

(** *** Transport (transport.ts) *)

(** Transport constructor, for the input and output objects given. *)
Definition Transport_constructor (input output : option Capabilities)
  : Value + (bool * option (list (string * (string * TListener)))) :=
  match input with
  | None => inl (new_error RequiredError (VStr "input"))
  | Some int =>
      let out := match output with Some o => o | None => int end in
      if negb (has_on int) || negb (has_once int)
         || negb (has_removeAllListeners int) || negb (has_removeListener int)
      then inl (new_error InvalidInputError VUndefined)
      else if negb (has_send out)
      then inl (new_error InvalidOutputError VUndefined)
      else inr (false, Some [])
  end.

Definition Transport_send (channel : string) (args : list Value) : M unit :=
  protect_transport ;;
  requires "channel" (VStr channel) ;;
  log (EOutputSend channel args) ;;
  output_send env channel args.

(** A [Subscriber] is never absent, so [requires('subscriber', subscriber)]
    passes. *)
Definition Transport_on (channel : string) (subscriber : Subscriber) : M Subscription :=
  protect_transport ;;
  requires "channel" (VStr channel) ;;
  ls <- gets __listeners ;;
  match ls with
  | None => throw (new_error DisposedError (VStr "Transport"))
  | Some _ =>
      fn <- new_function ;;
      let listener := {| tl_fn := fn; tl_subscriber := subscriber |} in
      log (EInputOn channel listener) ;;
      id <- nanoid_next ;;
      modify (fun w =>
        set_listeners (option_map (dict_set id (channel, listener)) (__listeners w)) w) ;;
      ret (Unsubscribe id)
  end.

Definition Transport_unsubscribe (id : string) : M unit :=
  ls <- gets __listeners ;;
  match ls with
  | None => ret tt
  | Some l =>
      match dict_get id l with
      | Some (channel, fn) => log (EInputRemoveListener channel fn)
      | None => ret tt
      end ;;
      modify (fun w => set_listeners (option_map (dict_delete id) (__listeners w)) w)
  end.

Definition Transport_dispose : M unit :=
  modify (set_t_disposed true) ;;
  ls <- gets __listeners ;;
  match ls with
  | Some l =>
      forEach (dict_keys l) Transport_unsubscribe ;;
      modify (set_listeners None)
  | None => ret tt
  end.

(** *** Socket (socket.ts) *)

Definition __sendResponse (path id err payload : Value) : M unit :=
  let data := if truthy err then VNull else payload in
  error <- (if isError err
            then log (ESetTimeout "error" [VEvent (VStr "error") err]) ;;
                 ret (VStr (message_of err))
            else ret err) ;;
  channel <- gets __channel ;;
  Transport_send (sub_channel channel RESPONSES) [path; id; error; data].

Definition __hasHandler (event : string) : M bool :=
  gets (fun w => match dict_get event (bus_events w) with
                 | Some handlers => bool_decide (0 < length handlers)
                 | None => false
                 end).

Definition __responder (handler : nat) (data : Value) : M unit :=
  let id := at_ (array_items data) 0 in
  let req := at_ (array_items data) 1 in
  try_catch
    (out <- call_user handler [req] ;;
     if negb (isPromise out) then
       if negb (isError out) then __sendResponse (path_of req) id VUndefined out
       else __sendResponse (path_of req) id out VUndefined
     else log (EThen out (path_of req) id))
    (fun e => __sendResponse (path_of req) id (new_error UnhandledExceptionError e) VUndefined).

(** The two continuations [__responder] attaches to a handler's promise:
    [.then(result => ...)] and the [.catch(reason => ...)] chained on it. *)
Definition responder_catch (path id reason : Value) : M unit :=
  __sendResponse path id reason VUndefined.

Definition responder_then (path id result : Value) : M unit :=
  try_catch (__sendResponse path id VUndefined result) (responder_catch path id).

(** Calling a function registered on the bus with the arguments of an
    [emit].  The once-listener passes on its first argument only, and
    calls whatever [unbind] holds after the listener has returned. *)
Fixpoint call_listener (l : Listener) (args : list Value) : M unit :=
  match l with
  | LUser h => _ <- call_user h args ;; ret tt
  | LResponder _ handler => __responder handler (at_ args 0)
  | LOnce cell listener =>
      unbind <- read_cell cell ;;
      match unbind with
      | Some _ =>
          call_listener listener [at_ args 0] ;;
          unbind' <- read_cell cell ;;
          match unbind' with
          | Some (event, cb) => bus_unbind event cb
          | None => throw (VError TypeError "unbind is not a function" VUndefined)
          end ;;
          write_cell cell None
      | None => ret tt
      end
  end.

Definition bus_emit (event : string) (args : list Value) : M unit :=
  callbacks <- gets (listeners_of event) ;;
  forEach callbacks (fun cb => call_listener cb args).

(** Calling a cancel function. *)
Definition cancel (s : Subscription) : M unit :=
  match s with
  | Unbind event cb => bus_unbind event cb
  | OnceCancel cell =>
      unbind <- read_cell cell ;;
      match unbind with
      | Some (event, cb) => bus_unbind event cb
      | None => ret tt
      end
  | Unsubscribe id => Transport_unsubscribe id
  end.

Definition __subscribe (event : string) (listener : Listener) (once : bool) : M Subscription :=
  if negb once then bus_on event listener
  else
    cell <- gets (fun w => length (cells w)) ;;
    modify (fun w => set_cells (cells w ++ [None]) w) ;;
    _ <- bus_on event (LOnce cell listener) ;;
    write_cell cell (Some (event, LOnce cell listener)) ;;
    ret (OnceCancel cell).

Definition onEvent (name : string) (handler : nat) (once : bool) : M Subscription :=
  __subscribe (BUS_EVENTS env +:+ "/" +:+ name) (LUser handler) once.

Definition onRequest (path : string) (handler : nat) (once : bool) : M Subscription :=
  fn <- new_function ;;
  __subscribe (BUS_REQUESTS env +:+ "/" +:+ path) (LResponder fn handler) once.

Definition onError (handler : nat) (once : bool) : M Subscription :=
  __subscribe "error" (LUser handler) once.

(** [new Socket(transport, settings)]: the initial world, or the error. *)
Definition Socket_constructor (transport : TransportArg) (settings : Settings)
  : Value + World :=
  let make (t : bool * option (list (string * (string * TListener)))) : World :=
    {| s_disposed := false;
       __isOpen := false;
       __channel := None;
       __requestTimeout := or_else (timeout settings) (1000 * 60);
       interval_time := or_else (cleanup settings) (1000 * 60);
       interval_running := false;
       __pendingRequests := None;
       __subscriptions := None;
       bus_events := [];
       t_disposed := fst t;
       __listeners := snd t;
       cells := [];
       requests := [];
       tables := [];
       clock := 0;
       nanoid_count := 0;
       fresh_fn := 0;
       trace := [] |} in
  match transport with
  | NoTransport => inl (new_error RequiredError (VStr "transport"))
  | ATransport d ls => inr (make (d, ls))
  | RawEndpoint c =>
      match Transport_constructor (Some c) None with
      | inl e => inl e
      | inr t => inr (make t)
      end
  end.

Definition interval_start : M unit :=
  modify (set_interval_running true) ;; log EIntervalStart.

Definition interval_stop : M unit :=
  modify (set_interval_running false) ;; log EIntervalStop.

Definition open (channel : string) : M unit :=
  protect_socket ;;
  isOpen <- gets __isOpen ;;
  assert SocketOpenError (negb isOpen) ;;
  s1 <- Transport_on (channel +:+ ":" +:+ EVENTS) HandleEvent ;;
  s2 <- Transport_on (channel +:+ ":" +:+ REQUESTS) HandleRequest ;;
  s3 <- Transport_on (channel +:+ ":" +:+ RESPONSES) HandleResponse ;;
  modify (set_subscriptions (Some [s1; s2; s3])) ;;
  modify (set_isOpen true) ;;
  modify (set_channel (Some channel)) ;;
  t <- table_new ;;
  modify (set_pendingRequests (Some t)) ;;
  interval_start ;;
  bus_emit "open" [VEvent (VStr "open") VUndefined].

(** The body of the [forEach] over the keys in [close]. *)
Definition close_reject (t : nat) (id : string) : M unit :=
  req <- table_get t id ;;
  match req with
  | Some r => OutboundRequest_reject r (new_error ConnectionLostError VUndefined)
  | None => throw (VError TypeError "req is undefined" VUndefined)
  end.

Definition close : M unit :=
  protect_socket ;;
  isOpen <- gets __isOpen ;;
  assert SocketClosedError isOpen ;;
  modify (set_isOpen false) ;;
  modify (set_channel None) ;;
  interval_stop ;;
  subscriptions <- gets __subscriptions ;;
  match subscriptions with
  | Some l => forEach l cancel
  | None => ret tt
  end ;;
  pendingRequests <- gets __pendingRequests ;;
  match pendingRequests with
  | Some t => keys <- table_keys t ;; forEach keys (close_reject t)
  | None => ret tt
  end ;;
  bus_emit "close" [VEvent (VStr "close") VUndefined].

Definition send (event : string) (payload : Value) : M unit :=
  protect_socket ;;
  isOpen <- gets __isOpen ;;
  assert SocketClosedError isOpen ;;
  requires "event" (VStr event) ;;
  channel <- gets __channel ;;
  Transport_send (sub_channel channel EVENTS) [VStr event; payload].

(** The [catch] block of [request]. *)
Definition request_catch (t : nat) (req : nat) (e : Value) : M unit :=
  disposed <- OutboundRequest_isDisposed req ;;
  (if negb disposed then
     OutboundRequest_reject req (new_error UnhandledExceptionError e) ;;
     id <- OutboundRequest_id req ;;
     table_delete t id
   else ret tt) ;;
  bus_emit "error" [VEvent (VStr "error") e].

(** The function handed to [new Promise]: it runs at once.  An exception
    that escapes it can only come from the [catch] block, after the
    request has settled, where rejecting the promise again does nothing. *)
Definition request_executor (path : string) (payload : Value) : M nat :=
  req <- OutboundRequest_new ;;
  requests <- gets __pendingRequests ;;
  match requests with
  | Some t =>
      try_catch
        (try_catch
           (id <- OutboundRequest_id req ;;
            table_set t id req ;;
            channel <- gets __channel ;;
            Transport_send (sub_channel channel REQUESTS) [VStr path; VStr id; payload])
           (request_catch t req))
        (fun _ => ret tt)
  | None => ret tt
  end ;;
  ret req.

(** [request] answers with the OutboundRequest whose settlement the
    promise it returns follows. *)
Definition request (path : string) (payload : Value) : M nat :=
  protect_socket ;;
  isOpen <- gets __isOpen ;;
  assert SocketClosedError isOpen ;;
  requires "path" (VStr path) ;;
  request_executor path payload.

(** [currentTimestamp - request.timestamp > requestTimeout] *)
Definition overdue (w : World) (currentTimestamp requestTimeout : Z) (request : nat) : bool :=
  match requests w !! request with
  | Some q => (currentTimestamp - req_timestamp q >? requestTimeout)%Z
  | None => false
  end.

(** [pendingRequests[id]] for each key, keeping those that are overdue *)
Definition hanging_requests (t : nat) (currentTimestamp requestTimeout : Z) (w : World)
  : list nat :=
  List.filter (overdue w currentTimestamp requestTimeout)
    (omap (fun id => dict_get id (table_of t w)) (dict_keys (table_of t w))).

(** The body of the second [forEach] of [__cleanup]. *)
Definition cleanup_reject (t : nat) (request : nat) : M unit :=
  id <- OutboundRequest_id request ;;
  OutboundRequest_reject request (new_error TimeoutError VUndefined) ;;
  table_delete t id.

Definition __cleanup : M unit :=
  pendingRequests <- gets __pendingRequests ;;
  currentTimestamp <- Date_now ;;
  requestTimeout <- gets __requestTimeout ;;
  match pendingRequests with
  | None => ret tt
  | Some t =>
      hanging <- gets (hanging_requests t currentTimestamp requestTimeout) ;;
      forEach hanging (cleanup_reject t)
  end.

Definition __handleEvent (data : list Value) : M unit :=
  let name := at_ data 0 in
  let payload := at_ data 1 in
  try_catch
    (bus_emit (BUS_EVENTS env +:+ "/" +:+ toString name) [VEvent name payload])
    (fun e => bus_emit "error" [VEvent (VStr "error") e]).

Definition __handleRequest (data : list Value) : M unit :=
  let path := at_ data 0 in
  let id := at_ data 1 in
  let payload := at_ data 2 in
  let req := VInboundRequest path payload in
  let evt := BUS_REQUESTS env +:+ "/" +:+ toString path in
  has <- __hasHandler evt ;;
  if has then bus_emit evt [VArr [id; req]]
  else __sendResponse path id (new_error NotFoundError path) VUndefined.

Definition __handleResponse (data : list Value) : M unit :=
  requests <- gets __pendingRequests ;;
  match requests with
  | None => ret tt
  | Some t =>
      let id := at_ data 1 in
      let err := at_ data 2 in
      let payload := at_ data 3 in
      request <- table_get t (toString id) ;;
      match request with
      | Some r =>
          (if truthy err
           then OutboundRequest_reject r (if isError err then err else new_Error (toString err))
           else OutboundRequest_resolve r payload) ;;
          table_delete t (toString id)
      | None =>
          bus_emit "error" [VEvent (VStr "error") (new_Error "Redundant request handler")]
      end
  end.

(** What the Transport's listener does with the arguments the underlying
    input calls it with: [(_, ...args) => { subscriber(args); }]. *)
Definition call_subscriber (subscriber : Subscriber) (args : list Value) : M unit :=
  match subscriber with
  | HandleEvent => __handleEvent args
  | HandleRequest => __handleRequest args
  | HandleResponse => __handleResponse args
  | UserSubscriber n => _ <- call_user n [VArr args] ;; ret tt
  end.

Definition TListener_call (l : TListener) (emission : list Value) : M unit :=
  call_subscriber (tl_subscriber l) (tail emission).

(** One tick of the interval, at time [now]: [__cleanup] runs. *)
Definition tick (now : Z) : M unit :=
  modify (set_clock now) ;;
  __cleanup.

(** [n] ticks in a row of an interval started at time [start], one period
    apart, nothing else happening in between. *)
Fixpoint sweep (start : Z) (n : nat) : M unit :=
  match n with
  | O => ret tt
  | S n' =>
      period <- gets interval_time ;;
      tick (start + period) ;;
      sweep (start + period) n'
  end.

End Program.

(** ** Vocabulary of the statements *)

(** The world a computation leaves, whether it returned or threw. *)
Definition run {A} (w : World) (m : M A) : World := world_of (m w).

(** The store after the request [r] has settled as [s]. *)
Definition mark (s : Settlement) (reqs : list OutboundRequest) (r : nat) : list OutboundRequest :=
  match reqs !! r with
  | Some q => <[r := settled_as s q]> reqs
  | None => reqs
  end.

Definition is_remove (e : Effect) : Prop :=
  match e with EInputRemoveListener _ _ => True | _ => False end.

(** A pending-request table as the Socket builds it: one entry per key, one
    request object per entry, each filed under its own id and not settled. *)
Definition table_wf (w : World) (tbl : list (string * nat)) : Prop :=
  NoDup (map fst tbl) /\ NoDup (map snd tbl)
  /\ forall id r, (id, r) ∈ tbl ->
       exists q, requests w !! r = Some q /\ req_id q = id /\ req_settled q = None.

(** An open socket between two ticks of its interval. *)
Definition sweeping (w : World) (t : nat) (tbl : list (string * nat)) : Prop :=
  __pendingRequests w = Some t /\ tables w !! t = Some tbl /\ table_wf w tbl.

(** The three fields the lifecycle keeps together. *)
Definition view (w : World) : bool * option string * option nat :=
  (__isOpen w, __channel w, __pendingRequests w).

(** [P] holds after [m], returned or thrown, whenever it held before. *)
Definition stable (P : World -> Prop) {A} (m : M A) : Prop :=
  forall w, P w -> P (world_of (m w)).

(** [__channel] is set exactly while the socket is open, and the
    pending-request table is set whenever it is open. *)
Definition lockstep (w : World) : Prop :=
  (__isOpen w = true <-> __channel w <> None)
  /\ (__isOpen w = true -> __pendingRequests w <> None).

Definition is_invoke (h : nat) (e : Effect) : bool :=
  match e with EInvoke h' _ => Nat.eqb h h' | _ => false end.

(** How many times the user's function [h] has been called. *)
Definition invocations (h : nat) (tr : list Effect) : nat :=
  length (List.filter (is_invoke h) tr).

(** The user's function [h] returns, and has not called back into the
    Socket. *)
Definition quiet (env : Env) (h : nat) : Prop :=
  forall args w, exists v, user env h args w = Ok v w.

(** A listener registered without [once], for a quiet function other
    than [h]. *)
Definition plain_listener (env : Env) (h : nat) (l : Listener) : Prop :=
  exists h', l = LUser h' /\ h' <> h /\ quiet env h'.

(** The world after [Transport.on(channel, subscriber)] has passed its
    checks: a fresh listener function is registered with the input and
    filed under a fresh id. *)
Definition registered (env : Env) (w : World) (channel : string) (subscriber : Subscriber)
  : World :=
  set_listeners
    (option_map (dict_set (nanoid env (nanoid_count w))
                   (channel, {| tl_fn := fresh_fn w; tl_subscriber := subscriber |}))
       (__listeners w))
    (set_nanoid_count (S (nanoid_count w))
       (set_trace (trace w ++ [EInputOn channel {| tl_fn := fresh_fn w; tl_subscriber := subscriber |}])
          (set_fresh_fn (S (fresh_fn w)) w))).

(** The call [removeListener(channel, fn)] made for an entry of the
    Transport's listener table. *)
Definition remove_effect (e : string * (string * TListener)) : Effect :=
  EInputRemoveListener e.2.1 e.2.2.

(** The world in which [open] publishes the [open] event. *)
Definition opening (env : Env) (w : World) (channel : string) : World :=
  let w1 := registered env w (channel +:+ ":" +:+ EVENTS) HandleEvent in
  let w2 := registered env w1 (channel +:+ ":" +:+ REQUESTS) HandleRequest in
  let w3 := registered env w2 (channel +:+ ":" +:+ RESPONSES) HandleResponse in
  set_trace (trace w3 ++ [EIntervalStart])
    (set_interval_running true
       (set_pendingRequests (Some (length (tables w)))
          (set_tables (tables w ++ [[]])
             (set_channel (Some channel)
                (set_isOpen true
                   (set_subscriptions
                      (Some [Unsubscribe (nanoid env (nanoid_count w));
                             Unsubscribe (nanoid env (S (nanoid_count w)));
                             Unsubscribe (nanoid env (S (S (nanoid_count w))))]) w3)))))).

(** The world [request] leaves when the output takes the message. *)
Definition requested (env : Env) (w : World) (t : nat) (path : string) (payload : Value)
  : World :=
  let id := nanoid env (nanoid_count w) in
  let r := length (requests w) in
  let channel := sub_channel (__channel w) REQUESTS in
  set_trace (trace w ++ [EOutputSend channel [VStr path; VStr id; payload]])
    (set_tables (<[t := dict_set id r (table_of t w)]> (tables w))
       (set_requests (requests w ++ [{| req_id := id; req_timestamp := clock w;
                                        req_settled := None |}])
          (set_nanoid_count (S (nanoid_count w)) w))).

(** How [__handleResponse] settles the request it finds:
    [err ? reject(isError(err) ? err : new Error(err.toString())) : resolve(payload)]. *)
Definition response_outcome (err payload : Value) : Settlement :=
  if truthy err
  then Rejected (if isError err then err else new_Error (toString err))
  else Resolved payload.

(** ** Concrete environments and worlds *)

Definition with_foreign (user : nat -> list Value -> M Value)
    (output_send : string -> list Value -> M unit) : Env :=
  {| BUS_EVENTS := "0.5488135039273248";
     BUS_REQUESTS := "0.7151893663724195";
     error_text := fun c _ => error_name c;
     nanoid := fun n => "id-" +:+ string_of_Z (Z.of_nat n);
     user := user;
     output_send := output_send |}.

(** Handlers that return [undefined], an output that accepts every send. *)
Definition quiet_env : Env :=
  with_foreign (fun _ _ => ret VUndefined) (fun _ _ => ret tt).

Definition broken_pipe : Value := VError Error_ "write EPIPE" VUndefined.

(** An output whose [send] always throws. *)
Definition failing_env : Env :=
  with_foreign (fun _ _ => ret VUndefined) (fun _ _ => throw broken_pipe).

(** The handler 1 throws; every other handler returns [undefined]. *)
Definition faulty_env : Env :=
  with_foreign (fun h _ => if Nat.eqb h 1 then throw broken_pipe else ret VUndefined)
    (fun _ _ => ret tt).

(** An in-process output: [send] hands the peer's answer to the listener of
    the responses sub-channel before it returns, and then throws. *)
Definition loopback_env : Env :=
  with_foreign (fun _ _ => ret VUndefined)
    (fun _ args =>
       TListener_call quiet_env {| tl_fn := 2; tl_subscriber := HandleResponse |}
         [VObj 0; at_ args 0; at_ args 1; VUndefined; VStr "pong"] ;;
       throw broken_pipe).

(** The handler 7, the first time it is called, makes the input deliver
    the event "tick" once more before it returns; every other handler just
    returns.  [depth] bounds the nesting of such calls. *)
Fixpoint reentrant_user (depth : nat) (h : nat) (args : list Value) : M Value :=
  match depth with
  | O => ret VUndefined
  | S d =>
      fun w =>
        if Nat.eqb h 7 && Nat.eqb (invocations h (trace w)) 1
        then (TListener_call (with_foreign (reentrant_user d) (fun _ _ => ret tt))
                {| tl_fn := 0; tl_subscriber := HandleEvent |}
                [VObj 0; VStr "tick"; VNull] ;;
              ret VUndefined) w
        else Ok VUndefined w
  end.

Definition reentrant_env : Env := with_foreign (reentrant_user 2) (fun _ _ => ret tt).

Definition endpoint : Capabilities :=
  {| has_on := true; has_once := true; has_removeAllListeners := true;
     has_removeListener := true; has_send := true |}.

(** The socket [new Socket(endpoint)] makes. *)
Definition blank : World :=
  {| s_disposed := false; __isOpen := false; __channel := None;
     __requestTimeout := 60000; interval_time := 60000; interval_running := false;
     __pendingRequests := None; __subscriptions := None; bus_events := [];
     t_disposed := false; __listeners := Some []; cells := []; requests := [];
     tables := []; clock := 0; nanoid_count := 0; fresh_fn := 0; trace := [] |}.

(** After [open("ch")], and after a [request("ping", null)] on top of it. *)
Definition opened : World := run blank (open quiet_env "ch").
Definition one_pending : World := run opened (request quiet_env "ping" VNull).
Definition ping : OutboundRequest :=
  {| req_id := "id-3"; req_timestamp := 0; req_settled := None |}.

(** * Properties *)

(** ** Worlds, dictionaries, stores *)

Lemma World_eta w :
  w = {| s_disposed := s_disposed w; __isOpen := __isOpen w; __channel := __channel w;
         __requestTimeout := __requestTimeout w; interval_time := interval_time w;
         interval_running := interval_running w; __pendingRequests := __pendingRequests w;
         __subscriptions := __subscriptions w; bus_events := bus_events w;
         t_disposed := t_disposed w; __listeners := __listeners w; cells := cells w;
         requests := requests w; tables := tables w; clock := clock w;
         nanoid_count := nanoid_count w; fresh_fn := fresh_fn w; trace := trace w |}.
Proof. destruct w; reflexivity. Qed.

(** Two results that differ only in how the same world is written. *)
Ltac world_eq w :=
  solve [ reflexivity
        | f_equal; destruct w; cbn in *; subst; reflexivity
        | f_equal; destruct w; cbn in *; congruence ].

(** Reading a field through a stack of field updates. *)
Ltac wsimp :=
  cbn [s_disposed __isOpen __channel __requestTimeout interval_time interval_running
       __pendingRequests __subscriptions bus_events t_disposed __listeners cells requests
       tables clock nanoid_count fresh_fn trace
       set_s_disposed set_isOpen set_channel set_requestTimeout set_interval_time
       set_interval_running set_pendingRequests set_subscriptions set_bus_events
       set_t_disposed set_listeners set_cells set_requests set_tables set_clock
       set_nanoid_count set_fresh_fn set_trace].

Section DictFacts.
Context {A : Type}.
Implicit Types (d : list (string * A)) (k : string).

Lemma dict_get_set_eq k a d : dict_get k (dict_set k a d) = Some a.
Proof.
  induction d as [|[k' a'] d IH]; cbn.
  - rewrite String.eqb_refl. reflexivity.
  - destruct (String.eqb k k') eqn:E; cbn; rewrite E; auto.
Qed.

Lemma dict_get_delete_eq k d : dict_get k (dict_delete k d) = None.
Proof.
  induction d as [|[k' a'] d IH]; cbn; auto.
  destruct (String.eqb k k') eqn:E; cbn; rewrite ?E; auto.
Qed.

Lemma dict_get_elem k a d : NoDup (map fst d) -> (k, a) ∈ d -> dict_get k d = Some a.
Proof.
  induction d as [|[k' a'] d IH]; cbn; intros Hnd Hin.
  - set_solver.
  - apply NoDup_cons in Hnd as [Hn Hnd].
    apply elem_of_cons in Hin as [E|Hin].
    + injection E as <- <-. rewrite String.eqb_refl. reflexivity.
    + destruct (String.eqb_spec k k') as [->|]; auto.
      exfalso. apply Hn. apply list_elem_of_fmap. exists (k', a). split; auto.
Qed.

Lemma dict_get_In k a d : dict_get k d = Some a -> In (k, a) d.
Proof.
  induction d as [|[k' a'] d IH]; cbn; [discriminate|].
  destruct (String.eqb_spec k k'); [left; congruence|right; auto].
Qed.

Lemma omap_dict_get_keys d l :
  NoDup (map fst d) -> l ⊆ d ->
  omap (fun id => dict_get id d) (map fst l) = map snd l.
Proof.
  intros Hnd. induction l as [|[k a] l IH]; intros Hsub; cbn; auto.
  rewrite (dict_get_elem k a d) by (auto; set_solver).
  f_equal. apply IH. set_solver.
Qed.

Lemma dict_delete_filter k d :
  dict_delete k d = List.filter (fun e => negb (String.eqb k e.1)) d.
Proof.
  induction d as [|[k' a] d IH]; cbn; auto.
  destruct (String.eqb k k'); cbn; congruence.
Qed.

Lemma foldl_dict_delete ks : forall d,
  foldl (fun d k => dict_delete k d) d ks
  = List.filter (fun e => forallb (fun k => negb (String.eqb k e.1)) ks) d.
Proof.
  induction ks as [|k ks IH]; intros d; cbn.
  - induction d as [|e d IHd]; cbn; congruence.
  - rewrite IH, dict_delete_filter.
    induction d as [|e d IHd]; cbn; auto.
    destruct (String.eqb k e.1); cbn; auto.
    destruct (forallb _ ks); cbn; congruence.
Qed.

Lemma NoDup_fst_inj d e e' :
  NoDup (map fst d) -> e ∈ d -> e' ∈ d -> e.1 = e'.1 -> e = e'.
Proof.
  induction d as [|x d IH]; cbn; intros Hnd He He' Heq.
  - set_solver.
  - apply NoDup_cons in Hnd as [Hn Hnd].
    apply elem_of_cons in He as [->|He]; apply elem_of_cons in He' as [->|He']; auto.
    + exfalso. apply Hn. rewrite Heq. apply list_elem_of_fmap. eauto.
    + exfalso. apply Hn. rewrite <- Heq. apply list_elem_of_fmap. eauto.
Qed.

(** Deleting the keys of the entries that satisfy [p] leaves the others,
    in place. *)
Lemma foldl_dict_delete_filter (p : string * A -> bool) d :
  NoDup (map fst d) ->
  foldl (fun d k => dict_delete k d) d (map fst (List.filter p d))
  = List.filter (fun e => negb (p e)) d.
Proof.
  intros Hnd. rewrite foldl_dict_delete.
  apply filter_ext_in. intros e He. apply list_elem_of_In in He.
  destruct (p e) eqn:Hp; cbn.
  - apply not_true_is_false. intros Hall.
    rewrite forallb_forall in Hall.
    specialize (Hall e.1).
    rewrite String.eqb_refl in Hall. cbn in Hall.
    assert (In e.1 (map fst (List.filter p d))); [|intuition congruence].
    apply in_map. apply filter_In. split; auto. apply list_elem_of_In; auto.
  - apply forallb_forall. intros k Hk.
    apply in_map_iff in Hk as (e' & <- & He').
    apply filter_In in He' as [He' Hp'].
    apply list_elem_of_In in He'.
    destruct (String.eqb_spec e'.1 e.1) as [E|]; auto.
    assert (e' = e) by (eapply NoDup_fst_inj; eauto). congruence.
Qed.

Lemma NoDup_filter_map {B} (f : string * A -> B) (p : string * A -> bool) d :
  NoDup (map f d) -> NoDup (map f (List.filter p d)).
Proof.
  induction d as [|e d IH]; cbn; intros Hnd; auto.
  apply NoDup_cons in Hnd as [Hn Hnd].
  destruct (p e); cbn; auto.
  apply NoDup_cons. split; auto.
  intros Hin. apply Hn.
  apply list_elem_of_fmap in Hin as (e' & -> & He').
  apply list_elem_of_fmap. exists e'. split; auto.
  apply list_elem_of_In in He'. apply filter_In in He' as [He' _].
  apply list_elem_of_In; auto.
Qed.
End DictFacts.

Section StoreFacts.
Implicit Types (reqs : list OutboundRequest) (r : nat).

Lemma lookup_mark_eq s reqs r q :
  reqs !! r = Some q -> mark s reqs r !! r = Some (settled_as s q).
Proof.
  intros H. unfold mark. rewrite H. apply list_lookup_insert_eq.
  eapply lookup_lt_Some; eauto.
Qed.

Lemma lookup_mark_ne s reqs r r' : r <> r' -> mark s reqs r !! r' = reqs !! r'.
Proof.
  intros H. unfold mark. destruct (reqs !! r); auto.
  apply list_lookup_insert_ne; auto.
Qed.

Lemma lookup_foldl_mark_notin s rs : forall reqs r,
  r ∉ rs -> foldl (mark s) reqs rs !! r = reqs !! r.
Proof.
  induction rs as [|r0 rs IH]; intros reqs r Hn; cbn; auto.
  rewrite IH by set_solver. apply lookup_mark_ne. set_solver.
Qed.

Lemma lookup_foldl_mark_in s rs : forall reqs r q,
  NoDup rs -> r ∈ rs -> reqs !! r = Some q ->
  foldl (mark s) reqs rs !! r = Some (settled_as s q).
Proof.
  induction rs as [|r0 rs IH]; intros reqs r q Hnd Hin Hq; cbn.
  - set_solver.
  - apply NoDup_cons in Hnd as [Hn Hnd].
    apply elem_of_cons in Hin as [->|Hin].
    + rewrite lookup_foldl_mark_notin by auto. apply lookup_mark_eq; auto.
    + apply IH; auto. rewrite lookup_mark_ne; auto. intros ->. auto.
Qed.
End StoreFacts.

Lemma invocations_app h a b : invocations h (a ++ b) = invocations h a + invocations h b.
Proof. unfold invocations. rewrite List.filter_app, length_app. reflexivity. Qed.

Lemma forEach_app {A} (xs ys : list A) f w :
  forEach (xs ++ ys) f w = match forEach xs f w with
                           | Ok _ w' => forEach ys f w'
                           | Throw e w' => Throw e w'
                           end.
Proof.
  revert w. induction xs as [|x xs IH]; intros w; cbn [app forEach].
  - reflexivity.
  - unfold bind. destruct (f x w) as [[] w'|e w']; auto.
Qed.

(** ** Single steps *)

Section Steps.
Variable env : Env.

Lemma sub_channel_nonempty c s : (sub_channel c s =? "")%string = false.
Proof. unfold sub_channel. destruct (default "undefined" c); reflexivity. Qed.

Lemma table_of_lookup t tbl w : tables w !! t = Some tbl -> table_of t w = tbl.
Proof. unfold table_of. intros ->. reflexivity. Qed.

Lemma settle_run r s q w :
  requests w !! r = Some q -> req_settled q = None ->
  OutboundRequest_settle r s w =
  Ok tt (set_trace (trace w ++ [settle_effect r s]) (set_requests (mark s (requests w) r) w)).
Proof.
  intros Hq Hs. unfold OutboundRequest_settle, bind, gets, mark. rewrite Hq, Hs. reflexivity.
Qed.

(** A send that passes the Transport's own checks reaches the output. *)
Lemma Transport_send_run channel args w :
  t_disposed w = false -> (channel =? "")%string = false ->
  Transport_send env channel args w =
  output_send env channel args (set_trace (trace w ++ [EOutputSend channel args]) w).
Proof.
  intros Hd Hc. unfold Transport_send, protect_transport, requires, bind, gets, log, modify, ret.
  rewrite Hd, Hc. reflexivity.
Qed.

Lemma sendResponse_run path id err payload w :
  t_disposed w = false ->
  let channel := sub_channel (__channel w) RESPONSES in
  let error := if isError err then VStr (message_of err) else err in
  let data := if truthy err then VNull else payload in
  let timer := if isError err then [ESetTimeout "error" [VEvent (VStr "error") err]] else [] in
  __sendResponse env path id err payload w =
    output_send env channel [path; id; error; data]
      (set_trace (trace w ++ timer ++ [EOutputSend channel [path; id; error; data]]) w).
Proof.
  intros Hd channel error data timer.
  unfold __sendResponse, bind, gets. subst error timer.
  destruct (isError err) eqn:He; cbn.
  - rewrite Transport_send_run by (cbn; auto using sub_channel_nonempty).
    cbn. rewrite <- app_assoc. reflexivity.
  - rewrite Transport_send_run by (cbn; auto using sub_channel_nonempty).
    reflexivity.
Qed.

(** Listeners registered without [once] for functions that return. *)
Lemma forEach_users hs args : forall w,
  Forall (quiet env) hs ->
  forEach (map LUser hs) (fun cb => call_listener env cb args) w
  = Ok tt (set_trace (trace w ++ map (fun h => EInvoke h args) hs) w).
Proof.
  induction hs as [|h hs IH]; intros w Hq.
  - cbn. unfold ret. rewrite app_nil_r. world_eq w.
  - apply Forall_cons in Hq as [Hh Hq].
    destruct (Hh args (set_trace (trace w ++ [EInvoke h args]) w)) as (v & Hv).
    cbn [map forEach call_listener]. unfold call_user, log, modify, bind. cbv beta iota.
    rewrite Hv. unfold ret. rewrite IH by exact Hq.
    f_equal. wsimp. rewrite <- app_assoc. reflexivity.
Qed.

End Steps.

(** ** What leaves the lifecycle fields alone *)

Create HintDb stable.

Section Stable.
Variable P : World -> Prop.
Hypothesis P_view : forall w w', view w' = view w -> P w -> P w'.

Lemma stable_ret {A} (a : A) : stable P (ret a).
Proof. intros w H. exact H. Qed.

Lemma stable_throw {A} e : stable P (@throw A e).
Proof. intros w H. exact H. Qed.

Lemma stable_gets {A} (f : World -> A) : stable P (gets f).
Proof. intros w H. exact H. Qed.

Lemma stable_modify f : (forall w, view (f w) = view w) -> stable P (modify f).
Proof. intros Hf w H. cbn. eapply P_view; eauto. Qed.

Lemma stable_bind {A B} (m : M A) (k : A -> M B) :
  stable P m -> (forall a, stable P (k a)) -> stable P (bind m k).
Proof.
  intros Hm Hk w H. unfold bind. specialize (Hm w H).
  destruct (m w) as [a w'|e w']; cbn in *; auto. apply Hk; auto.
Qed.

Lemma stable_try_catch {A} (m : M A) h :
  stable P m -> (forall e, stable P (h e)) -> stable P (try_catch m h).
Proof.
  intros Hm Hh w H. unfold try_catch. specialize (Hm w H).
  destruct (m w) as [a w'|e w']; cbn in *; auto. apply Hh; auto.
Qed.

Lemma stable_forEach {A} (xs : list A) f :
  (forall x, stable P (f x)) -> stable P (forEach xs f).
Proof.
  intros Hf. induction xs as [|x xs IH]; cbn [forEach].
  - apply stable_ret.
  - apply stable_bind; auto.
Qed.

Variable env : Env.

Ltac view_goal :=
  intros; cbn; repeat case_match; reflexivity.

Ltac stab :=
  repeat first
    [ apply stable_ret | apply stable_throw | apply stable_gets
    | apply stable_bind; [|intros ?]
    | apply stable_try_catch; [|intros ?]
    | apply stable_forEach; intros ?
    | apply stable_modify; solve [view_goal]
    | solve [auto with stable]
    | match goal with
      | |- stable _ (match ?x with _ => _ end) => destruct x
      end ].

Lemma stable_log e : stable P (log e).
Proof. unfold log. stab. Qed.
Hint Resolve stable_log : stable.

Lemma stable_assert c b : stable P (assert env c b).
Proof. unfold assert. stab. Qed.
Lemma stable_requires n v : stable P (requires env n v).
Proof. unfold requires. stab. Qed.
Lemma stable_protect_socket : stable P (protect_socket env).
Proof. unfold protect_socket. stab. Qed.
Lemma stable_protect_transport : stable P (protect_transport env).
Proof. unfold protect_transport. stab. Qed.
Hint Resolve stable_assert stable_requires stable_protect_socket stable_protect_transport : stable.

Lemma stable_nanoid_next : stable P (nanoid_next env).
Proof. unfold nanoid_next. stab. Qed.
Lemma stable_new_function : stable P new_function.
Proof. unfold new_function. stab. Qed.
Hint Resolve stable_nanoid_next stable_new_function : stable.

Lemma stable_OutboundRequest_new : stable P (OutboundRequest_new env).
Proof. unfold OutboundRequest_new, Date_now. stab. Qed.
Lemma stable_settle r s : stable P (OutboundRequest_settle r s).
Proof. unfold OutboundRequest_settle. stab. Qed.
Hint Resolve stable_OutboundRequest_new stable_settle : stable.
Lemma stable_reject r e : stable P (OutboundRequest_reject r e).
Proof. unfold OutboundRequest_reject. stab. Qed.
Lemma stable_resolve r e : stable P (OutboundRequest_resolve r e).
Proof. unfold OutboundRequest_resolve. stab. Qed.
Lemma stable_isDisposed r : stable P (OutboundRequest_isDisposed r).
Proof. unfold OutboundRequest_isDisposed. stab. Qed.
Lemma stable_id r : stable P (OutboundRequest_id r).
Proof. unfold OutboundRequest_id. stab. Qed.
Hint Resolve stable_reject stable_resolve stable_isDisposed stable_id : stable.

Lemma stable_table_new : stable P table_new.
Proof. unfold table_new. stab. Qed.
Lemma stable_table_get t k : stable P (table_get t k).
Proof. unfold table_get. stab. Qed.
Lemma stable_table_set t k r : stable P (table_set t k r).
Proof. unfold table_set. stab. Qed.
Lemma stable_table_delete t k : stable P (table_delete t k).
Proof. unfold table_delete. stab. Qed.
Lemma stable_table_keys t : stable P (table_keys t).
Proof. unfold table_keys. stab. Qed.
Hint Resolve stable_table_new stable_table_get stable_table_set stable_table_delete
  stable_table_keys : stable.

Lemma stable_bus_on ev cb : stable P (bus_on ev cb).
Proof. unfold bus_on. stab. Qed.
Lemma stable_bus_unbind ev cb : stable P (bus_unbind ev cb).
Proof. unfold bus_unbind. stab. Qed.
Lemma stable_read_cell c : stable P (read_cell c).
Proof. unfold read_cell. stab. Qed.
Lemma stable_write_cell c v : stable P (write_cell c v).
Proof. unfold write_cell. stab. Qed.
Hint Resolve stable_bus_on stable_bus_unbind stable_read_cell stable_write_cell : stable.

Lemma stable_Transport_on ch s : stable P (Transport_on env ch s).
Proof. unfold Transport_on. stab. Qed.
Lemma stable_Transport_unsubscribe id : stable P (Transport_unsubscribe id).
Proof. unfold Transport_unsubscribe. stab. Qed.
Hint Resolve stable_Transport_on stable_Transport_unsubscribe : stable.

Lemma stable_cancel s : stable P (cancel s).
Proof. unfold cancel. stab. Qed.
Lemma stable_interval_start : stable P interval_start.
Proof. unfold interval_start. stab. Qed.
Lemma stable_interval_stop : stable P interval_stop.
Proof. unfold interval_stop. stab. Qed.
Lemma stable_close_reject t id : stable P (close_reject env t id).
Proof. unfold close_reject. stab. Qed.
Hint Resolve stable_cancel stable_interval_start stable_interval_stop stable_close_reject : stable.

(** From here on the foreign code is called. *)
Hypothesis user_stable : forall h args, stable P (user env h args).
Hypothesis output_stable : forall ch args, stable P (output_send env ch args).
Hint Resolve user_stable output_stable : stable.

Lemma stable_call_user h args : stable P (call_user env h args).
Proof. unfold call_user. stab. Qed.
Lemma stable_Transport_send ch args : stable P (Transport_send env ch args).
Proof. unfold Transport_send. stab. Qed.
Hint Resolve stable_call_user stable_Transport_send : stable.

Lemma stable_sendResponse path id err payload :
  stable P (__sendResponse env path id err payload).
Proof. unfold __sendResponse. stab. Qed.
Hint Resolve stable_sendResponse : stable.

Lemma stable_responder h data : stable P (__responder env h data).
Proof. unfold __responder. stab. Qed.
Hint Resolve stable_responder : stable.

Lemma stable_call_listener l : forall args, stable P (call_listener env l args).
Proof.
  induction l as [h|fn h|cell inner IH]; intros args; cbn [call_listener]; stab.
Qed.
Hint Resolve stable_call_listener : stable.

Lemma stable_bus_emit ev args : stable P (bus_emit env ev args).
Proof. unfold bus_emit. stab. Qed.
Hint Resolve stable_bus_emit : stable.

Lemma stable_send ev payload : stable P (send env ev payload).
Proof. unfold send. stab. Qed.

Lemma stable_request_catch t r e : stable P (request_catch env t r e).
Proof. unfold request_catch. stab. Qed.
Hint Resolve stable_request_catch : stable.

Lemma stable_request path payload : stable P (request env path payload).
Proof. unfold request, request_executor. stab. Qed.

End Stable.

(** ** close *)

Section Close.
Variable env : Env.

(** Calling the cancel functions only touches the two listener registries
    and asks the input to remove listeners. *)
Lemma forEach_cancel subs : forall w,
  exists b ls tr,
    forEach subs cancel w = Ok tt (set_trace (trace w ++ tr) (set_listeners ls (set_bus_events b w)))
    /\ Forall is_remove tr.
Proof.
  induction subs as [|s subs IH]; intros w.
  - exists (bus_events w), (__listeners w), []. split; [|constructor].
    cbn. unfold ret. rewrite app_nil_r. world_eq w.
  - assert (Hs : exists b ls tr,
               cancel s w = Ok tt (set_trace (trace w ++ tr) (set_listeners ls (set_bus_events b w)))
               /\ Forall is_remove tr).
    { destruct s as [event cb|cell|id]; cbn.
      - unfold bus_unbind, modify.
        destruct (dict_get event (bus_events w)) as [l|].
        + exists (dict_set event (filter (fun i => i <> cb) l) (bus_events w)), (__listeners w), [].
          split; [|apply Forall_nil; exact I]. rewrite app_nil_r. world_eq w.
        + exists (bus_events w), (__listeners w), [].
          split; [|apply Forall_nil; exact I]. rewrite app_nil_r. world_eq w.
      - unfold bind, read_cell, gets.
        destruct (default None (cells w !! cell)) as [[event cb]|].
        + unfold bus_unbind, modify.
          destruct (dict_get event (bus_events w)) as [l|].
          * exists (dict_set event (filter (fun i => i <> cb) l) (bus_events w)), (__listeners w), [].
            split; [|apply Forall_nil; exact I]. rewrite app_nil_r. world_eq w.
          * exists (bus_events w), (__listeners w), [].
            split; [|apply Forall_nil; exact I]. rewrite app_nil_r. world_eq w.
        + exists (bus_events w), (__listeners w), []. split; [|constructor].
          unfold ret. rewrite app_nil_r. world_eq w.
      - unfold Transport_unsubscribe, bind, gets.
        destruct (__listeners w) as [l|] eqn:El.
        + destruct (dict_get id l) as [[channel fn]|].
          * exists (bus_events w), (Some (dict_delete id l)), [EInputRemoveListener channel fn].
            split; [|repeat constructor].
            unfold log, modify. cbn. rewrite El. world_eq w.
          * exists (bus_events w), (Some (dict_delete id l)), [].
            split; [|constructor].
            unfold ret, modify. cbn. rewrite El, app_nil_r. world_eq w.
        + exists (bus_events w), None, []. split; [|constructor].
          unfold ret. rewrite app_nil_r. world_eq w. }
    destruct Hs as (b & ls & tr & Hs & Htr).
    destruct (IH (set_trace (trace w ++ tr) (set_listeners ls (set_bus_events b w))))
      as (b' & ls' & tr' & Hs' & Htr').
    exists b', ls', (tr ++ tr'). split; [|apply Forall_app; auto].
    cbn [forEach]. unfold bind at 1. rewrite Hs, Hs'. cbn. rewrite app_assoc. reflexivity.
Qed.

(** Cancel functions of the Transport leave the bus alone. *)
Lemma forEach_unsubscribe_bus subs :
  Forall (fun s => exists id, s = Unsubscribe id) subs ->
  forall w, exists w', forEach subs cancel w = Ok tt w' /\ bus_events w' = bus_events w.
Proof.
  induction 1 as [|s subs (id & ->) _ IH]; intros w.
  - exists w. split; reflexivity.
  - assert (Hs : exists w1, cancel (Unsubscribe id) w = Ok tt w1 /\ bus_events w1 = bus_events w).
    { cbn [cancel]. unfold Transport_unsubscribe, bind, gets, log, modify, ret.
      destruct (__listeners w) as [l|]; [|eexists; split; reflexivity].
      destruct (dict_get id l) as [[c f]|]; eexists; split; reflexivity. }
    destruct Hs as (w1 & Hs & Hb1). destruct (IH w1) as (w' & Hrun & Hb).
    exists w'. split; [|congruence].
    cbn [forEach]. unfold bind at 1. rewrite Hs. exact Hrun.
Qed.

(** The loop over the keys in [close]: one rejection per entry, in the
    order of the keys. *)
Lemma forEach_close_reject t tbl l : forall w,
  tables w !! t = Some tbl ->
  NoDup (map fst tbl) ->
  l ⊆ tbl ->
  NoDup (map snd l) ->
  (forall id r, (id, r) ∈ l -> exists q, requests w !! r = Some q /\ req_settled q = None) ->
  let err := new_error env ConnectionLostError VUndefined in
  forEach (map fst l) (close_reject env t) w =
  Ok tt (set_trace (trace w ++ map (fun e => EReject e.2 err) l)
           (set_requests (foldl (mark (Rejected err)) (requests w) (map snd l)) w)).
Proof.
  induction l as [|[id r] l IH]; intros w Ht Hk Hsub Hnd Hq err.
  - cbn. unfold ret. rewrite app_nil_r. world_eq w.
  - simpl in Hnd. apply NoDup_cons in Hnd as [Hn Hnd].
    destruct (Hq id r) as (q & Hr & Hs); [set_solver|].
    simpl. unfold bind at 1. unfold close_reject at 1. unfold bind, table_get, gets.
    rewrite (table_of_lookup t tbl) by auto.
    rewrite (dict_get_elem id r tbl) by (auto; set_solver).
    unfold OutboundRequest_reject. rewrite (settle_run r _ q) by auto.
    rewrite IH; auto.
    + cbn. rewrite <- app_assoc. reflexivity.
    + set_solver.
    + intros id' r' Hin. cbn.
      destruct (Hq id' r') as (q' & Hr' & Hs'); [set_solver|].
      exists q'. split; auto. rewrite lookup_mark_ne; auto.
      intros ->. apply Hn. apply list_elem_of_fmap. exists (id', r'). auto.
Qed.

(** C1, as the code has it.  On an open socket whose pending-request table
    holds N outstanding requests, [close()] rejects every one of them with
    a ConnectionLost error, in the order of the table's keys and before the
    [close] event is published, so within the call; the only other calls it
    makes before that are the stop of the interval and the removal of
    listeners, and it leaves the socket closed and without a channel.  It
    removes no entry: when the [close] event is published the table field
    is still set and every table is what it was, so the table still holds
    all N entries; and when the listeners of the [close] event just return,
    that is the state in which [close()] returns. *)
Theorem close_rejects_pending w t tbl subs :
  s_disposed w = false ->
  __isOpen w = true ->
  __subscriptions w = Some subs ->
  __pendingRequests w = Some t ->
  tables w !! t = Some tbl ->
  NoDup (map fst tbl) ->
  NoDup (map snd tbl) ->
  (forall id r, (id, r) ∈ tbl -> exists q, requests w !! r = Some q /\ req_settled q = None) ->
  let err := VError ConnectionLostError (error_text env ConnectionLostError VUndefined) VUndefined in
  exists w1 tr,
    close env w = bus_emit env "close" [VEvent (VStr "close") VUndefined] w1
    /\ trace w1 = trace w ++ EIntervalStop :: tr ++ map (fun e => EReject e.2 err) tbl
    /\ Forall is_remove tr
    /\ (forall id r q, (id, r) ∈ tbl -> requests w !! r = Some q ->
          requests w1 !! r = Some (settled_as (Rejected err) q))
    /\ __isOpen w1 = false
    /\ __channel w1 = None
    /\ __pendingRequests w1 = Some t
    /\ tables w1 = tables w
    /\ table_of t w1 = tbl
    /\ (forall hs,
          Forall (fun s => exists id, s = Unsubscribe id) subs ->
          listeners_of "close" w = map LUser hs ->
          Forall (quiet env) hs ->
          exists w2,
            close env w = Ok tt w2
            /\ __pendingRequests w2 = Some t
            /\ table_of t w2 = tbl
            /\ requests w2 = requests w1).
Proof.
  intros Hd Ho Hsubs Hp Ht Hk Hr Hq err.
  remember (set_trace (trace w ++ [EIntervalStop])
              (set_interval_running false (set_channel None (set_isOpen false w)))) as wa eqn:Ea.
  destruct (forEach_cancel subs wa) as (b & ls & tr & Hc & Htr).
  remember (set_trace (trace wa ++ tr) (set_listeners ls (set_bus_events b wa))) as wb eqn:Eb.
  assert (Hpb : __pendingRequests wb = Some t) by (subst; exact Hp).
  assert (Htb : tables wb !! t = Some tbl) by (subst; exact Ht).
  assert (Hqb : requests wb = requests w) by (subst; reflexivity).
  pose proof (forEach_close_reject t tbl tbl wb Htb Hk) as Hl.
  cbn zeta in Hl. fold err in Hl.
  exists (set_trace (trace wb ++ map (fun e => EReject e.2 err) tbl)
            (set_requests (foldl (mark (Rejected err)) (requests wb) (map snd tbl)) wb)), tr.
  assert (Hrun : close env w
                 = bus_emit env "close" [VEvent (VStr "close") VUndefined]
                     (set_trace (trace wb ++ map (fun e => EReject e.2 err) tbl)
                        (set_requests (foldl (mark (Rejected err)) (requests wb) (map snd tbl))
                           wb))).
  { unfold close, protect_socket, assert, interval_stop, bind, gets, modify, log, ret, table_keys, gets.
    rewrite Hd, Ho. cbn. rewrite Hsubs, <- Ea, Hc. cbv beta iota. rewrite Hpb.
    rewrite (table_of_lookup t tbl wb) by exact Htb.
    unfold dict_keys. rewrite Hl; auto.
    rewrite Hqb. exact Hq. }
  split; [exact Hrun|].
  split; [subst; cbn; rewrite <- !app_assoc; reflexivity|].
  split; [exact Htr|].
  split.
  { intros id r q Hin Hrq. cbn. rewrite Hqb.
    apply lookup_foldl_mark_in; auto.
    apply list_elem_of_fmap. exists (id, r). auto. }
  split; [subst; reflexivity|].
  split; [subst; reflexivity|].
  split; [exact Hpb|].
  split; [subst; reflexivity|].
  split; [apply table_of_lookup; exact Htb|].
  intros hs Hsubs' Hls Hquiet. rewrite Hrun.
  destruct (forEach_unsubscribe_bus subs Hsubs' wa) as (wc & Hc' & Hbus).
  rewrite Hc in Hc'. injection Hc' as Hwc.
  assert (Hb : bus_events wb = bus_events w).
  { rewrite Hwc, Hbus. rewrite Ea. reflexivity. }
  unfold bus_emit, bind, gets.
  replace (listeners_of "close" _) with (map LUser hs)
    by (rewrite <- Hls; unfold listeners_of; wsimp; rewrite Hb; reflexivity).
  rewrite (forEach_users env) by exact Hquiet.
  eexists. split; [reflexivity|].
  split; [exact Hpb|]. split; [apply table_of_lookup; exact Htb|reflexivity].
Qed.

End Close.

Lemma close_rejects_pending_witness :
  exists w1,
    close quiet_env one_pending
      = bus_emit quiet_env "close" [VEvent (VStr "close") VUndefined] w1
    /\ requests w1 !! 0
       = Some (settled_as
                 (Rejected (VError ConnectionLostError "ConnectionLostError" VUndefined)) ping)
    /\ __isOpen w1 = false
    /\ table_of 0 w1 = [("id-3", 0)]
    /\ exists w2, close quiet_env one_pending = Ok tt w2 /\ table_of 0 w2 = [("id-3", 0)].
Proof.
  destruct (close_rejects_pending quiet_env one_pending 0 [("id-3", 0)]
              [Unsubscribe "id-0"; Unsubscribe "id-1"; Unsubscribe "id-2"])
    as (w1 & tr & Hrun & _ & _ & Hreq & Hclosed & _ & _ & _ & Htable & Hret).
  - reflexivity.
  - reflexivity.
  - reflexivity.
  - reflexivity.
  - reflexivity.
  - apply NoDup_singleton.
  - apply NoDup_singleton.
  - intros id r H. apply list_elem_of_singleton in H. injection H as -> ->.
    exists ping. split; reflexivity.
  - exists w1. split; [exact Hrun|].
    split; [apply (Hreq "id-3" 0 ping); [apply list_elem_of_singleton|]; reflexivity|].
    split; [exact Hclosed|]. split; [exact Htable|].
    destruct (Hret []) as (w2 & Hclose & _ & Htable2 & _).
    + repeat (apply Forall_cons; split; [eexists; reflexivity|]). apply Forall_nil. exact I.
    + reflexivity.
    + apply Forall_nil. exact I.
    + exists w2. split; [exact Hclose|exact Htable2].
Defined.

(** C1, as stated, fails: after [open("ch")], [request("ping", null)] and
    [close()], the call has returned and the pending-request table still
    holds the entry of the rejected request. *)
Lemma close_keeps_entries :
  exists w',
    close quiet_env one_pending = Ok tt w'
    /\ __pendingRequests w' = Some 0
    /\ table_of 0 w' = [("id-3", 0)]
    /\ table_of 0 w' <> [].
Proof.
  eexists. split; [vm_compute; reflexivity|].
  split; [reflexivity|]. split; [reflexivity|]. discriminate.
Qed.

(** ** The lifecycle fields *)

Lemma lockstep_view w w' : view w' = view w -> lockstep w -> lockstep w'.
Proof.
  unfold view, lockstep. intros E. injection E as -> -> ->. auto.
Qed.

Section Lockstep.
Variable env : Env.
Hypothesis user_lockstep : forall h args, stable lockstep (user env h args).
Hypothesis output_lockstep : forall ch args, stable lockstep (output_send env ch args).

Lemma lockstep_constructor transport settings w :
  Socket_constructor env transport settings = inr w -> lockstep w.
Proof.
  unfold Socket_constructor. intros H.
  assert (E : view w = (false, None, None)).
  { destruct transport as [|d ls|c]; try discriminate.
    - injection H as <-. reflexivity.
    - destruct (Transport_constructor env (Some c) None); try discriminate.
      injection H as <-. reflexivity. }
  unfold view in E. injection E as E1 E2 E3.
  unfold lockstep. rewrite E1, E2. split; [split|]; intros; congruence.
Qed.

Lemma lockstep_open channel : stable lockstep (open env channel).
Proof.
  pose proof lockstep_view as V.
  unfold open.
  apply stable_bind; [apply stable_protect_socket; auto|intros _].
  apply stable_bind; [apply stable_gets|intros isOpen].
  apply stable_bind; [apply stable_assert; auto|intros _].
  apply stable_bind; [apply stable_Transport_on; auto|intros s1].
  apply stable_bind; [apply stable_Transport_on; auto|intros s2].
  apply stable_bind; [apply stable_Transport_on; auto|intros s3].
  intros w Hw. unfold interval_start, log, table_new, bind, modify, gets, ret.
  cbv beta iota.
  apply stable_bus_emit; auto.
  unfold lockstep. cbn. split; [split|]; intros; congruence.
Qed.

Lemma lockstep_close : stable lockstep (close env).
Proof.
  pose proof lockstep_view as V.
  unfold close.
  apply stable_bind; [apply stable_protect_socket; auto|intros _].
  apply stable_bind; [apply stable_gets|intros isOpen].
  apply stable_bind; [apply stable_assert; auto|intros _].
  intros w Hw. unfold bind at 1 2. unfold modify at 1 2.
  revert w Hw.
  match goal with
  | |- forall w, _ -> lockstep (world_of (?m _)) =>
      assert (Hm : stable lockstep m)
  end.
  { apply stable_bind; [apply stable_interval_stop; auto|intros _].
    apply stable_bind; [apply stable_gets|intros subs].
    apply stable_bind.
    { destruct subs; [apply stable_forEach; intros; apply stable_cancel; auto|apply stable_ret]. }
    intros _.
    apply stable_bind; [apply stable_gets|intros pr].
    apply stable_bind.
    { destruct pr; [|apply stable_ret].
      apply stable_bind; [apply stable_table_keys|intros keys].
      apply stable_forEach; intros; apply stable_close_reject; auto. }
    intros _. apply stable_bus_emit; auto. }
  intros w Hw. apply Hm.
  unfold lockstep. cbn. split; [split|]; intros; congruence.
Qed.

(** C2, as the code has it.  A new Socket has [__channel] set exactly when
    [isOpen] is true, and the pending-request table set whenever [isOpen]
    is true; each of [open], [close], [send] and [request], called in such
    a state, leaves it so, whether the call returns or throws, as long as
    the handlers and the output it calls leave it so. *)
Theorem lockstep_operations :
  (forall transport settings w, Socket_constructor env transport settings = inr w -> lockstep w)
  /\ forall w, lockstep w ->
       (forall channel, lockstep (world_of (open env channel w)))
       /\ lockstep (world_of (close env w))
       /\ (forall event payload, lockstep (world_of (send env event payload w)))
       /\ (forall path payload, lockstep (world_of (request env path payload w))).
Proof.
  split; [apply lockstep_constructor|].
  intros w Hw. split; [|split; [|split]].
  - intros channel. apply lockstep_open; auto.
  - apply lockstep_close; auto.
  - intros event payload.
    apply stable_send;
      first [exact lockstep_view | exact output_lockstep | exact user_lockstep | exact Hw].
  - intros path payload.
    apply stable_request;
      first [exact lockstep_view | exact output_lockstep | exact user_lockstep | exact Hw].
Qed.

End Lockstep.

Lemma lockstep_operations_witness :
  lockstep blank
  /\ lockstep (world_of (open quiet_env "ch" blank))
  /\ lockstep (world_of (close quiet_env opened)).
Proof.
  destruct (lockstep_operations quiet_env) as [Hnew Hops].
  - intros h args w H. exact H.
  - intros ch args w H. exact H.
  - assert (Hb : lockstep blank).
    { apply (Hnew (RawEndpoint endpoint) {| timeout := None; cleanup := None |}).
      reflexivity. }
    destruct (Hops blank Hb) as (Hopen & _).
    split; [exact Hb|]. split.
    + exact (Hopen "ch").
    + destruct (Hops opened (Hopen "ch")) as (_ & Hclose & _). exact Hclose.
Defined.

(** C2, as stated, fails: after [open("ch")] and [close()], [__channel] is
    unset and the pending-request table is still set, while [isOpen] is
    false. *)
Lemma closed_socket_keeps_table :
  exists w',
    close quiet_env opened = Ok tt w'
    /\ __isOpen w' = false
    /\ __channel w' = None
    /\ __pendingRequests w' = Some 0.
Proof.
  eexists. split; [vm_compute; reflexivity|]. repeat split.
Qed.

(** ** The sweep *)

Section Sweep.
Variable env : Env.

Lemma hanging_requests_eq t tbl now timeout w :
  tables w !! t = Some tbl -> NoDup (map fst tbl) ->
  hanging_requests t now timeout w
  = map snd (List.filter (fun e => overdue w now timeout e.2) tbl).
Proof.
  intros Ht Hnd. unfold hanging_requests.
  rewrite (table_of_lookup t tbl) by auto.
  unfold dict_keys. rewrite omap_dict_get_keys by (auto; set_solver).
  apply filter_map_swap.
Qed.

(** The second loop of [__cleanup]: one rejection and one deletion per
    overdue request. *)
Lemma forEach_cleanup_reject t l : forall w d,
  tables w !! t = Some d ->
  NoDup (map snd l) ->
  (forall id r, (id, r) ∈ l ->
     exists q, requests w !! r = Some q /\ req_id q = id /\ req_settled q = None) ->
  let err := new_error env TimeoutError VUndefined in
  forEach (map snd l) (cleanup_reject env t) w =
  Ok tt (set_tables (<[t := foldl (fun d k => dict_delete k d) d (map fst l)]> (tables w))
           (set_trace (trace w ++ map (fun e => EReject e.2 err) l)
              (set_requests (foldl (mark (Rejected err)) (requests w) (map snd l)) w))).
Proof.
  induction l as [|[id r] l IH]; intros w d Ht Hnd Hq err.
  - cbn. unfold ret. rewrite app_nil_r, list_insert_id by auto. world_eq w.
  - simpl in Hnd. apply NoDup_cons in Hnd as [Hn Hnd].
    destruct (Hq id r) as (q & Hr & Hid & Hs); [set_solver|].
    simpl. unfold bind at 1. unfold cleanup_reject at 1.
    unfold bind, OutboundRequest_id, gets. rewrite Hr, Hid.
    unfold OutboundRequest_reject. rewrite (settle_run r _ q) by auto.
    unfold table_delete, modify.
    rewrite (table_of_lookup t d) by exact Ht.
    erewrite IH; auto.
    + cbn. rewrite <- app_assoc, list_insert_insert_eq. reflexivity.
    + cbn. apply list_lookup_insert_eq. eapply lookup_lt_Some; eauto.
    + intros id' r' Hin. cbn.
      destruct (Hq id' r') as (q' & Hr' & Hid' & Hs'); [set_solver|].
      exists q'. split; auto. rewrite lookup_mark_ne; auto.
      intros ->. apply Hn. apply list_elem_of_fmap. exists (id', r'). auto.
Qed.

Lemma cleanup_run w t tbl :
  __pendingRequests w = Some t ->
  tables w !! t = Some tbl ->
  table_wf w tbl ->
  let due := fun e : string * nat => overdue w (clock w) (__requestTimeout w) e.2 in
  let err := new_error env TimeoutError VUndefined in
  __cleanup env w =
  Ok tt (set_tables (<[t := List.filter (fun e => negb (due e)) tbl]> (tables w))
           (set_trace (trace w ++ map (fun e => EReject e.2 err) (List.filter due tbl))
              (set_requests (foldl (mark (Rejected err)) (requests w)
                               (map snd (List.filter due tbl))) w))).
Proof.
  intros Hp Ht (Hk & Hr & Hq) due err.
  unfold __cleanup, bind, gets, Date_now, gets. rewrite Hp.
  rewrite (hanging_requests_eq t tbl) by auto.
  fold due.
  rewrite (forEach_cleanup_reject t (List.filter due tbl) w tbl); auto.
  - rewrite foldl_dict_delete_filter by auto. reflexivity.
  - apply NoDup_filter_map; auto.
  - intros id r Hin. apply Hq.
    apply list_elem_of_In in Hin. apply filter_In in Hin as [Hin _].
    apply list_elem_of_In; auto.
Qed.

(** The store after a sweep: overdue requests rejected, the others as they
    were. *)
Lemma lookup_swept (due : string * nat -> bool) err tbl reqs id r q :
  NoDup (map snd tbl) ->
  (id, r) ∈ tbl -> reqs !! r = Some q ->
  foldl (mark (Rejected err)) reqs (map snd (List.filter due tbl)) !! r
  = Some (if due (id, r) then settled_as (Rejected err) q else q).
Proof.
  intros Hr Hin Hrq. destruct (due (id, r)) eqn:Hdue.
  - apply lookup_foldl_mark_in; auto.
    + apply NoDup_filter_map; auto.
    + apply list_elem_of_fmap. exists (id, r). split; auto.
      apply list_elem_of_In, filter_In. split; auto. apply list_elem_of_In; auto.
  - rewrite lookup_foldl_mark_notin; auto.
    intros Hr'. apply list_elem_of_fmap in Hr' as ([id' r'] & E & Hin').
    cbn in E. subst r'.
    apply list_elem_of_In, filter_In in Hin' as [Hin' Hdue'].
    apply list_elem_of_In in Hin'.
    assert (E : (id', r) = (id, r)); [|congruence].
    clear - Hr Hin Hin'. induction tbl as [|x tbl IH]; [set_solver|].
    simpl in Hr. apply NoDup_cons in Hr as [Hn Hr].
    apply elem_of_cons in Hin as [Ex|Hin]; apply elem_of_cons in Hin' as [Ex'|Hin'].
    + congruence.
    + subst x. exfalso. apply Hn. apply list_elem_of_fmap. exists (id', r). auto.
    + subst x. exfalso. apply Hn. apply list_elem_of_fmap. exists (id, r). auto.
    + auto.
Qed.

Lemma tick_run now w t tbl :
  sweeping w t tbl ->
  let due := fun e : string * nat => overdue w now (__requestTimeout w) e.2 in
  let err := new_error env TimeoutError VUndefined in
  exists w',
    tick env now w = Ok tt w'
    /\ sweeping w' t (List.filter (fun e => negb (due e)) tbl)
    /\ clock w' = now
    /\ __requestTimeout w' = __requestTimeout w
    /\ interval_time w' = interval_time w
    /\ trace w' = trace w ++ map (fun e => EReject e.2 err) (List.filter due tbl)
    /\ (forall id r q, (id, r) ∈ tbl -> requests w !! r = Some q ->
          requests w' !! r = Some (if due (id, r) then settled_as (Rejected err) q else q)).
Proof.
  intros (Hp & Ht & Hwf) due err.
  pose proof (cleanup_run (set_clock now w) t tbl Hp Ht Hwf) as Hc. cbn zeta in Hc.
  change (overdue (set_clock now w) (clock (set_clock now w))
            (__requestTimeout (set_clock now w))) with (overdue w now (__requestTimeout w)) in Hc.
  change (fun e : string * nat => overdue w now (__requestTimeout w) e.2) with due in Hc.
  change (new_error env TimeoutError VUndefined) with err in Hc.
  change (requests (set_clock now w)) with (requests w) in Hc.
  destruct Hwf as (Hk & Hr & Hq).
  pose proof (fun id r q => lookup_swept due err tbl (requests w) id r q Hr) as Hreq.
  remember (foldl (mark (Rejected err)) (requests w) (map snd (List.filter due tbl))) as store
    eqn:Estore.
  clear Estore.
  eexists. split; [|split; [|split; [|split; [|split; [|split]]]]].
  - unfold tick, bind, modify. exact Hc.
  - split; [exact Hp|split].
    + cbn. apply list_lookup_insert_eq. eapply lookup_lt_Some; eauto.
    + split; [apply NoDup_filter_map; auto|split; [apply NoDup_filter_map; auto|]].
      intros id r Hin.
      apply list_elem_of_In, filter_In in Hin as [Hin Hdue].
      apply list_elem_of_In in Hin.
      destruct (Hq id r Hin) as (q & Hrq & Hid & Hs).
      exists q. split; auto. cbn.
      rewrite (Hreq id r q Hin Hrq).
      apply negb_true_iff in Hdue. rewrite Hdue. reflexivity.
  - reflexivity.
  - reflexivity.
  - reflexivity.
  - reflexivity.
  - intros id r q Hin Hrq. cbn. apply Hreq; auto.
Qed.

(** Ticks that come before the request is overdue leave it pending. *)
Lemma sweep_keeps n : forall start w t tbl id r q,
  sweeping w t tbl ->
  (id, r) ∈ tbl ->
  requests w !! r = Some q ->
  (0 <= interval_time w)%Z ->
  (start + Z.of_nat n * interval_time w - req_timestamp q <= __requestTimeout w)%Z ->
  exists w' tbl',
    sweep env start n w = Ok tt w'
    /\ sweeping w' t tbl'
    /\ (id, r) ∈ tbl'
    /\ requests w' !! r = Some q
    /\ __requestTimeout w' = __requestTimeout w
    /\ interval_time w' = interval_time w.
Proof.
  induction n as [|n IH]; intros start w t tbl id r q Hs Hin Hrq Hper Hle.
  - exists w, tbl.
    split; [reflexivity|]. split; [exact Hs|]. split; [exact Hin|]. split; [exact Hrq|].
    split; reflexivity.
  - destruct (tick_run (start + interval_time w) w t tbl Hs)
      as (w1 & Ht & Hs1 & Hc1 & Hto1 & Hp1 & _ & Hq1).
    assert (Hnd : overdue w (start + interval_time w) (__requestTimeout w) r = false).
    { unfold overdue. rewrite Hrq, Z.gtb_ltb. apply Z.ltb_ge. nia. }
    specialize (Hq1 id r q Hin Hrq). cbn in Hq1. rewrite Hnd in Hq1.
    destruct (IH (start + interval_time w)%Z w1 t _ id r q Hs1)
      as (w' & tbl' & Hsw & Hs' & Hin' & Hrq' & Hto' & Hp'); auto.
    + apply list_elem_of_In, filter_In. split; [apply list_elem_of_In; auto|].
      cbn. rewrite Hnd. reflexivity.
    + rewrite Hp1. auto.
    + rewrite Hp1, Hto1. lia.
    + exists w', tbl'.
      split; [cbn [sweep]; unfold bind, gets; rewrite Ht; exact Hsw|].
      split; [exact Hs'|]. split; [exact Hin'|]. split; [exact Hrq'|].
      split; congruence.
Qed.

Lemma tick_rejects now w t tbl id r q :
  sweeping w t tbl ->
  (id, r) ∈ tbl ->
  requests w !! r = Some q ->
  (now - req_timestamp q > __requestTimeout w)%Z ->
  let err := new_error env TimeoutError VUndefined in
  exists w',
    tick env now w = Ok tt w'
    /\ dict_get id (table_of t w') = None
    /\ requests w' !! r = Some (settled_as (Rejected err) q)
    /\ EReject r err ∈ trace w'
    /\ clock w' = now.
Proof.
  intros Hs Hin Hrq Hgt err.
  destruct (tick_run now w t tbl Hs) as (w' & Htick & Hs' & Hc & _ & _ & Htr & Hq).
  assert (Hdue : overdue w now (__requestTimeout w) r = true).
  { unfold overdue. rewrite Hrq, Z.gtb_ltb. apply Z.ltb_lt. lia. }
  specialize (Hq id r q Hin Hrq). cbn in Hq. rewrite Hdue in Hq.
  destruct Hs as (_ & _ & Hk & _ & _).
  destruct Hs' as (_ & Ht' & _).
  exists w'. split; [exact Htick|]. split; [|split; [exact Hq|split; [|exact Hc]]].
  - rewrite (table_of_lookup t _ w' Ht').
    destruct (dict_get id _) as [r'|] eqn:Hg; auto.
    exfalso. apply dict_get_In, filter_In in Hg as [Hin' Hnd].
    apply list_elem_of_In in Hin'.
    assert ((id, r') = (id, r)) by (eapply NoDup_fst_inj; eauto).
    cbn in Hnd. replace r' with r in Hnd by congruence.
    rewrite Hdue in Hnd. discriminate.
  - rewrite Htr. apply elem_of_app. right.
    apply list_elem_of_fmap. exists (id, r). split; auto.
    apply list_elem_of_In, filter_In. split; [apply list_elem_of_In; auto|exact Hdue].
Qed.

(** The first tick after the request has become overdue rejects it. *)
Lemma sweep_rejects n : forall start w t tbl id r q,
  sweeping w t tbl ->
  (id, r) ∈ tbl ->
  requests w !! r = Some q ->
  (0 <= interval_time w)%Z ->
  (start + Z.of_nat n * interval_time w - req_timestamp q <= __requestTimeout w)%Z ->
  (start + (Z.of_nat n + 1) * interval_time w - req_timestamp q > __requestTimeout w)%Z ->
  let err := new_error env TimeoutError VUndefined in
  exists w',
    sweep env start (S n) w = Ok tt w'
    /\ dict_get id (table_of t w') = None
    /\ requests w' !! r = Some (settled_as (Rejected err) q)
    /\ EReject r err ∈ trace w'
    /\ clock w' = (start + (Z.of_nat n + 1) * interval_time w)%Z.
Proof.
  induction n as [|n IH]; intros start w t tbl id r q Hs Hin Hrq Hper Hle Hgt err.
  - destruct (tick_rejects (start + interval_time w) w t tbl id r q Hs Hin Hrq)
      as (w' & Htick & Hg & Hq & Htr & Hc).
    { change (Z.of_nat 0) with 0%Z in Hgt. lia. }
    exists w'. split; [|split; [exact Hg|split; [exact Hq|split; [exact Htr|]]]].
    + cbn [sweep]. unfold bind, gets. rewrite Htick. reflexivity.
    + rewrite Hc. change (Z.of_nat 0) with 0%Z. lia.
  - destruct (tick_run (start + interval_time w) w t tbl Hs)
      as (w1 & Ht & Hs1 & Hc1 & Hto1 & Hp1 & _ & Hq1).
    assert (Hnd : overdue w (start + interval_time w) (__requestTimeout w) r = false).
    { unfold overdue. rewrite Hrq, Z.gtb_ltb. apply Z.ltb_ge. nia. }
    specialize (Hq1 id r q Hin Hrq). cbn in Hq1. rewrite Hnd in Hq1.
    destruct (IH (start + interval_time w)%Z w1 t _ id r q Hs1)
      as (w' & Hsw & Hg & Hq & Htr & Hc); auto.
    + apply list_elem_of_In, filter_In. split; [apply list_elem_of_In; auto|].
      cbn. rewrite Hnd. reflexivity.
    + rewrite Hp1. auto.
    + rewrite Hp1, Hto1. lia.
    + rewrite Hp1, Hto1. lia.
    + exists w'. split; [|split; [exact Hg|split; [exact Hq|split; [exact Htr|]]]].
      * change (sweep env start (S (S n)) w)
          with (bind (gets interval_time)
                  (fun period => bind (tick env (start + period))
                                   (fun _ => sweep env (start + period) (S n))) w).
        unfold bind, gets. rewrite Ht. exact Hsw.
      * rewrite Hc, Hp1. lia.
Qed.

(** C3.  On an open socket, one run of the sweep rejects with a Timeout
    error, and removes from the table, exactly the entries whose age (the
    current time minus their creation time) exceeds [requestTimeout]; every
    other entry stays, its request untouched.  So when the interval ticks
    every [cleanup] milliseconds from a time [start] at which a pending
    request was not yet overdue (as is a request created after [start], the
    timeout not being negative) and its response never arrives, there is a
    tick that rejects it, the request is still pending after the tick
    before, and that tick comes later than [timeout] after the request was
    created and no later than [timeout + cleanup] after. *)
Theorem sweep_times_out w t tbl :
  sweeping w t tbl ->
  let timeout := __requestTimeout w in
  let period := interval_time w in
  let err := VError TimeoutError (error_text env TimeoutError VUndefined) VUndefined in
  (let due := fun e : string * nat => overdue w (clock w) timeout e.2 in
   exists w',
     __cleanup env w = Ok tt w'
     /\ table_of t w' = List.filter (fun e => negb (due e)) tbl
     /\ trace w' = trace w ++ map (fun e => EReject e.2 err) (List.filter due tbl)
     /\ forall id r q, (id, r) ∈ tbl -> requests w !! r = Some q ->
          requests w' !! r = Some (if due (id, r) then settled_as (Rejected err) q else q))
  /\ forall id r q start,
       (id, r) ∈ tbl ->
       requests w !! r = Some q ->
       (0 < period)%Z ->
       (start - req_timestamp q <= timeout)%Z ->
       exists n w_before w_after,
         sweep env start n w = Ok tt w_before
         /\ dict_get id (table_of t w_before) = Some r
         /\ requests w_before !! r = Some q
         /\ sweep env start (S n) w = Ok tt w_after
         /\ dict_get id (table_of t w_after) = None
         /\ requests w_after !! r = Some (settled_as (Rejected err) q)
         /\ EReject r err ∈ trace w_after
         /\ clock w_after = (start + (Z.of_nat n + 1) * period)%Z
         /\ (req_timestamp q + timeout < clock w_after
             <= req_timestamp q + timeout + period)%Z.
Proof.
  intros Hs timeout period err. split.
  - intros due. destruct Hs as (Hp & Ht & Hwf).
    pose proof (cleanup_run w t tbl Hp Ht Hwf) as Hc. cbn zeta in Hc.
    destruct Hwf as (Hk & Hr & Hq).
    eexists. split; [exact Hc|]. split; [|split].
    + unfold table_of. cbn. rewrite list_lookup_insert_eq by (eapply lookup_lt_Some; eauto).
      reflexivity.
    + reflexivity.
    + intros id r q Hin Hrq. cbn.
      apply (lookup_swept due err tbl (requests w) id r q); auto.
  - intros id r q start Hin Hrq Hper Hnot.
    set (ts := req_timestamp q) in *.
    set (k := ((ts + timeout - start) / period)%Z).
    assert (Hk0 : (0 <= k)%Z) by (apply Z.div_pos; lia).
    assert (Hk1 : (k * period <= ts + timeout - start)%Z).
    { unfold k. rewrite Z.mul_comm. apply Z.mul_div_le. lia. }
    assert (Hk2 : (ts + timeout - start < (k + 1) * period)%Z).
    { unfold k. rewrite Z.mul_comm. replace (k + 1)%Z with (Z.succ k) by lia.
      apply Z.mul_succ_div_gt. lia. }
    destruct (sweep_keeps (Z.to_nat k) start w t tbl id r q Hs Hin Hrq)
      as (w1 & tbl1 & Hsw & Hs1 & Hin1 & Hrq1 & _).
    { fold period. lia. }
    { rewrite Z2Nat.id by lia. fold period ts timeout. lia. }
    destruct (sweep_rejects (Z.to_nat k) start w t tbl id r q Hs Hin Hrq)
      as (w2 & Hsw2 & Hg2 & Hq2 & Htr2 & Hc2).
    { fold period. lia. }
    { rewrite Z2Nat.id by lia. fold period ts timeout. lia. }
    { rewrite Z2Nat.id by lia. fold period ts timeout. lia. }
    destruct Hs1 as (_ & Ht1 & Hk1' & _ & _).
    exists (Z.to_nat k), w1, w2.
    split; [exact Hsw|]. split.
    { rewrite (table_of_lookup t tbl1) by auto. apply dict_get_elem; auto. }
    split; [exact Hrq1|]. split; [exact Hsw2|]. split; [exact Hg2|].
    split; [exact Hq2|]. split; [exact Htr2|]. split; [exact Hc2|].
    rewrite Hc2, Z2Nat.id by lia. fold period. lia.
Qed.

End Sweep.

Lemma sweep_times_out_witness :
  sweeping one_pending 0 [("id-3", 0)]
  /\ exists n w_after,
       sweep quiet_env 0 (S n) one_pending = Ok tt w_after
       /\ dict_get "id-3" (table_of 0 w_after) = None
       /\ (0 + 60000 < clock w_after <= 0 + 60000 + 60000)%Z.
Proof.
  assert (Hs : sweeping one_pending 0 [("id-3", 0)]).
  { split; [reflexivity|]. split; [reflexivity|].
    split; [apply NoDup_singleton|]. split; [apply NoDup_singleton|].
    intros id r H. apply list_elem_of_singleton in H. injection H as -> ->.
    exists ping. repeat split. }
  split; [exact Hs|].
  destruct (sweep_times_out quiet_env one_pending 0 [("id-3", 0)] Hs) as [_ Hlate].
  destruct (Hlate "id-3" 0 ping 0%Z) as (n & wb & wa & _ & _ & _ & Hrun & Hgone & _ & _ & _ & Hwhen).
  - apply list_elem_of_singleton. reflexivity.
  - reflexivity.
  - reflexivity.
  - discriminate.
  - exists n, wa. split; [exact Hrun|]. split; [exact Hgone|]. exact Hwhen.
Defined.

(** ** Inbound requests and outbound responses *)

Section Responses.
Variable env : Env.

(** C7.  Every response goes out through [__sendResponse], as one send on
    the responses sub-channel of the four values path, id, error, payload.
    When the error supplied is an Error, the error position carries its
    message text, a string and not the object, and the payload position
    carries [null] (the object itself is kept for a deferred [error]
    event); when none is supplied, the error position is empty and the
    payload is the one given. *)
Theorem sendResponse_wire_shape path id err payload w :
  t_disposed w = false ->
  let channel := sub_channel (__channel w) RESPONSES in
  let error := if isError err then VStr (message_of err) else err in
  let data := if truthy err then VNull else payload in
  let timer := if isError err then [ESetTimeout "error" [VEvent (VStr "error") err]] else [] in
  __sendResponse env path id err payload w =
    output_send env channel [path; id; error; data]
      (set_trace (trace w ++ timer ++ [EOutputSend channel [path; id; error; data]]) w)
  /\ (isError err = true -> error = VStr (message_of err) /\ data = VNull)
  /\ (err = VUndefined -> error = VUndefined /\ data = payload).
Proof.
  intros Hd channel error data timer. split; [|split].
  - apply sendResponse_run. exact Hd.
  - intros He. subst error data. rewrite He. destruct err; try discriminate. auto.
  - intros ->. auto.
Qed.

(** C4.  When the listener of the requests sub-channel is called with a
    message (path, id, payload) and no handler is registered on the bus for
    that path, the Socket makes exactly one send, at once: on the responses
    sub-channel, of the path, the id, the message text of a NotFound error
    built from that path, and [null]. *)
Theorem request_without_handler l sender data w :
  tl_subscriber l = HandleRequest ->
  t_disposed w = false ->
  listeners_of (BUS_REQUESTS env +:+ "/" +:+ toString (at_ data 0)) w = [] ->
  let path := at_ data 0 in
  let id := at_ data 1 in
  let err := VError NotFoundError (error_text env NotFoundError path) path in
  let channel := sub_channel (__channel w) RESPONSES in
  let response := [path; id; VStr (message_of err); VNull] in
  TListener_call env l (sender :: data) w =
    output_send env channel response
      (set_trace (trace w ++ [ESetTimeout "error" [VEvent (VStr "error") err];
                              EOutputSend channel response]) w).
Proof.
  intros Hl Hd Hnone path id err channel response.
  unfold TListener_call. rewrite Hl. cbn [call_subscriber tail].
  unfold __handleRequest, __hasHandler, bind, gets.
  fold path. fold id.
  assert (Hh : match dict_get (BUS_REQUESTS env +:+ "/" +:+ toString path) (bus_events w) with
               | Some handlers => bool_decide (0 < length handlers)
               | None => false
               end = false).
  { unfold listeners_of in Hnone. fold path in Hnone.
    destruct (dict_get _ (bus_events w)) as [hs|]; [|reflexivity].
    cbn in Hnone. subst hs. reflexivity. }
  rewrite Hh.
  exact (sendResponse_run env path id (new_error env NotFoundError path) VUndefined w Hd).
Qed.

End Responses.

Lemma sendResponse_wire_shape_witness :
  __sendResponse quiet_env (VStr "sum") (VStr "id-9") (VError Error_ "boom" VUndefined) (VNum 3)
    opened
  = Ok tt (set_trace (trace opened
                      ++ [ESetTimeout "error" [VEvent (VStr "error") (VError Error_ "boom" VUndefined)];
                          EOutputSend "ch:responses" [VStr "sum"; VStr "id-9"; VStr "boom"; VNull]])
             opened).
Proof.
  destruct (sendResponse_wire_shape quiet_env (VStr "sum") (VStr "id-9")
              (VError Error_ "boom" VUndefined) (VNum 3) opened) as [Hrun _].
  - reflexivity.
  - exact Hrun.
Defined.

Lemma request_without_handler_witness :
  TListener_call quiet_env {| tl_fn := 1; tl_subscriber := HandleRequest |}
    [VObj 0; VStr "sum"; VStr "id-9"; VNum 3] opened
  = Ok tt (set_trace (trace opened
                      ++ [ESetTimeout "error"
                            [VEvent (VStr "error") (VError NotFoundError "NotFoundError" (VStr "sum"))];
                          EOutputSend "ch:responses"
                            [VStr "sum"; VStr "id-9"; VStr "NotFoundError"; VNull]])
             opened).
Proof.
  apply (request_without_handler quiet_env {| tl_fn := 1; tl_subscriber := HandleRequest |}
           (VObj 0) [VStr "sum"; VStr "id-9"; VNum 3] opened).
  - reflexivity.
  - reflexivity.
  - reflexivity.
Defined.

(** ** Inbound responses *)

Section Inbound.
Variable env : Env.


End Inbound.



(** ** request *)

Section Request.
Variable env : Env.

(** C6.  [request(path, payload)] on an open socket creates the request,
    files it in the table and calls the transport's send (in the world
    [w1]).  When that send throws [e], leaving the world [w2]: if the
    request has not settled by then, it is rejected with an
    UnhandledException error that wraps [e] and the entry under its id is
    deleted from the table; if it has settled, nothing is changed; in both
    cases [e] is then published as an [error] event on the bus, and the
    call returns the promise of that request. *)
Theorem request_send_failure w path payload t e w2 q2 :
  s_disposed w = false ->
  __isOpen w = true ->
  (path =? "")%string = false ->
  __pendingRequests w = Some t ->
  let r := length (requests w) in
  let id := nanoid env (nanoid_count w) in
  let w1 :=
    set_tables (<[t := dict_set id r (table_of t w)]> (tables w))
      (set_requests (requests w ++ [{| req_id := id; req_timestamp := clock w;
                                       req_settled := None |}])
         (set_nanoid_count (S (nanoid_count w)) w)) in
  Transport_send env (sub_channel (__channel w) REQUESTS) [VStr path; VStr id; payload] w1
    = Throw e w2 ->
  requests w2 !! r = Some q2 ->
  let err := VError UnhandledExceptionError (error_text env UnhandledExceptionError e) e in
  exists w3,
    request env path payload w
      = Ok r (world_of (bus_emit env "error" [VEvent (VStr "error") e] w3))
    /\ (req_settled q2 = None ->
          requests w3 !! r = Some (settled_as (Rejected err) q2)
          /\ dict_get (req_id q2) (table_of t w3) = None
          /\ trace w3 = trace w2 ++ [EReject r err])
    /\ (req_settled q2 <> None -> w3 = w2).
Proof.
  intros Hd Ho Hpath Hp r id w1 Hsend Hq2 err.
  assert (Hrun : forall w3,
    request_catch env t r e w2 = bus_emit env "error" [VEvent (VStr "error") e] w3 ->
    request env path payload w
      = Ok r (world_of (bus_emit env "error" [VEvent (VStr "error") e] w3))).
  { intros w3 Hc.
    unfold request, protect_socket, assert, requires, bind, gets, ret.
    rewrite Hd, Ho, Hpath.
    unfold request_executor, OutboundRequest_new, nanoid_next, Date_now, bind, gets, modify, ret.
    cbn -[request_catch bus_emit Transport_send]. rewrite Hp.
    unfold try_catch, bind, OutboundRequest_id, gets, table_set, modify.
    cbn -[request_catch bus_emit Transport_send].
    rewrite lookup_app_r by lia. rewrite Nat.sub_diag.
    cbn -[request_catch bus_emit Transport_send].
    fold r. fold id. change (set_tables _ _) with w1. rewrite Hsend. rewrite Hc.
    destruct (bus_emit env "error" _ w3) as [[] w4|e4 w4]; reflexivity. }
  destruct (req_settled q2) as [s|] eqn:Hs.
  - exists w2. split; [|split].
    + apply Hrun.
      unfold request_catch, bind, OutboundRequest_isDisposed, gets. rewrite Hq2, Hs.
      reflexivity.
    + intros; discriminate.
    + reflexivity.
  - eexists. split; [|split].
    + apply Hrun.
      unfold request_catch, bind, OutboundRequest_isDisposed, gets. rewrite Hq2, Hs.
      cbn -[OutboundRequest_reject OutboundRequest_id table_delete bus_emit].
      unfold OutboundRequest_reject. rewrite (settle_run r _ q2) by auto.
      unfold OutboundRequest_id, gets.
      cbn -[table_delete bus_emit mark].
      rewrite (lookup_mark_eq _ _ _ q2) by auto.
      cbn -[bus_emit mark]. reflexivity.
    + intros _. cbn. split; [|split].
      * apply lookup_mark_eq; auto.
      * unfold table_of. cbn.
        destruct (decide (t < length (tables w2))) as [Hlt|Hge].
        -- rewrite list_lookup_insert_eq by auto. cbn. apply dict_get_delete_eq.
        -- rewrite list_insert_ge by lia.
           rewrite (proj2 (lookup_ge_None (tables w2) t)) by lia. reflexivity.
      * reflexivity.
    + intros H. congruence.
Qed.

End Request.

Lemma request_send_failure_witness :
  exists w3,
    request failing_env "ping" VNull opened
      = Ok 0 (world_of (bus_emit failing_env "error" [VEvent (VStr "error") broken_pipe] w3))
    /\ requests w3 !! 0
       = Some (settled_as
                 (Rejected (VError UnhandledExceptionError "UnhandledExceptionError" broken_pipe))
                 ping)
    /\ dict_get "id-3" (table_of 0 w3) = None.
Proof.
  edestruct (request_send_failure failing_env opened "ping" VNull 0 broken_pipe)
    as (w3 & Hrun & Hunsettled & _).
  - reflexivity.
  - reflexivity.
  - reflexivity.
  - reflexivity.
  - reflexivity.
  - reflexivity.
  - destruct Hunsettled as (Hq & Hgone & _); [reflexivity|].
    exists w3. split; [exact Hrun|]. split; [exact Hq|exact Hgone].
Defined.

(** The other branch of C6 is met: with an output that delivers the answer
    before its [send] throws, the request has resolved by the time the
    exception is caught; it is not rejected, and the table is empty. *)
Example request_settled_during_send :
  exists w',
    request loopback_env "ping" VNull opened = Ok 0 w'
    /\ requests w' !! 0 = Some (settled_as (Resolved (VStr "pong")) ping)
    /\ trace w' = trace opened ++ [EOutputSend "ch:requests" [VStr "ping"; VStr "id-3"; VNull];
                                   EResolve 0 (VStr "pong")]
    /\ table_of 0 w' = [].
Proof.
  eexists. split; [vm_compute; reflexivity|]. repeat split.
Qed.

(** ** Once-listeners *)

Section Once.
Variable env : Env.

Lemma emit_plain h args L : forall w,
  Forall (plain_listener env h) L ->
  exists tr,
    forEach L (fun cb => call_listener env cb args) w = Ok tt (set_trace (trace w ++ tr) w)
    /\ invocations h tr = 0.
Proof.
  induction L as [|l L IH]; intros w HL.
  - exists []. split; auto. cbn. unfold ret. rewrite app_nil_r. world_eq w.
  - apply Forall_cons in HL as [(h' & -> & Hne & Hq) HL].
    destruct (Hq args (set_trace (trace w ++ [EInvoke h' args]) w)) as (v & Hv).
    destruct (IH (set_trace (trace w ++ [EInvoke h' args]) w) HL) as (tr & Hrun & Hcount).
    exists (EInvoke h' args :: tr). split.
    + cbn [forEach call_listener]. unfold call_user, log, modify, bind. cbv beta iota.
      rewrite Hv. unfold ret. rewrite Hrun. cbn. rewrite <- app_assoc. reflexivity.
    + unfold invocations in *. cbn.
      destruct (Nat.eqb_spec h h'); [congruence|]. exact Hcount.
Qed.

Lemma filter_plain h cell inner L :
  Forall (plain_listener env h) L ->
  filter (fun i => i <> LOnce cell inner) (L ++ [LOnce cell inner]) = L.
Proof.
  intros HL. rewrite filter_app.
  rewrite filter_cons_False by (intros H; apply H; reflexivity).
  rewrite filter_nil, app_nil_r.
  induction L as [|l L IH]; auto.
  apply Forall_cons in HL as [(h' & -> & _) HL].
  rewrite filter_cons_True by discriminate. rewrite IH; auto.
Qed.

(** Two deliveries made one after the other.  A handler registered with
    [onEvent(name, handler, true)] that returns without calling back into
    the Socket is invoked exactly once by them: once by the first, with
    its event, and not at all by the second, the once-listener having left
    the bus.  (The other listeners of the event are taken to be plain ones
    of other such handlers.) *)
Lemma once_handler_back_to_back w name h p1 p2 :
  let key := BUS_EVENTS env +:+ "/" +:+ name in
  quiet env h ->
  Forall (plain_listener env h) (listeners_of key w) ->
  exists w1 w2 w3,
    onEvent env name h true w = Ok (OnceCancel (length (cells w))) w1
    /\ __handleEvent env [VStr name; p1] w1 = Ok tt w2
    /\ __handleEvent env [VStr name; p2] w2 = Ok tt w3
    /\ invocations h (trace w2) = S (invocations h (trace w))
    /\ invocations h (trace w3) = S (invocations h (trace w))
    /\ EInvoke h [VEvent (VStr name) p1] ∈ trace w2
    /\ listeners_of key w3 = listeners_of key w.
Proof.
  intros key Hq HL.
  set (L := listeners_of key w) in *.
  set (c := length (cells w)).
  set (once := LOnce c (LUser h)).
  set (ev1 := VEvent (VStr name) p1).
  set (ev2 := VEvent (VStr name) p2).
  (* registration *)
  pose (w1 := set_cells (<[c := Some (key, once)]> (cells w ++ [None]))
                (set_bus_events (dict_set key (L ++ [once]) (bus_events w)) w)).
  assert (H1 : onEvent env name h true w = Ok (OnceCancel c) w1).
  { unfold onEvent, __subscribe, bus_on, write_cell, bind, gets, modify, ret. cbn.
    fold key. fold L. fold c. fold once. reflexivity. }
  assert (Hcell1 : cells w1 !! c = Some (Some (key, once))).
  { cbn. apply list_lookup_insert_eq. rewrite length_app. cbn. unfold c. lia. }
  assert (HL1 : dict_get key (bus_events w1) = Some (L ++ [once])).
  { cbn. apply dict_get_set_eq. }
  (* first delivery *)
  destruct (emit_plain h [ev1] L w1 HL) as (tr1 & Hrun1 & Hc1).
  pose (wa := set_trace (trace w1 ++ tr1) w1).
  destruct (Hq [ev1] (set_trace (trace wa ++ [EInvoke h [ev1]]) wa)) as (v1 & Hv1).
  pose (w2 := set_cells (<[c := None]> (cells w1))
                (set_bus_events (dict_set key L (bus_events w1))
                   (set_trace (trace wa ++ [EInvoke h [ev1]]) wa))).
  assert (Honce : call_listener env once [ev1] wa = Ok tt w2).
  { unfold once. cbn [call_listener]. unfold bind, read_cell, gets.
    change (cells wa) with (cells w1). rewrite Hcell1. cbn [default from_option id].
    unfold call_user, log, modify, bind. change (at_ [ev1] 0) with ev1. cbv beta iota.
    rewrite Hv1. unfold ret. cbv beta iota.
    change (cells (set_trace _ wa)) with (cells w1). rewrite Hcell1. cbn [default from_option id].
    unfold bus_unbind, write_cell, modify.
    change (bus_events (set_trace _ wa)) with (bus_events w1). rewrite HL1.
    pose proof (filter_plain h c (LUser h) L HL) as Hf. fold once in Hf.
    cbv beta iota. rewrite Hf. reflexivity. }
  assert (H2 : __handleEvent env [VStr name; p1] w1 = Ok tt w2).
  { unfold __handleEvent, try_catch, bus_emit, bind, gets.
    change (toString (at_ [VStr name; p1] 0)) with name. fold key.
    change (VEvent (at_ [VStr name; p1] 0) (at_ [VStr name; p1] 1)) with ev1.
    unfold listeners_of. rewrite HL1. cbn [default from_option id].
    assert (E : forEach (L ++ [once]) (fun cb => call_listener env cb [ev1]) w1 = Ok tt w2).
    { rewrite forEach_app, Hrun1. cbn [forEach]. unfold bind. fold wa.
      rewrite Honce. reflexivity. }
    rewrite E. reflexivity. }
  (* second delivery *)
  assert (HL2 : dict_get key (bus_events w2) = Some L).
  { cbn. apply dict_get_set_eq. }
  destruct (emit_plain h [ev2] L w2 HL) as (tr2 & Hrun2 & Hc2).
  pose (w3 := set_trace (trace w2 ++ tr2) w2).
  assert (H3 : __handleEvent env [VStr name; p2] w2 = Ok tt w3).
  { unfold __handleEvent, try_catch, bus_emit, bind, gets.
    change (toString (at_ [VStr name; p2] 0)) with name. fold key.
    change (VEvent (at_ [VStr name; p2] 0) (at_ [VStr name; p2] 1)) with ev2.
    unfold listeners_of. rewrite HL2. cbn [default from_option id].
    rewrite Hrun2. reflexivity. }
  assert (Ht2 : invocations h (trace w2) = S (invocations h (trace w))).
  { change (trace w2) with ((trace w ++ tr1) ++ [EInvoke h [ev1]]).
    rewrite !invocations_app, Hc1. unfold invocations at 2. cbn.
    rewrite Nat.eqb_refl. cbn. lia. }
  exists w1, w2, w3.
  split; [exact H1|]. split; [exact H2|]. split; [exact H3|].
  split; [exact Ht2|]. split; [|split].
  - change (trace w3) with (trace w2 ++ tr2). rewrite invocations_app, Ht2, Hc2. lia.
  - cbn. apply elem_of_app. right. apply list_elem_of_singleton. reflexivity.
  - unfold listeners_of. change (bus_events w3) with (bus_events w2). rewrite HL2. reflexivity.
Qed.

End Once.

Lemma once_handler_back_to_back_witness :
  exists w1 w2 w3,
    onEvent quiet_env "tick" 7 true opened = Ok (OnceCancel 0) w1
    /\ __handleEvent quiet_env [VStr "tick"; VNum 1] w1 = Ok tt w2
    /\ __handleEvent quiet_env [VStr "tick"; VNum 2] w2 = Ok tt w3
    /\ invocations 7 (trace w3) = 1.
Proof.
  destruct (once_handler_back_to_back quiet_env opened "tick" 7 (VNum 1) (VNum 2))
    as (w1 & w2 & w3 & H1 & H2 & H3 & _ & Hcount & _).
  - intros args w. exists VUndefined. reflexivity.
  - apply Forall_nil. exact I.
  - exists w1, w2, w3. split; [exact H1|]. split; [exact H2|]. split; [exact H3|exact Hcount].
Defined.

(** C8, evaluated where the code breaks it.  An error handler 9 and, with
    [onEvent("tick", handler, true)], the handler 7 are registered; the
    first time the handler 7 is called it makes the input deliver "tick"
    again before it returns.  One delivery from outside then invokes the
    handler twice: the second delivery finds the once-listener still on
    the bus and its [unbind] still set, both being cleared only after the
    handler has returned.  Back in the first delivery, [unbind] is
    [undefined] when it is called, and the TypeError reaches the error
    handler. *)
Theorem once_handler_reentrant :
  exists w0 w1 w2,
    onError 9 false opened = Ok (Unbind "error" (LUser 9)) w0
    /\ onEvent reentrant_env "tick" 7 true w0 = Ok (OnceCancel 0) w1
    /\ TListener_call reentrant_env {| tl_fn := 0; tl_subscriber := HandleEvent |}
         [VObj 0; VStr "tick"; VNull] w1 = Ok tt w2
    /\ trace w2
       = trace opened
         ++ [EInvoke 7 [VEvent (VStr "tick") VNull];
             EInvoke 7 [VEvent (VStr "tick") VNull];
             EInvoke 9 [VEvent (VStr "error")
                          (VError TypeError "unbind is not a function" VUndefined)]]
    /\ invocations 7 (trace w2) = 2.
Proof.
  eexists. eexists. eexists. split; [vm_compute; reflexivity|].
  split; [vm_compute; reflexivity|].
  split; [vm_compute; reflexivity|]. split; reflexivity.
Qed.

(** ** Transport.on *)

Section TransportOn.
Variable env : Env.

(** C9, as the code has it.  [Transport.on(channel, subscriber)] registers
    on the input, for that channel, a listener that hands the subscriber,
    as one list, the arguments of an emission after the first (the leading
    argument is dropped); it files the listener under the id [nanoid()]
    has just returned and returns the cancel function bound to that id,
    which, called with no argument, removes the entry and the listener. *)
Theorem Transport_on_listener channel subscriber l w :
  t_disposed w = false ->
  (channel =? "")%string = false ->
  __listeners w = Some l ->
  let listener := {| tl_fn := fresh_fn w; tl_subscriber := subscriber |} in
  let id := nanoid env (nanoid_count w) in
  exists w',
    Transport_on env channel subscriber w = Ok (Unsubscribe id) w'
    /\ __listeners w' = Some (dict_set id (channel, listener) l)
    /\ trace w' = trace w ++ [EInputOn channel listener]
    /\ (forall emission w1,
          TListener_call env listener emission w1
          = call_subscriber env subscriber (tail emission) w1)
    /\ exists w'',
        cancel (Unsubscribe id) w' = Ok tt w''
        /\ __listeners w'' = Some (dict_delete id (dict_set id (channel, listener) l))
        /\ trace w'' = trace w' ++ [EInputRemoveListener channel listener].
Proof.
  intros Hd Hc Hl listener id.
  eexists. split; [|split; [|split; [|split]]].
  - unfold Transport_on, protect_transport, requires, bind, gets, new_function, nanoid_next,
      log, modify, ret, bind, gets.
    rewrite Hd, Hc, Hl. cbn. rewrite Hl. reflexivity.
  - reflexivity.
  - reflexivity.
  - reflexivity.
  - eexists. split; [|split].
    + unfold cancel, Transport_unsubscribe, bind, gets. cbn.
      rewrite dict_get_set_eq. cbn. reflexivity.
    + reflexivity.
    + reflexivity.
Qed.

End TransportOn.

Lemma Transport_on_listener_witness :
  exists w',
    Transport_on quiet_env "ch:events" (UserSubscriber 5) blank = Ok (Unsubscribe "id-0") w'
    /\ __listeners w'
       = Some [("id-0", ("ch:events", {| tl_fn := 0; tl_subscriber := UserSubscriber 5 |}))].
Proof.
  destruct (Transport_on_listener quiet_env "ch:events" (UserSubscriber 5) [] blank)
    as (w' & Hrun & Hls & _).
  - reflexivity.
  - reflexivity.
  - reflexivity.
  - exists w'. split; [exact Hrun|exact Hls].
Defined.

(** C9, as stated, fails: called by the input with the arguments
    (sender, "tick", null), the listener hands the subscriber the list
    ("tick", null), not the list of the arguments of the emission. *)
Lemma listener_drops_first_argument :
  let emission := [VObj 0; VStr "tick"; VNull] in
  exists w',
    TListener_call quiet_env {| tl_fn := 0; tl_subscriber := UserSubscriber 5 |} emission blank
      = Ok tt w'
    /\ trace w' = [EInvoke 5 [VArr [VStr "tick"; VNull]]]
    /\ trace w' <> [EInvoke 5 [VArr emission]].
Proof.
  eexists. split; [vm_compute; reflexivity|]. split; [reflexivity|]. discriminate.
Qed.

(** ** The constructor *)

Section Constructor.
Variable env : Env.

(** C10.  A Socket constructed with [timeout: 0] uses 60000 ms as its
    request timeout, and one constructed with [cleanup: 0] uses 60000 ms as
    the period of its sweep: the values it uses when the option is
    absent. *)
Theorem constructor_zero_durations transport settings w :
  Socket_constructor env transport settings = inr w ->
  (timeout settings = Some 0%Z -> __requestTimeout w = 60000%Z)
  /\ (cleanup settings = Some 0%Z -> interval_time w = 60000%Z)
  /\ (timeout settings = None -> __requestTimeout w = 60000%Z)
  /\ (cleanup settings = None -> interval_time w = 60000%Z).
Proof.
  intros H.
  assert (Hw : __requestTimeout w = or_else (timeout settings) (1000 * 60)
               /\ interval_time w = or_else (cleanup settings) (1000 * 60)).
  { unfold Socket_constructor in H.
    destruct transport as [|d ls|c]; try discriminate.
    - injection H as <-. split; reflexivity.
    - destruct (Transport_constructor env (Some c) None); try discriminate.
      injection H as <-. split; reflexivity. }
  destruct Hw as [-> ->].
  repeat split; intros ->; reflexivity.
Qed.

End Constructor.

Lemma constructor_zero_durations_witness :
  Socket_constructor quiet_env (RawEndpoint endpoint) {| timeout := Some 0%Z; cleanup := Some 0%Z |}
    = inr blank
  /\ __requestTimeout blank = 60000%Z
  /\ interval_time blank = 60000%Z.
Proof.
  assert (H : Socket_constructor quiet_env (RawEndpoint endpoint)
                {| timeout := Some 0%Z; cleanup := Some 0%Z |} = inr blank) by reflexivity.
  destruct (constructor_zero_durations quiet_env _ _ _ H) as (Ht & Hc & _).
  split; [exact H|]. split; [apply Ht|apply Hc]; reflexivity.
Defined.

(** * Further properties *)

(** ** More on dictionaries *)

Section DictMore.
Context {A : Type}.
Implicit Types (d : list (string * A)) (k : string).

Lemma dict_get_set_ne k k' a d : k <> k' -> dict_get k (dict_set k' a d) = dict_get k d.
Proof.
  intros Hne. induction d as [|[k0 a0] d IH]; cbn.
  - destruct (String.eqb_spec k k'); congruence.
  - destruct (String.eqb_spec k' k0); cbn.
    + subst. destruct (String.eqb_spec k k0); congruence.
    + destruct (String.eqb_spec k k0); auto.
Qed.

Lemma dict_delete_notin k d : k ∉ dict_keys d -> dict_delete k d = d.
Proof.
  induction d as [|[k0 a0] d IH]; cbn; intros Hn; auto.
  destruct (String.eqb_spec k k0) as [->|].
  - exfalso. apply Hn. left.
  - f_equal. apply IH. intros H. apply Hn. right. exact H.
Qed.

Lemma dict_delete_set_eq k a d : dict_delete k (dict_set k a d) = dict_delete k d.
Proof.
  induction d as [|[k0 a0] d IH]; cbn.
  - rewrite String.eqb_refl. reflexivity.
  - destruct (String.eqb k k0) eqn:E; cbn; rewrite E; auto. congruence.
Qed.

Lemma dict_delete_set_ne k k' a d :
  k <> k' -> dict_delete k (dict_set k' a d) = dict_set k' a (dict_delete k d).
Proof.
  intros Hne. induction d as [|[k0 a0] d IH]; cbn.
  - destruct (String.eqb_spec k k'); congruence.
  - destruct (String.eqb_spec k' k0) as [->|]; cbn.
    + destruct (String.eqb_spec k k0); [congruence|]. cbn. rewrite String.eqb_refl. reflexivity.
    + destruct (String.eqb_spec k k0); auto. cbn.
      destruct (String.eqb_spec k' k0); [congruence|]. congruence.
Qed.

(** A key that was absent is gone again once it is deleted. *)
Lemma dict_delete_set_fresh k a d : k ∉ dict_keys d -> dict_delete k (dict_set k a d) = d.
Proof. intros H. rewrite dict_delete_set_eq. apply dict_delete_notin. exact H. Qed.

Lemma dict_keys_delete k d : k ∉ dict_keys (dict_delete k d).
Proof.
  induction d as [|[k0 a0] d IH]; cbn.
  - intros H. inversion H.
  - destruct (String.eqb_spec k k0); auto. cbn.
    intros H. apply elem_of_cons in H as [H|H]; [congruence|]. apply IH, H.
Qed.

Lemma dict_set_fresh k a d : k ∉ dict_keys d -> dict_set k a d = d ++ [(k, a)].
Proof.
  induction d as [|[k0 a0] d IH]; cbn; intros Hn; auto.
  destruct (String.eqb_spec k k0) as [->|].
  - exfalso. apply Hn. left.
  - f_equal. apply IH. intros H. apply Hn. right. exact H.
Qed.

Lemma dict_set_same k a d : dict_get k d = Some a -> dict_set k a d = d.
Proof.
  induction d as [|[k0 a0] d IH]; cbn; [discriminate|].
  destruct (String.eqb_spec k k0) as [->|]; intros H.
  - congruence.
  - f_equal. auto.
Qed.

End DictMore.

Lemma sub_name_nonempty (c s : string) : ((c +:+ ":" +:+ s) =? "")%string = false.
Proof. destruct c; reflexivity. Qed.

Lemma set_bus_events_same w : set_bus_events (bus_events w) w = w.
Proof. destruct w; reflexivity. Qed.

Lemma filter_users (x : Listener) hs :
  (forall h, x <> LUser h) ->
  filter (fun i => i <> x) (map LUser hs) = map LUser hs.
Proof.
  intros Hx. induction hs as [|h hs IH]; [reflexivity|].
  cbn [map]. rewrite filter_cons_True by (intros E; exact (Hx h (eq_sym E))).
  rewrite IH. reflexivity.
Qed.

Lemma filter_LUser h hs :
  filter (fun i => i <> LUser h) (map LUser hs) = map LUser (filter (fun h' => h' <> h) hs).
Proof.
  induction hs as [|h' hs IH]; [reflexivity|]. cbn [map].
  destruct (decide (h' = h)) as [->|Hne].
  - rewrite filter_cons_False by (intros H; apply H; reflexivity).
    rewrite filter_cons_False by (intros H; apply H; reflexivity). exact IH.
  - rewrite filter_cons_True by congruence.
    rewrite filter_cons_True by exact Hne. cbn [map]. rewrite IH. reflexivity.
Qed.

Lemma isError_truthy v : isError v = true -> truthy v = true.
Proof. destruct v; cbn; congruence. Qed.

(** ** Calls in the wrong state *)

Section Guards.
Variable env : Env.

(** X1.  On a socket that is not disposed, [open] while open fails with a
    SocketOpen error and [close] while closed fails with a SocketClosed
    error; either way nothing has been done: no subscription, no timer, no
    event. *)
Theorem lifecycle_misuse w :
  s_disposed w = false ->
  (__isOpen w = true ->
   forall channel,
     open env channel w
     = Throw (VError SocketOpenError (error_text env SocketOpenError VUndefined) VUndefined) w)
  /\ (__isOpen w = false ->
      close env w
      = Throw (VError SocketClosedError (error_text env SocketClosedError VUndefined) VUndefined) w).
Proof.
  intros Hd. split; intros Ho.
  - intros channel. unfold open, protect_socket, assert, bind, gets, ret, throw. rewrite Hd; cbv beta iota. rewrite Ho. reflexivity.
  - unfold close, protect_socket, assert, bind, gets, ret, throw. rewrite Hd; cbv beta iota; rewrite Ho. reflexivity.
Qed.

(** X2.  [send] on a socket that is not disposed: closed, it fails with a
    SocketClosed error and nothing is sent; open, with an event name that
    is not empty and a live Transport, it makes exactly one send, on the
    events sub-channel of the open channel, of the name and the payload. *)
Theorem send_cases w event payload :
  s_disposed w = false ->
  (__isOpen w = false ->
   send env event payload w
   = Throw (VError SocketClosedError (error_text env SocketClosedError VUndefined) VUndefined) w)
  /\ (__isOpen w = true -> event <> "" -> t_disposed w = false ->
      let channel := sub_channel (__channel w) EVENTS in
      send env event payload w
      = output_send env channel [VStr event; payload]
          (set_trace (trace w ++ [EOutputSend channel [VStr event; payload]]) w)).
Proof.
  intros Hd. split.
  - intros Ho. unfold send, protect_socket, assert, bind, gets, ret, throw. rewrite Hd; cbv beta iota; rewrite Ho. reflexivity.
  - intros Ho Hne Ht channel.
    unfold send, protect_socket, assert, requires, bind, gets, ret, throw.
    rewrite Hd; cbv beta iota; rewrite Ho; cbv beta iota.
    destruct (String.eqb_spec event ""); [congruence|].
    apply Transport_send_run; auto. apply sub_channel_nonempty.
Qed.

(** X3.  The body of [request], on a closed socket that is not disposed,
    fails with a SocketClosed error (so the promise of this async method
    rejects), whatever the path and the payload are: no request object has
    been created, no id drawn, nothing is filed and nothing is sent. *)
Theorem request_guards w path payload :
  s_disposed w = false ->
  __isOpen w = false ->
  request env path payload w
  = Throw (VError SocketClosedError (error_text env SocketClosedError VUndefined) VUndefined) w.
Proof.
  intros Hd Ho. unfold request, protect_socket, assert, bind, gets, ret, throw.
  rewrite Hd; cbv beta iota; rewrite Ho. reflexivity.
Qed.

End Guards.

Lemma lifecycle_misuse_witness :
  open quiet_env "again" opened
    = Throw (VError SocketOpenError "SocketOpenError" VUndefined) opened
  /\ close quiet_env blank
    = Throw (VError SocketClosedError "SocketClosedError" VUndefined) blank.
Proof.
  destruct (lifecycle_misuse quiet_env opened) as [Hopen _]; [vm_compute; reflexivity|].
  destruct (lifecycle_misuse quiet_env blank) as [_ Hclose]; [vm_compute; reflexivity|].
  split; [apply Hopen|apply Hclose]; vm_compute; reflexivity.
Defined.

Lemma send_cases_witness :
  send quiet_env "hello" (VNum 1) blank
    = Throw (VError SocketClosedError "SocketClosedError" VUndefined) blank
  /\ send quiet_env "hello" (VNum 1) opened
    = Ok tt (set_trace (trace opened ++ [EOutputSend "ch:events" [VStr "hello"; VNum 1]]) opened).
Proof.
  destruct (send_cases quiet_env blank "hello" (VNum 1)) as (Hclosed & _);
    [vm_compute; reflexivity|].
  destruct (send_cases quiet_env opened "hello" (VNum 1)) as (_ & Hsend);
    [vm_compute; reflexivity|].
  split.
  - apply Hclosed; vm_compute; reflexivity.
  - rewrite Hsend; [reflexivity|vm_compute; reflexivity|discriminate|vm_compute; reflexivity].
Defined.

Lemma request_guards_witness :
  request quiet_env "ping" VNull blank
  = Throw (VError SocketClosedError "SocketClosedError" VUndefined) blank.
Proof. apply (request_guards quiet_env blank "ping" VNull); vm_compute; reflexivity. Defined.

(** ** The Transport's bookkeeping *)

Section TransportFacts.
Variable env : Env.

Lemma Transport_on_run channel subscriber w :
  t_disposed w = false ->
  (channel =? "")%string = false ->
  __listeners w <> None ->
  Transport_on env channel subscriber w
  = Ok (Unsubscribe (nanoid env (nanoid_count w))) (registered env w channel subscriber).
Proof.
  intros Hd Hc Hl.
  unfold Transport_on, protect_transport, requires, bind, gets, new_function, nanoid_next,
    log, modify, ret, throw.
  rewrite Hd, Hc. destruct (__listeners w) eqn:El; [|congruence]. reflexivity.
Qed.

(** The loop of [dispose] over the keys of the listener table. *)
Lemma forEach_unsubscribe d : forall w,
  __listeners w = Some d ->
  NoDup (dict_keys d) ->
  forEach (dict_keys d) Transport_unsubscribe w
  = Ok tt (set_listeners (Some []) (set_trace (trace w ++ map remove_effect d) w)).
Proof.
  induction d as [|[k [ch fn]] d IH]; intros w Hl Hnd.
  - cbn. unfold ret. rewrite app_nil_r. world_eq w.
  - cbn in Hnd. apply NoDup_cons in Hnd as [Hn Hnd].
    cbn [dict_keys map fst forEach]. unfold bind at 1.
    unfold Transport_unsubscribe at 1. unfold bind, gets, log, modify.
    rewrite Hl. cbn [dict_get]. rewrite String.eqb_refl. cbv beta iota.
    change (__listeners (set_trace _ w)) with (__listeners w). rewrite Hl.
    cbn [option_map dict_delete]. rewrite String.eqb_refl.
    rewrite (dict_delete_notin k d) by exact Hn.
    change (map fst d) with (dict_keys d).
    rewrite IH; [|reflexivity|exact Hnd].
    cbn. rewrite <- app_assoc. reflexivity.
Qed.

(** X4.  [Transport.dispose()] on a Transport whose table holds the
    entries [d] removes every one of them from the input, once each and in
    the order they were registered, and drops the table; a later [on] fails
    with a Disposed error. *)
Theorem Transport_dispose_unsubscribes d w :
  __listeners w = Some d ->
  NoDup (dict_keys d) ->
  exists w',
    Transport_dispose w = Ok tt w'
    /\ trace w' = trace w ++ map remove_effect d
    /\ __listeners w' = None
    /\ t_disposed w' = true
    /\ forall channel subscriber,
         Transport_on env channel subscriber w'
         = Throw (VError DisposedError (error_text env DisposedError (VStr "Transport"))
                    (VStr "Transport")) w'.
Proof.
  intros Hl Hnd.
  eexists. split; [|split; [|split; [|split]]].
  - unfold Transport_dispose, bind, modify, gets. cbv beta iota.
    change (__listeners (set_t_disposed true w)) with (__listeners w). rewrite Hl.
    rewrite (forEach_unsubscribe d) by (auto; exact Hl). reflexivity.
  - reflexivity.
  - reflexivity.
  - reflexivity.
  - intros channel subscriber. reflexivity.
Qed.

Lemma unsubscribe_run id l w :
  __listeners w = Some l ->
  Transport_unsubscribe id w
  = Ok tt (set_listeners (Some (dict_delete id l))
             (set_trace (trace w ++ match dict_get id l with
                                    | Some (channel, fn) => [EInputRemoveListener channel fn]
                                    | None => []
                                    end) w)).
Proof.
  intros Hl. unfold Transport_unsubscribe, bind, gets, log, modify, ret. rewrite Hl.
  destruct (dict_get id l) as [[ch fn]|]; cbv beta iota.
  - change (__listeners (set_trace _ w)) with (__listeners w). rewrite Hl. reflexivity.
  - rewrite Hl, app_nil_r. cbn. world_eq w.
Qed.

(** X5.  Calling a cancel function of the Transport a second time changes
    nothing: no second [removeListener], the table as the first call left
    it. *)
Theorem unsubscribe_twice id w w' :
  cancel (Unsubscribe id) w = Ok tt w' ->
  cancel (Unsubscribe id) w' = Ok tt w'.
Proof.
  cbn [cancel]. destruct (__listeners w) as [l|] eqn:Hl.
  - rewrite (unsubscribe_run id l w Hl). intros H. injection H as <-.
    rewrite (unsubscribe_run id (dict_delete id l)) by reflexivity.
    rewrite dict_get_delete_eq, app_nil_r.
    rewrite (dict_delete_notin id (dict_delete id l)) by apply dict_keys_delete.
    cbn. reflexivity.
  - unfold Transport_unsubscribe, bind, gets, ret. rewrite Hl. intros H. injection H as <-.
    rewrite Hl. reflexivity.
Qed.

End TransportFacts.

Lemma Transport_dispose_unsubscribes_witness :
  exists w',
    Transport_dispose opened = Ok tt w'
    /\ trace w'
       = trace opened
         ++ [EInputRemoveListener "ch:events" {| tl_fn := 0; tl_subscriber := HandleEvent |};
             EInputRemoveListener "ch:requests" {| tl_fn := 1; tl_subscriber := HandleRequest |};
             EInputRemoveListener "ch:responses" {| tl_fn := 2; tl_subscriber := HandleResponse |}]
    /\ __listeners w' = None.
Proof.
  destruct (Transport_dispose_unsubscribes quiet_env
              [("id-0", ("ch:events", {| tl_fn := 0; tl_subscriber := HandleEvent |}));
               ("id-1", ("ch:requests", {| tl_fn := 1; tl_subscriber := HandleRequest |}));
               ("id-2", ("ch:responses", {| tl_fn := 2; tl_subscriber := HandleResponse |}))]
              opened)
    as (w' & Hrun & Htrace & Hl & _).
  - vm_compute. reflexivity.
  - apply (bool_decide_unpack _). vm_compute. exact I.
  - exists w'. split; [exact Hrun|]. split; [exact Htrace|exact Hl].
Defined.

Lemma unsubscribe_twice_witness :
  cancel (Unsubscribe "id-0") (run opened (cancel (Unsubscribe "id-0")))
  = Ok tt (run opened (cancel (Unsubscribe "id-0"))).
Proof.
  apply (unsubscribe_twice "id-0" opened (run opened (cancel (Unsubscribe "id-0")))).
  vm_compute. reflexivity.
Defined.

(** ** open, and close after it *)

Section OpenClose.
Variable env : Env.

Lemma open_run w channel :
  s_disposed w = false ->
  __isOpen w = false ->
  t_disposed w = false ->
  __listeners w <> None ->
  open env channel w = bus_emit env "open" [VEvent (VStr "open") VUndefined] (opening env w channel).
Proof.
  intros Hd Ho Ht Hl.
  unfold open, protect_socket, assert, bind, gets, ret, throw.
  rewrite Hd; cbv beta iota; rewrite Ho; cbn [negb]; cbv beta iota.
  rewrite Transport_on_run; [|exact Ht|apply sub_name_nonempty|exact Hl].
  cbv beta iota.
  rewrite Transport_on_run; [|exact Ht|apply sub_name_nonempty|].
  2:{ cbn. destruct (__listeners w); [discriminate|congruence]. }
  cbv beta iota.
  rewrite Transport_on_run; [|exact Ht|apply sub_name_nonempty|].
  2:{ cbn. destruct (__listeners w); [discriminate|congruence]. }
  unfold interval_start, log, table_new, modify, bind, gets, ret. cbv beta iota.
  apply (f_equal (bus_emit env "open" _)). unfold opening, registered. wsimp. reflexivity.
Qed.

Lemma opening_trace w channel :
  trace (opening env w channel)
  = trace w ++ [EInputOn (channel +:+ ":events") {| tl_fn := fresh_fn w; tl_subscriber := HandleEvent |};
                EInputOn (channel +:+ ":requests")
                  {| tl_fn := S (fresh_fn w); tl_subscriber := HandleRequest |};
                EInputOn (channel +:+ ":responses")
                  {| tl_fn := S (S (fresh_fn w)); tl_subscriber := HandleResponse |};
                EIntervalStart].
Proof. unfold opening, registered. wsimp. rewrite <- !app_assoc. reflexivity. Qed.

Lemma opening_listeners w channel l :
  __listeners w = Some l ->
  __listeners (opening env w channel)
  = Some (dict_set (nanoid env (S (S (nanoid_count w))))
            (channel +:+ ":responses",
             {| tl_fn := S (S (fresh_fn w)); tl_subscriber := HandleResponse |})
            (dict_set (nanoid env (S (nanoid_count w)))
               (channel +:+ ":requests",
                {| tl_fn := S (fresh_fn w); tl_subscriber := HandleRequest |})
               (dict_set (nanoid env (nanoid_count w))
                  (channel +:+ ":events",
                   {| tl_fn := fresh_fn w; tl_subscriber := HandleEvent |}) l))).
Proof. intros Hl. unfold opening, registered. wsimp. rewrite Hl. reflexivity. Qed.

Lemma opening_fields w channel :
  let w1 := opening env w channel in
  __subscriptions w1 = Some [Unsubscribe (nanoid env (nanoid_count w));
                             Unsubscribe (nanoid env (S (nanoid_count w)));
                             Unsubscribe (nanoid env (S (S (nanoid_count w))))]
  /\ __isOpen w1 = true
  /\ __channel w1 = Some channel
  /\ interval_running w1 = true
  /\ __pendingRequests w1 = Some (length (tables w))
  /\ tables w1 = tables w ++ [[]]
  /\ s_disposed w1 = s_disposed w
  /\ bus_events w1 = bus_events w
  /\ t_disposed w1 = t_disposed w.
Proof. unfold opening, registered. wsimp. repeat split. Qed.

(** X6.  [open(channel)] on a closed socket over a live Transport registers
    three listeners with the input, on [channel:events], [channel:requests]
    and [channel:responses] in this order, files them under three fresh
    ids, keeps their cancel functions, marks the socket open on that
    channel, installs a new empty pending-request table and starts the
    interval, all before the [open] event is published. *)
Theorem open_subscribes w channel l :
  s_disposed w = false ->
  __isOpen w = false ->
  t_disposed w = false ->
  __listeners w = Some l ->
  let n := nanoid_count w in
  let f := fresh_fn w in
  let on_events := {| tl_fn := f; tl_subscriber := HandleEvent |} in
  let on_requests := {| tl_fn := S f; tl_subscriber := HandleRequest |} in
  let on_responses := {| tl_fn := S (S f); tl_subscriber := HandleResponse |} in
  exists w1,
    open env channel w = bus_emit env "open" [VEvent (VStr "open") VUndefined] w1
    /\ trace w1 = trace w ++ [EInputOn (channel +:+ ":events") on_events;
                              EInputOn (channel +:+ ":requests") on_requests;
                              EInputOn (channel +:+ ":responses") on_responses;
                              EIntervalStart]
    /\ __listeners w1
       = Some (dict_set (nanoid env (S (S n))) (channel +:+ ":responses", on_responses)
                 (dict_set (nanoid env (S n)) (channel +:+ ":requests", on_requests)
                    (dict_set (nanoid env n) (channel +:+ ":events", on_events) l)))
    /\ __subscriptions w1 = Some [Unsubscribe (nanoid env n); Unsubscribe (nanoid env (S n));
                                  Unsubscribe (nanoid env (S (S n)))]
    /\ __isOpen w1 = true
    /\ __channel w1 = Some channel
    /\ interval_running w1 = true
    /\ __pendingRequests w1 = Some (length (tables w))
    /\ tables w1 !! length (tables w) = Some [].
Proof.
  intros Hd Ho Ht Hl n f e1 e2 e3.
  exists (opening env w channel).
  destruct (opening_fields w channel) as (Hs & Hi & Hc & Hr & Hp & Htb & _).
  split; [apply open_run; auto; congruence|].
  split; [apply opening_trace|].
  split; [apply opening_listeners, Hl|].
  split; [exact Hs|]. split; [exact Hi|]. split; [exact Hc|]. split; [exact Hr|].
  split; [exact Hp|]. rewrite Htb. apply list_lookup_middle. reflexivity.
Qed.

Lemma bus_emit_nobody event args w :
  listeners_of event w = [] -> bus_emit env event args w = Ok tt w.
Proof. intros H. unfold bus_emit, bind, gets. rewrite H. reflexivity. Qed.

(** [close] on a socket whose three transport subscriptions are the last
    entries of the listener table and that has nothing pending. *)
Lemma close_unsubscribes w1 t l i1 i2 i3 a1 a2 a3 :
  s_disposed w1 = false ->
  __isOpen w1 = true ->
  __subscriptions w1 = Some [Unsubscribe i1; Unsubscribe i2; Unsubscribe i3] ->
  __listeners w1 = Some (dict_set i3 a3 (dict_set i2 a2 (dict_set i1 a1 l))) ->
  __pendingRequests w1 = Some t ->
  table_of t w1 = [] ->
  listeners_of "close" w1 = [] ->
  i1 <> i2 -> i1 <> i3 -> i2 <> i3 ->
  i1 ∉ dict_keys l -> i2 ∉ dict_keys l -> i3 ∉ dict_keys l ->
  close env w1
  = Ok tt (set_listeners (Some l)
             (set_trace (trace w1 ++ [EIntervalStop;
                                      EInputRemoveListener a1.1 a1.2;
                                      EInputRemoveListener a2.1 a2.2;
                                      EInputRemoveListener a3.1 a3.2])
                (set_interval_running false (set_channel None (set_isOpen false w1))))).
Proof.
  intros Hd1 Ho1 Hs1 Hl1 Hp1 Ht1 Hb1 N12 N13 N23 H1 H2 H3.
  remember (set_trace
              (trace (set_interval_running false (set_channel None (set_isOpen false w1)))
               ++ [EIntervalStop])
              (set_interval_running false (set_channel None (set_isOpen false w1)))) as wa eqn:Ea.
  assert (Hla : __listeners wa = Some (dict_set i3 a3 (dict_set i2 a2 (dict_set i1 a1 l))))
    by (subst wa; exact Hl1).
  assert (Hsa : __subscriptions wa = Some [Unsubscribe i1; Unsubscribe i2; Unsubscribe i3])
    by (subst wa; exact Hs1).
  remember (set_listeners (Some l)
              (set_trace (trace wa ++ [EInputRemoveListener a1.1 a1.2;
                                       EInputRemoveListener a2.1 a2.2;
                                       EInputRemoveListener a3.1 a3.2]) wa)) as wb eqn:Eb.
  assert (Hcancel : forEach [Unsubscribe i1; Unsubscribe i2; Unsubscribe i3] cancel wa = Ok tt wb).
  { cbn [forEach cancel]. unfold bind.
    rewrite (unsubscribe_run i1 _ wa Hla).
    rewrite dict_get_set_ne, dict_get_set_ne, dict_get_set_eq by auto.
    rewrite dict_delete_set_ne, dict_delete_set_ne, dict_delete_set_fresh by auto.
    erewrite (unsubscribe_run i2); [|reflexivity].
    rewrite dict_get_set_ne, dict_get_set_eq by auto.
    rewrite dict_delete_set_ne, dict_delete_set_fresh by auto.
    erewrite (unsubscribe_run i3); [|reflexivity].
    rewrite dict_get_set_eq.
    rewrite dict_delete_set_fresh by auto.
    unfold ret. subst wb. destruct a1, a2, a3. wsimp. rewrite <- !app_assoc. reflexivity. }
  assert (Hpb : __pendingRequests wb = Some t) by (subst wb wa; exact Hp1).
  assert (Htb : table_of t wb = []) by (subst wb wa; exact Ht1).
  assert (Hbb : listeners_of "close" wb = []) by (subst wb wa; exact Hb1).
  unfold close, protect_socket, assert, interval_stop, log, table_keys, bind, gets, modify,
    ret, throw.
  rewrite Hd1; cbv beta iota; rewrite Ho1; cbv beta iota.
  rewrite <- Ea, Hsa, Hcancel. cbv beta iota.
  rewrite Hpb. unfold gets. rewrite Htb. cbn [dict_keys map forEach]. unfold ret.
  rewrite (bus_emit_nobody _ _ _ Hbb). f_equal.
  subst wb wa. wsimp. rewrite <- !app_assoc. reflexivity.
Qed.

(** X7.  [open] followed by [close], with nobody listening to the [open]
    and [close] events and three ids that are new: [close] stops the
    interval and removes from the input exactly the three listeners [open]
    registered, in the same order, and the Transport's table is again what
    it was before [open]. *)
Theorem open_then_close w channel l :
  s_disposed w = false ->
  __isOpen w = false ->
  t_disposed w = false ->
  __listeners w = Some l ->
  listeners_of "open" w = [] ->
  listeners_of "close" w = [] ->
  let n := nanoid_count w in
  NoDup [nanoid env n; nanoid env (S n); nanoid env (S (S n))] ->
  (forall i, i < 3 -> nanoid env (n + i) ∉ dict_keys l) ->
  let f := fresh_fn w in
  let on_events := {| tl_fn := f; tl_subscriber := HandleEvent |} in
  let on_requests := {| tl_fn := S f; tl_subscriber := HandleRequest |} in
  let on_responses := {| tl_fn := S (S f); tl_subscriber := HandleResponse |} in
  exists w1 w2,
    open env channel w = Ok tt w1
    /\ close env w1 = Ok tt w2
    /\ trace w2 = trace w1 ++ [EIntervalStop;
                               EInputRemoveListener (channel +:+ ":events") on_events;
                               EInputRemoveListener (channel +:+ ":requests") on_requests;
                               EInputRemoveListener (channel +:+ ":responses") on_responses]
    /\ __listeners w2 = Some l
    /\ __isOpen w2 = false
    /\ __channel w2 = None
    /\ interval_running w2 = false.
Proof.
  intros Hd Ho Ht Hl Hopen Hclose n Hnd Hfresh f e1 e2 e3.
  assert (H1 : nanoid env n ∉ dict_keys l)
    by (specialize (Hfresh 0); rewrite Nat.add_0_r in Hfresh; auto).
  assert (H2 : nanoid env (S n) ∉ dict_keys l).
  { specialize (Hfresh 1). replace (n + 1) with (S n) in Hfresh by lia. auto. }
  assert (H3 : nanoid env (S (S n)) ∉ dict_keys l).
  { specialize (Hfresh 2). replace (n + 2) with (S (S n)) in Hfresh by lia. auto. }
  apply NoDup_cons in Hnd as [N1 Hnd]. apply NoDup_cons in Hnd as [N2 _].
  assert (N12 : nanoid env n <> nanoid env (S n)) by (intros E; apply N1; rewrite E; left).
  assert (N13 : nanoid env n <> nanoid env (S (S n)))
    by (intros E; apply N1; rewrite E; right; left).
  assert (N23 : nanoid env (S n) <> nanoid env (S (S n)))
    by (intros E; apply N2; rewrite E; left).
  destruct (opening_fields w channel) as (Hs & Hi & Hc & Hr & Hp & Htb & Hsd & Hbus & _).
  pose proof (opening_listeners w channel l Hl) as Hl1.
  remember (opening env w channel) as w1 eqn:E1.
  assert (Hrun : open env channel w = Ok tt w1).
  { rewrite open_run by (auto; congruence). rewrite <- E1.
    apply bus_emit_nobody. unfold listeners_of. rewrite Hbus. exact Hopen. }
  assert (Ht1 : table_of (length (tables w)) w1 = []).
  { unfold table_of. rewrite Htb, list_lookup_middle by reflexivity. reflexivity. }
  assert (Hb1 : listeners_of "close" w1 = []).
  { unfold listeners_of. rewrite Hbus. exact Hclose. }
  eexists w1, _. split; [exact Hrun|]. split.
  - eapply close_unsubscribes; eauto; congruence.
  - wsimp. repeat split.
Qed.

End OpenClose.

Lemma open_subscribes_witness :
  exists w1,
    open quiet_env "ch" blank = bus_emit quiet_env "open" [VEvent (VStr "open") VUndefined] w1
    /\ trace w1 = [EInputOn "ch:events" {| tl_fn := 0; tl_subscriber := HandleEvent |};
                   EInputOn "ch:requests" {| tl_fn := 1; tl_subscriber := HandleRequest |};
                   EInputOn "ch:responses" {| tl_fn := 2; tl_subscriber := HandleResponse |};
                   EIntervalStart]
    /\ __isOpen w1 = true.
Proof.
  destruct (open_subscribes quiet_env blank "ch" []) as (w1 & Hrun & Htrace & _ & _ & Hopen & _);
    try (vm_compute; reflexivity).
  exists w1. split; [exact Hrun|]. split; [exact Htrace|exact Hopen].
Defined.

Lemma open_then_close_witness :
  exists w1 w2,
    open quiet_env "ch" blank = Ok tt w1
    /\ close quiet_env w1 = Ok tt w2
    /\ __listeners w2 = Some []
    /\ __isOpen w2 = false.
Proof.
  destruct (open_then_close quiet_env blank "ch" [])
    as (w1 & w2 & Hopen & Hclose & _ & Hl & Hc & _); try (vm_compute; reflexivity).
  - apply (bool_decide_unpack _). vm_compute. exact I.
  - intros i _. apply not_elem_of_nil.
  - exists w1, w2. split; [exact Hopen|]. split; [exact Hclose|]. split; [exact Hl|exact Hc].
Defined.

(** ** Answering a request *)

Section Responder.
Variable env : Env.

(** The body of [__responder] up to the handler's answer. *)
Lemma responder_run h id req w :
  __responder env h (VArr [id; req]) w
  = try_catch
      (fun w0 =>
         match user env h [req] (set_trace (trace w0 ++ [EInvoke h [req]]) w0) with
         | Ok out w' =>
             (if negb (isPromise out) then
                if negb (isError out) then __sendResponse env (path_of req) id VUndefined out
                else __sendResponse env (path_of req) id out VUndefined
              else log (EThen out (path_of req) id)) w'
         | Throw e w' => Throw e w'
         end)
      (fun e => __sendResponse env (path_of req) id (new_error env UnhandledExceptionError e)
                  VUndefined) w.
Proof. reflexivity. Qed.

(** X8.  What [__responder] does with what the handler returned, when the
    output takes the message.  A promise: nothing is sent yet, the two
    continuations are attached.  A value that is neither a promise nor an
    Error: one response with an absent error and that value.  An Error
    value: an error event is scheduled and one response goes out with the
    Error's message text and [null]. *)
Theorem responder_outcomes h id req w out w' :
  user env h [req] (set_trace (trace w ++ [EInvoke h [req]]) w) = Ok out w' ->
  t_disposed w' = false ->
  let channel := sub_channel (__channel w') RESPONSES in
  let path := path_of req in
  (isPromise out = true ->
     __responder env h (VArr [id; req]) w
     = Ok tt (set_trace (trace w' ++ [EThen out path id]) w'))
  /\ (isPromise out = false -> isError out = false ->
      forall w'',
        output_send env channel [path; id; VUndefined; out]
          (set_trace (trace w' ++ [EOutputSend channel [path; id; VUndefined; out]]) w')
        = Ok tt w'' ->
        __responder env h (VArr [id; req]) w = Ok tt w'')
  /\ (isError out = true ->
      forall w'',
        output_send env channel [path; id; VStr (message_of out); VNull]
          (set_trace (trace w' ++ [ESetTimeout "error" [VEvent (VStr "error") out];
                                   EOutputSend channel [path; id; VStr (message_of out); VNull]])
             w')
        = Ok tt w'' ->
        __responder env h (VArr [id; req]) w = Ok tt w'').
Proof.
  intros Hu Hd channel path. rewrite responder_run. unfold try_catch. rewrite Hu.
  split; [|split].
  - intros Hp. rewrite Hp. reflexivity.
  - intros Hp He w'' Hs. rewrite Hp, He. cbn [negb].
    rewrite sendResponse_run by exact Hd. cbn [isError truthy app].
    fold channel. fold path. rewrite Hs. reflexivity.
  - intros He w'' Hs.
    assert (Hp : isPromise out = false) by (destruct out; cbn in *; congruence).
    rewrite Hp, He. cbn [negb].
    rewrite sendResponse_run by exact Hd. rewrite He, (isError_truthy _ He). cbn [app].
    fold channel. fold path. rewrite Hs. reflexivity.
Qed.

(** X9.  When the handler throws [e], [__responder] answers with the
    message text of an UnhandledException error built from [e], and
    [null], and schedules an error event for it. *)
Theorem responder_handler_throws h id req w e w' :
  user env h [req] (set_trace (trace w ++ [EInvoke h [req]]) w) = Throw e w' ->
  t_disposed w' = false ->
  let channel := sub_channel (__channel w') RESPONSES in
  let err := VError UnhandledExceptionError (error_text env UnhandledExceptionError e) e in
  let response := [path_of req; id; VStr (error_text env UnhandledExceptionError e); VNull] in
  __responder env h (VArr [id; req]) w
  = output_send env channel response
      (set_trace (trace w' ++ [ESetTimeout "error" [VEvent (VStr "error") err];
                               EOutputSend channel response]) w').
Proof.
  intros Hu Hd channel err response. rewrite responder_run. unfold try_catch. rewrite Hu.
  rewrite sendResponse_run by exact Hd. reflexivity.
Qed.

(** X10.  A send that fails while the answer is on its way out is caught
    by the same [catch] block: a second send is made, of the message text
    of an UnhandledException error built from the failure. *)
Theorem responder_send_fails h id req w out w' e w'' :
  user env h [req] (set_trace (trace w ++ [EInvoke h [req]]) w) = Ok out w' ->
  isPromise out = false ->
  isError out = false ->
  t_disposed w' = false ->
  let channel := sub_channel (__channel w') RESPONSES in
  output_send env channel [path_of req; id; VUndefined; out]
    (set_trace (trace w' ++ [EOutputSend channel [path_of req; id; VUndefined; out]]) w')
  = Throw e w'' ->
  t_disposed w'' = false ->
  let channel' := sub_channel (__channel w'') RESPONSES in
  let err := VError UnhandledExceptionError (error_text env UnhandledExceptionError e) e in
  let response := [path_of req; id; VStr (error_text env UnhandledExceptionError e); VNull] in
  __responder env h (VArr [id; req]) w
  = output_send env channel' response
      (set_trace (trace w'' ++ [ESetTimeout "error" [VEvent (VStr "error") err];
                                EOutputSend channel' response]) w'').
Proof.
  intros Hu Hp He Hd channel Hs Hd' channel' err response.
  rewrite responder_run. unfold try_catch. rewrite Hu, Hp, He. cbn [negb].
  rewrite sendResponse_run by exact Hd. cbn [isError truthy app].
  fold channel. rewrite Hs.
  rewrite sendResponse_run by exact Hd'. reflexivity.
Qed.

(** A handler that returns a plain value: one invocation, one answer. *)
Lemma responder_value h id req out w :
  (forall w', user env h [req] w' = Ok out w') ->
  isPromise out = false -> isError out = false ->
  (forall c args w', output_send env c args w' = Ok tt w') ->
  t_disposed w = false ->
  let channel := sub_channel (__channel w) RESPONSES in
  __responder env h (VArr [id; req]) w
  = Ok tt (set_trace (trace w ++ [EInvoke h [req];
                                  EOutputSend channel [path_of req; id; VUndefined; out]]) w).
Proof.
  intros Hu Hp He Ho Hd channel.
  rewrite responder_run. unfold try_catch. rewrite Hu, Hp, He. cbn [negb].
  rewrite sendResponse_run by exact Hd. rewrite Ho. cbn [isError truthy app].
  f_equal. wsimp. rewrite <- app_assoc. reflexivity.
Qed.

End Responder.

Lemma responder_outcomes_witness :
  __responder quiet_env 1 (VArr [VStr "id-9"; VInboundRequest (VStr "ping") VNull]) opened
  = Ok tt (set_trace
             (trace opened ++ [EInvoke 1 [VInboundRequest (VStr "ping") VNull];
                               EOutputSend "ch:responses"
                                 [VStr "ping"; VStr "id-9"; VUndefined; VUndefined]])
             opened).
Proof.
  destruct (responder_outcomes quiet_env 1 (VStr "id-9") (VInboundRequest (VStr "ping") VNull)
              opened VUndefined
              (set_trace (trace opened ++ [EInvoke 1 [VInboundRequest (VStr "ping") VNull]]) opened))
    as (_ & Hvalue & _); [vm_compute; reflexivity|vm_compute; reflexivity|].
  apply Hvalue; vm_compute; reflexivity.
Defined.

Lemma responder_handler_throws_witness :
  __responder faulty_env 1 (VArr [VStr "id-9"; VInboundRequest (VStr "ping") VNull]) opened
  = Ok tt (set_trace
             (trace opened
              ++ [EInvoke 1 [VInboundRequest (VStr "ping") VNull];
                  ESetTimeout "error"
                    [VEvent (VStr "error")
                       (VError UnhandledExceptionError "UnhandledExceptionError" broken_pipe)];
                  EOutputSend "ch:responses"
                    [VStr "ping"; VStr "id-9"; VStr "UnhandledExceptionError"; VNull]])
             opened).
Proof.
  rewrite (responder_handler_throws faulty_env 1 (VStr "id-9")
             (VInboundRequest (VStr "ping") VNull) opened broken_pipe
             (set_trace (trace opened ++ [EInvoke 1 [VInboundRequest (VStr "ping") VNull]]) opened));
    vm_compute; reflexivity.
Defined.

Lemma responder_send_fails_witness :
  __responder failing_env 1 (VArr [VStr "id-9"; VInboundRequest (VStr "ping") VNull]) opened
  = Throw broken_pipe
      (set_trace
         (trace opened
          ++ [EInvoke 1 [VInboundRequest (VStr "ping") VNull];
              EOutputSend "ch:responses" [VStr "ping"; VStr "id-9"; VUndefined; VUndefined];
              ESetTimeout "error"
                [VEvent (VStr "error")
                   (VError UnhandledExceptionError "UnhandledExceptionError" broken_pipe)];
              EOutputSend "ch:responses"
                [VStr "ping"; VStr "id-9"; VStr "UnhandledExceptionError"; VNull]])
         opened).
Proof.
  rewrite (responder_send_fails failing_env 1 (VStr "id-9")
             (VInboundRequest (VStr "ping") VNull) opened VUndefined
             (set_trace (trace opened ++ [EInvoke 1 [VInboundRequest (VStr "ping") VNull]]) opened)
             broken_pipe
             (set_trace
                (trace opened
                 ++ [EInvoke 1 [VInboundRequest (VStr "ping") VNull];
                     EOutputSend "ch:responses"
                       [VStr "ping"; VStr "id-9"; VUndefined; VUndefined]])
                opened));
    vm_compute; reflexivity.
Defined.

(** ** Handlers on the bus *)

Section Serving.
Variable env : Env.

Lemma onRequest_run path h w :
  let evt := BUS_REQUESTS env +:+ "/" +:+ path in
  let fn := LResponder (fresh_fn w) h in
  onRequest env path h false w
  = Ok (Unbind evt fn)
      (set_bus_events (dict_set evt (listeners_of evt w ++ [fn]) (bus_events w))
         (set_fresh_fn (S (fresh_fn w)) w)).
Proof. reflexivity. Qed.

Lemma handleRequest_run path id payload w :
  let evt := BUS_REQUESTS env +:+ "/" +:+ toString path in
  __handleRequest env [path; id; payload] w
  = match dict_get evt (bus_events w) with
    | Some (l :: ls) =>
        forEach (l :: ls) (fun cb => call_listener env cb [VArr [id; VInboundRequest path payload]]) w
    | _ => __sendResponse env path id (new_error env NotFoundError path) VUndefined w
    end.
Proof.
  intros evt. unfold __handleRequest, __hasHandler, bus_emit, listeners_of, bind, gets.
  cbn [at_ nth]. fold evt.
  destruct (dict_get evt (bus_events w)) as [[|l ls]|] eqn:E; try reflexivity.
  rewrite bool_decide_eq_true_2 by (cbn; lia). cbv beta iota. rewrite E. reflexivity.
Qed.

(** X11.  A handler registered with [onRequest(path, handler)] on a path
    nobody else serves, returning a plain value: an inbound request for the
    path invokes it once, with an InboundRequest of the path and the
    payload, and one response carries its result.  After the cancel
    function that [onRequest] returned has been called, the same request is
    answered with the NotFound message instead, the handler not being
    invoked. *)
Theorem request_served path h id payload out w :
  let evt := BUS_REQUESTS env +:+ "/" +:+ path in
  let req := VInboundRequest (VStr path) payload in
  listeners_of evt w = [] ->
  t_disposed w = false ->
  (forall w', user env h [req] w' = Ok out w') ->
  isPromise out = false ->
  isError out = false ->
  (forall c args w', output_send env c args w' = Ok tt w') ->
  let channel := sub_channel (__channel w) RESPONSES in
  let notfound := VError NotFoundError (error_text env NotFoundError (VStr path)) (VStr path) in
  exists s w1 w2 w3 w4,
    onRequest env path h false w = Ok s w1
    /\ __handleRequest env [VStr path; id; payload] w1 = Ok tt w2
    /\ trace w2 = trace w ++ [EInvoke h [req];
                              EOutputSend channel [VStr path; id; VUndefined; out]]
    /\ cancel s w2 = Ok tt w3
    /\ __handleRequest env [VStr path; id; payload] w3 = Ok tt w4
    /\ trace w4 = trace w2 ++ [ESetTimeout "error" [VEvent (VStr "error") notfound];
                               EOutputSend channel
                                 [VStr path; id; VStr (error_text env NotFoundError (VStr path));
                                  VNull]].
Proof.
  intros evt req HL Hd Hu Hp He Ho channel notfound.
  set (fn := LResponder (fresh_fn w) h).
  remember (set_bus_events (dict_set evt [fn] (bus_events w)) (set_fresh_fn (S (fresh_fn w)) w))
    as w1 eqn:E1.
  assert (H1 : onRequest env path h false w = Ok (Unbind evt fn) w1).
  { rewrite onRequest_run. fold evt. rewrite HL. subst w1. reflexivity. }
  assert (Hb1 : dict_get evt (bus_events w1) = Some [fn]).
  { subst w1. wsimp. apply dict_get_set_eq. }
  assert (Hd1 : t_disposed w1 = false) by (subst w1; exact Hd).
  assert (Hc1 : __channel w1 = __channel w) by (subst w1; reflexivity).
  assert (Ht1 : trace w1 = trace w) by (subst w1; reflexivity).
  remember (set_trace (trace w1 ++ [EInvoke h [req];
                                    EOutputSend channel [VStr path; id; VUndefined; out]]) w1)
    as w2 eqn:E2.
  assert (H2 : __handleRequest env [VStr path; id; payload] w1 = Ok tt w2).
  { rewrite handleRequest_run. cbn [toString]. fold evt. rewrite Hb1.
    cbn [forEach]. unfold bind, fn. cbn [call_listener at_ nth]. fold req.
    rewrite (responder_value env h id req out w1 Hu Hp He Ho Hd1).
    cbn [path_of req]. rewrite Hc1. fold channel. rewrite <- E2. reflexivity. }
  assert (Hb2 : dict_get evt (bus_events w2) = Some [fn]) by (subst w2; exact Hb1).
  remember (set_bus_events (dict_set evt [] (bus_events w2)) w2) as w3 eqn:E3.
  assert (H3 : cancel (Unbind evt fn) w2 = Ok tt w3).
  { cbn [cancel]. unfold bus_unbind, modify. rewrite Hb2.
    rewrite filter_cons_False by (intros H; apply H; reflexivity).
    rewrite filter_nil. subst w3. reflexivity. }
  assert (Hb3 : dict_get evt (bus_events w3) = Some []).
  { subst w3. wsimp. apply dict_get_set_eq. }
  assert (Hd3 : t_disposed w3 = false) by (subst w3 w2; exact Hd1).
  assert (Hc3 : __channel w3 = __channel w) by (subst w3 w2; exact Hc1).
  assert (Ht3 : trace w3 = trace w2) by (subst w3; reflexivity).
  eexists (Unbind evt fn), w1, w2, w3, _.
  split; [exact H1|]. split; [exact H2|].
  split; [subst w2; wsimp; rewrite Ht1; reflexivity|].
  split; [exact H3|]. split.
  - rewrite handleRequest_run. cbn [toString]. fold evt. rewrite Hb3.
    rewrite sendResponse_run by exact Hd3. rewrite Ho. reflexivity.
  - wsimp. rewrite Hc3, Ht3. reflexivity.
Qed.

(** X12.  An inbound event whose handler throws [e]: the handlers
    registered before it have run, those after it are skipped, and [e] is
    published as an [error] event to the error listeners; nothing is thrown
    back at the Transport. *)
Theorem handleEvent_exception name payload hs h rest gs e w :
  let ev := VEvent (VStr name) payload in
  listeners_of (BUS_EVENTS env +:+ "/" +:+ name) w = map LUser hs ++ LUser h :: rest ->
  Forall (quiet env) hs ->
  (forall w', user env h [ev] w' = Throw e w') ->
  listeners_of "error" w = map LUser gs ->
  Forall (quiet env) gs ->
  __handleEvent env [VStr name; payload] w
  = Ok tt (set_trace (trace w ++ map (fun h' => EInvoke h' [ev]) hs
                              ++ [EInvoke h [ev]]
                              ++ map (fun g => EInvoke g [VEvent (VStr "error") e]) gs) w).
Proof.
  intros ev HL Hq Hu HE Hg.
  unfold __handleEvent, try_catch, bus_emit, bind, gets.
  cbn [at_ nth toString]. fold ev. rewrite HL.
  rewrite forEach_app, forEach_users by exact Hq.
  cbn [forEach call_listener]. unfold call_user, log, modify, bind. cbv beta iota.
  rewrite Hu.
  replace (listeners_of "error" _) with (map LUser gs) by (rewrite <- HE; reflexivity).
  rewrite forEach_users by exact Hg.
  f_equal. wsimp. rewrite <- !app_assoc. reflexivity.
Qed.

(** X13.  [onEvent(name, handler)] appends to the listeners of the event:
    a delivery invokes the earlier handlers and then this one, each with
    the Event.  Its cancel function removes every registration of that
    same function for the event, earlier ones included. *)
Theorem event_subscription name h payload hs w :
  let key := BUS_EVENTS env +:+ "/" +:+ name in
  let ev := VEvent (VStr name) payload in
  listeners_of key w = map LUser hs ->
  Forall (quiet env) hs ->
  quiet env h ->
  exists s w1 w2 w3,
    onEvent env name h false w = Ok s w1
    /\ __handleEvent env [VStr name; payload] w1 = Ok tt w2
    /\ trace w2 = trace w ++ map (fun h' => EInvoke h' [ev]) (hs ++ [h])
    /\ cancel s w2 = Ok tt w3
    /\ listeners_of key w3 = map LUser (filter (fun h' => h' <> h) hs).
Proof.
  intros key ev HL Hq Hh.
  remember (set_bus_events (dict_set key (map LUser (hs ++ [h])) (bus_events w)) w) as w1 eqn:E1.
  assert (H1 : onEvent env name h false w = Ok (Unbind key (LUser h)) w1).
  { unfold onEvent, __subscribe, bus_on, bind, modify, ret. cbn [negb]. cbv beta iota.
    fold key. subst w1. rewrite HL, map_app. reflexivity. }
  assert (HL1 : dict_get key (bus_events w1) = Some (map LUser (hs ++ [h]))).
  { subst w1. wsimp. apply dict_get_set_eq. }
  assert (Ht1 : trace w1 = trace w) by (subst w1; reflexivity).
  remember (set_trace (trace w1 ++ map (fun h' => EInvoke h' [ev]) (hs ++ [h])) w1) as w2 eqn:E2.
  assert (H2 : __handleEvent env [VStr name; payload] w1 = Ok tt w2).
  { unfold __handleEvent, try_catch, bus_emit, bind, gets. cbn [at_ nth toString].
    fold key. fold ev. unfold listeners_of. rewrite HL1. cbn [default from_option Datatypes.id].
    rewrite forEach_users by (apply Forall_app; split; [exact Hq|repeat constructor; exact Hh]).
    subst w2. reflexivity. }
  assert (HL2 : dict_get key (bus_events w2) = Some (map LUser (hs ++ [h])))
    by (subst w2; exact HL1).
  exists (Unbind key (LUser h)), w1, w2. eexists.
  split; [exact H1|]. split; [exact H2|].
  split; [subst w2; wsimp; rewrite Ht1; reflexivity|]. split.
  - cbn [cancel]. unfold bus_unbind, modify. rewrite HL2. reflexivity.
  - unfold listeners_of. wsimp. rewrite dict_get_set_eq. cbn [default from_option Datatypes.id].
    rewrite filter_LUser, filter_app. rewrite filter_cons_False by (intros H; apply H; reflexivity).
    rewrite filter_nil, app_nil_r. reflexivity.
Qed.

(** X14.  A once-handler cancelled before any delivery: the listeners of
    the event are what they were, a delivery invokes those only, and
    cancelling again changes nothing. *)
Theorem once_cancelled name h payload hs w :
  let key := BUS_EVENTS env +:+ "/" +:+ name in
  listeners_of key w = map LUser hs ->
  Forall (quiet env) hs ->
  exists s w1 w2,
    onEvent env name h true w = Ok s w1
    /\ cancel s w1 = Ok tt w2
    /\ listeners_of key w2 = map LUser hs
    /\ cancel s w2 = Ok tt w2
    /\ __handleEvent env [VStr name; payload] w2
       = Ok tt (set_trace (trace w ++ map (fun h' => EInvoke h' [VEvent (VStr name) payload]) hs)
                  w2).
Proof.
  intros key HL Hq.
  set (c := length (cells w)).
  set (once := LOnce c (LUser h)).
  remember (set_cells (<[c := Some (key, once)]> (cells w ++ [None]))
              (set_bus_events (dict_set key (map LUser hs ++ [once]) (bus_events w)) w))
    as w1 eqn:E1.
  assert (H1 : onEvent env name h true w = Ok (OnceCancel c) w1).
  { unfold onEvent, __subscribe, bus_on, write_cell, bind, gets, modify, ret. cbn [negb].
    cbv beta iota. fold key. wsimp.
    replace (listeners_of key (set_cells (cells w ++ [None]) w)) with (map LUser hs)
      by (rewrite <- HL; reflexivity).
    fold c. fold once. subst w1. reflexivity. }
  assert (Hcell1 : cells w1 !! c = Some (Some (key, once))).
  { subst w1. wsimp. apply list_lookup_insert_eq. rewrite length_app. cbn. unfold c. lia. }
  assert (HL1 : dict_get key (bus_events w1) = Some (map LUser hs ++ [once])).
  { subst w1. wsimp. apply dict_get_set_eq. }
  assert (Ht1 : trace w1 = trace w) by (subst w1; reflexivity).
  assert (Hf : filter (fun i => i <> once) (map LUser hs ++ [once]) = map LUser hs).
  { rewrite filter_app, filter_users by discriminate.
    rewrite filter_cons_False by (intros H; apply H; reflexivity).
    rewrite filter_nil, app_nil_r. reflexivity. }
  remember (set_bus_events (dict_set key (map LUser hs) (bus_events w1)) w1) as w2 eqn:E2.
  assert (H2 : cancel (OnceCancel c) w1 = Ok tt w2).
  { cbn [cancel]. unfold bind, read_cell, gets. rewrite Hcell1. cbn [default from_option Datatypes.id].
    unfold bus_unbind, modify. rewrite HL1, Hf. subst w2. reflexivity. }
  assert (Hcell2 : cells w2 !! c = Some (Some (key, once))) by (subst w2; exact Hcell1).
  assert (HL2 : dict_get key (bus_events w2) = Some (map LUser hs)).
  { subst w2. wsimp. apply dict_get_set_eq. }
  assert (Ht2 : trace w2 = trace w) by (subst w2; exact Ht1).
  exists (OnceCancel c), w1, w2.
  split; [exact H1|]. split; [exact H2|].
  split; [unfold listeners_of; rewrite HL2; reflexivity|]. split.
  - cbn [cancel]. unfold bind, read_cell, gets. rewrite Hcell2. cbn [default from_option Datatypes.id].
    unfold bus_unbind, modify. rewrite HL2, filter_users by discriminate.
    rewrite (dict_set_same _ _ _ HL2), set_bus_events_same. reflexivity.
  - unfold __handleEvent, try_catch, bus_emit, bind, gets. cbn [at_ nth toString].
    fold key. unfold listeners_of. rewrite HL2. cbn [default from_option Datatypes.id].
    rewrite forEach_users by exact Hq. rewrite Ht2. reflexivity.
Qed.

End Serving.

Lemma request_served_witness :
  exists s w1 w2 w3 w4,
    onRequest quiet_env "ping" 1 false opened = Ok s w1
    /\ __handleRequest quiet_env [VStr "ping"; VStr "id-9"; VNull] w1 = Ok tt w2
    /\ trace w2 = trace opened
                  ++ [EInvoke 1 [VInboundRequest (VStr "ping") VNull];
                      EOutputSend "ch:responses"
                        [VStr "ping"; VStr "id-9"; VUndefined; VUndefined]]
    /\ cancel s w2 = Ok tt w3
    /\ __handleRequest quiet_env [VStr "ping"; VStr "id-9"; VNull] w3 = Ok tt w4
    /\ invocations 1 (trace w4) = 1.
Proof.
  destruct (request_served quiet_env "ping" 1 (VStr "id-9") VNull VUndefined opened)
    as (s & w1 & w2 & w3 & w4 & H1 & H2 & Ht2 & H3 & H4 & Ht4); [vm_compute; reflexivity ..|].
  exists s, w1, w2, w3, w4. split; [exact H1|]. split; [exact H2|]. split; [exact Ht2|].
  split; [exact H3|]. split; [exact H4|]. rewrite Ht4, Ht2. vm_compute. reflexivity.
Defined.

Lemma handleEvent_exception_witness :
  let w := run (run opened (onEvent faulty_env "tick" 1 false)) (onError 2 false) in
  __handleEvent faulty_env [VStr "tick"; VNull] w
  = Ok tt (set_trace (trace w ++ [EInvoke 1 [VEvent (VStr "tick") VNull];
                                  EInvoke 2 [VEvent (VStr "error") broken_pipe]]) w).
Proof.
  intros w.
  apply (handleEvent_exception faulty_env "tick" VNull [] 1 [] [2] broken_pipe w).
  - vm_compute. reflexivity.
  - apply Forall_nil. exact I.
  - intros w'. reflexivity.
  - vm_compute. reflexivity.
  - apply Forall_cons. split; [|apply Forall_nil; exact I].
    intros args w'. exists VUndefined. reflexivity.
Defined.

Lemma event_subscription_witness :
  exists s w1 w2 w3,
    onEvent quiet_env "tick" 7 false opened = Ok s w1
    /\ __handleEvent quiet_env [VStr "tick"; VNull] w1 = Ok tt w2
    /\ trace w2 = trace opened ++ [EInvoke 7 [VEvent (VStr "tick") VNull]]
    /\ cancel s w2 = Ok tt w3
    /\ listeners_of "0.5488135039273248/tick" w3 = [].
Proof.
  destruct (event_subscription quiet_env "tick" 7 VNull [] opened)
    as (s & w1 & w2 & w3 & H1 & H2 & Ht & H3 & HL).
  - vm_compute. reflexivity.
  - apply Forall_nil. exact I.
  - intros args w'. exists VUndefined. reflexivity.
  - exists s, w1, w2, w3. split; [exact H1|]. split; [exact H2|]. split; [exact Ht|].
    split; [exact H3|exact HL].
Defined.

Lemma once_cancelled_witness :
  exists s w1 w2,
    onEvent quiet_env "tick" 7 true opened = Ok s w1
    /\ cancel s w1 = Ok tt w2
    /\ __handleEvent quiet_env [VStr "tick"; VNull] w2 = Ok tt (set_trace (trace opened ++ []) w2).
Proof.
  destruct (once_cancelled quiet_env "tick" 7 VNull [] opened)
    as (s & w1 & w2 & H1 & H2 & _ & _ & H3).
  - vm_compute. reflexivity.
  - apply Forall_nil. exact I.
  - exists s, w1, w2. split; [exact H1|]. split; [exact H2|exact H3].
Defined.

(** ** Requests and their answers *)

Section RoundTrip.
Variable env : Env.

Lemma request_run w t path payload :
  s_disposed w = false ->
  __isOpen w = true ->
  t_disposed w = false ->
  (path =? "")%string = false ->
  __pendingRequests w = Some t ->
  (forall c args w', output_send env c args w' = Ok tt w') ->
  request env path payload w = Ok (length (requests w)) (requested env w t path payload).
Proof.
  intros Hd Ho Ht Hpath Hp Hout.
  unfold request, protect_socket, assert, requires, bind, gets, ret.
  rewrite Hd, Ho, Hpath.
  unfold request_executor, OutboundRequest_new, nanoid_next, Date_now, bind, gets, modify, ret.
  cbn -[Transport_send]. rewrite Hp.
  unfold try_catch, bind, OutboundRequest_id, gets, table_set, modify.
  cbn -[Transport_send].
  rewrite lookup_app_r by lia. rewrite Nat.sub_diag.
  cbn -[Transport_send].
  rewrite Transport_send_run by (auto using sub_channel_nonempty).
  rewrite Hout. reflexivity.
Qed.

(** X15.  A request and its answer.  On an open socket whose output takes
    the message, [request(path, payload)] makes one send on the requests
    sub-channel, of the path, a fresh id and the payload, and files the
    request under that id as the last entry of the table.  A response for
    that id with no error then resolves the request with the payload of the
    response, and the table is again what it was before the request. *)
Theorem request_response_roundtrip w t tbl path payload answer :
  s_disposed w = false ->
  __isOpen w = true ->
  t_disposed w = false ->
  (path =? "")%string = false ->
  __pendingRequests w = Some t ->
  tables w !! t = Some tbl ->
  nanoid env (nanoid_count w) ∉ dict_keys tbl ->
  (forall c args w', output_send env c args w' = Ok tt w') ->
  let id := nanoid env (nanoid_count w) in
  let r := length (requests w) in
  exists w1 w2,
    request env path payload w = Ok r w1
    /\ trace w1 = trace w ++ [EOutputSend (sub_channel (__channel w) REQUESTS)
                                [VStr path; VStr id; payload]]
    /\ table_of t w1 = tbl ++ [(id, r)]
    /\ __handleResponse env [VStr path; VStr id; VUndefined; answer] w1 = Ok tt w2
    /\ trace w2 = trace w1 ++ [EResolve r answer]
    /\ table_of t w2 = tbl
    /\ requests w2 = requests w ++ [{| req_id := id; req_timestamp := clock w;
                                       req_settled := Some (Resolved answer) |}].
Proof.
  intros Hd Ho Ht Hpath Hp Htbl Hfresh Hout id r.
  assert (Hlt : t < length (tables w)) by (eapply lookup_lt_Some; eauto).
  remember (requested env w t path payload) as w1 eqn:E1.
  assert (Hp1 : __pendingRequests w1 = Some t) by (subst w1; exact Hp).
  assert (Ht1 : table_of t w1 = tbl ++ [(id, r)]).
  { subst w1. unfold requested, table_of. wsimp.
    rewrite list_lookup_insert_eq by exact Hlt. cbn [default from_option].
    rewrite Htbl. cbn [default from_option Datatypes.id]. apply dict_set_fresh, Hfresh. }
  assert (Hr1 : requests w1 = requests w ++ [{| req_id := id; req_timestamp := clock w;
                                                req_settled := None |}])
    by (subst w1; reflexivity).
  assert (Htb1 : tables w1 = <[t := dict_set id r tbl]> (tables w)).
  { subst w1. unfold requested. wsimp. rewrite (table_of_lookup t tbl w Htbl). reflexivity. }
  exists w1. eexists. split; [subst w1; apply request_run; auto|].
  split; [subst w1; reflexivity|]. split; [exact Ht1|].
  assert (Hq : requests w1 !! r = Some {| req_id := id; req_timestamp := clock w;
                                          req_settled := None |}).
  { rewrite Hr1. apply list_lookup_middle. reflexivity. }
  assert (Hg : dict_get id (table_of t w1) = Some r).
  { rewrite Ht1. rewrite <- (dict_set_fresh id r tbl Hfresh). apply dict_get_set_eq. }
  assert (Hrun : __handleResponse env [VStr path; VStr id; VUndefined; answer] w1
                 = Ok tt (set_tables (<[t := dict_delete id (table_of t w1)]> (tables w1))
                            (set_trace (trace w1 ++ [EResolve r answer])
                               (set_requests (mark (Resolved answer) (requests w1) r) w1)))).
  { unfold __handleResponse, bind, gets, table_get. rewrite Hp1. cbn [at_ nth toString truthy].
    unfold gets. rewrite Hg. unfold OutboundRequest_resolve.
    erewrite settle_run by (try exact Hq; reflexivity).
    unfold table_delete, modify. reflexivity. }
  split; [exact Hrun|]. wsimp. split; [reflexivity|]. split.
  - rewrite Ht1. unfold table_of. wsimp. rewrite Htb1, list_insert_insert_eq.
    rewrite list_lookup_insert_eq by exact Hlt. cbn [default from_option Datatypes.id].
    rewrite <- (dict_set_fresh id r tbl Hfresh).
    apply dict_delete_set_fresh, Hfresh.
  - unfold mark. rewrite Hq, Hr1.
    rewrite insert_app_r_alt by (unfold r; lia). unfold r. rewrite Nat.sub_diag. reflexivity.
Qed.

Lemma handleResponse_found data w t r q :
  __pendingRequests w = Some t ->
  dict_get (toString (at_ data 1)) (table_of t w) = Some r ->
  requests w !! r = Some q ->
  req_settled q = None ->
  let outcome := response_outcome (at_ data 2) (at_ data 3) in
  __handleResponse env data w
  = Ok tt (set_tables (<[t := dict_delete (toString (at_ data 1)) (table_of t w)]> (tables w))
             (set_trace (trace w ++ [settle_effect r outcome])
                (set_requests (mark outcome (requests w) r) w))).
Proof.
  intros Hp Hg Hq Hs outcome.
  unfold __handleResponse, bind, gets, table_get. rewrite Hp. unfold gets. rewrite Hg.
  unfold outcome, response_outcome, OutboundRequest_reject, OutboundRequest_resolve.
  destruct (truthy (at_ data 2)); rewrite (settle_run r _ q _ Hq Hs); reflexivity.
Qed.

(** X16.  The pending-request table stays well formed (one entry per id,
    one request per entry, each filed under its own id and not settled)
    across a [request] whose id is new and whose send is taken: the table
    gains that one entry. *)
Theorem request_keeps_sweeping w t tbl path payload :
  s_disposed w = false ->
  __isOpen w = true ->
  t_disposed w = false ->
  (path =? "")%string = false ->
  sweeping w t tbl ->
  nanoid env (nanoid_count w) ∉ dict_keys tbl ->
  (forall c args w', output_send env c args w' = Ok tt w') ->
  exists w1,
    request env path payload w = Ok (length (requests w)) w1
    /\ sweeping w1 t (tbl ++ [(nanoid env (nanoid_count w), length (requests w))]).
Proof.
  intros Hd Ho Ht Hpath (Hp & Htbl & Hk & Hv & Hq) Hfresh Hout.
  exists (requested env w t path payload).
  split; [apply request_run; auto|].
  assert (Hlt : t < length (tables w)) by (eapply lookup_lt_Some; eauto).
  split; [exact Hp|]. split.
  { unfold requested. wsimp. rewrite list_lookup_insert_eq by exact Hlt.
    rewrite (table_of_lookup t tbl w Htbl), dict_set_fresh by exact Hfresh. reflexivity. }
  assert (Hnew : forall id r, (id, r) ∈ tbl -> r < length (requests w)).
  { intros id r Hin. destruct (Hq id r Hin) as (q & Hr & _). eapply lookup_lt_Some; eauto. }
  split; [|split].
  - rewrite map_app. apply NoDup_app. split; [exact Hk|]. split; [|apply NoDup_singleton].
    intros k Hin Hin'. apply list_elem_of_singleton in Hin'. subst k. exact (Hfresh Hin).
  - rewrite map_app. apply NoDup_app. split; [exact Hv|]. split; [|apply NoDup_singleton].
    intros r Hin Hin'. apply list_elem_of_singleton in Hin'. cbn in Hin'. subst r.
    apply list_elem_of_fmap in Hin as ([id r] & E & Hin). cbn in E.
    specialize (Hnew id r Hin). lia.
  - intros id r Hin. unfold requested. wsimp. apply elem_of_app in Hin as [Hin|Hin].
    + destruct (Hq id r Hin) as (q & Hr & Hid & Hs). exists q.
      rewrite lookup_app_l by (eapply lookup_lt_Some; eauto). auto.
    + apply list_elem_of_singleton in Hin. injection Hin as -> ->.
      eexists. split; [apply list_lookup_middle; reflexivity|]. split; reflexivity.
Qed.

(** X17.  The pending-request table stays well formed across a response
    for an id it holds: the request is settled as the response says, its
    entry is deleted, the other entries are untouched. *)
Theorem response_keeps_sweeping w t tbl data r :
  sweeping w t tbl ->
  let id := toString (at_ data 1) in
  dict_get id tbl = Some r ->
  exists w' q,
    __handleResponse env data w = Ok tt w'
    /\ requests w !! r = Some q
    /\ requests w' !! r = Some (settled_as (response_outcome (at_ data 2) (at_ data 3)) q)
    /\ dict_get id (table_of t w') = None
    /\ sweeping w' t (dict_delete id tbl).
Proof.
  intros (Hp & Htbl & Hk & Hv & Hq) id Hg.
  assert (Hin : (id, r) ∈ tbl) by (apply list_elem_of_In, dict_get_In, Hg).
  destruct (Hq id r Hin) as (q & Hr & Hid & Hs).
  assert (Hlt : t < length (tables w)) by (eapply lookup_lt_Some; eauto).
  eexists _, q. split.
  { apply (handleResponse_found data w t r q); auto.
    rewrite (table_of_lookup t tbl w Htbl). exact Hg. }
  rewrite (table_of_lookup t tbl w Htbl). fold id.
  split; [exact Hr|]. split; [wsimp; apply lookup_mark_eq, Hr|].
  assert (Htb : tables (set_tables (<[t := dict_delete id tbl]> (tables w))
                          (set_trace (trace w ++ [settle_effect r (response_outcome (at_ data 2) (at_ data 3))])
                             (set_requests (mark (response_outcome (at_ data 2) (at_ data 3)) (requests w) r) w)))
                !! t = Some (dict_delete id tbl)).
  { wsimp. apply list_lookup_insert_eq, Hlt. }
  split.
  { rewrite (table_of_lookup _ _ _ Htb). apply dict_get_delete_eq. }
  split; [exact Hp|]. split; [exact Htb|].
  rewrite dict_delete_filter. split; [|split].
  - apply NoDup_filter_map, Hk.
  - apply NoDup_filter_map, Hv.
  - intros id' r' Hin'. apply list_elem_of_In, filter_In in Hin' as [Hin' Hne].
    apply list_elem_of_In in Hin'. cbn in Hne.
    destruct (Hq id' r' Hin') as (q' & Hr' & Hid' & Hs'). exists q'.
    split; [|auto]. wsimp. rewrite lookup_mark_ne; [exact Hr'|].
    intros <-. destruct (String.eqb_spec id id') as [|Hne']; [discriminate|].
    apply Hne'. clear - Hv Hin Hin'.
    induction tbl as [|x tbl IH]; [set_solver|].
    cbn in Hv. apply NoDup_cons in Hv as [Hn Hv].
    apply elem_of_cons in Hin as [Ex|Hin]; apply elem_of_cons in Hin' as [Ex'|Hin'].
    + congruence.
    + subst x. exfalso. apply Hn. apply list_elem_of_fmap. exists (id', r). auto.
    + subst x. exfalso. apply Hn. apply list_elem_of_fmap. exists (id, r). auto.
    + auto.
Qed.

(** X18.  From [__sendResponse] on one side to [__handleResponse] on the
    other.  The message is the path, the id, the error position and the
    data position; the side that waits settles by the error position
    alone.  No error: resolved with the payload.  An Error with message
    text [m]: rejected with a plain Error of message [m] (class and detail
    are lost), unless [m] is empty, in which case the request is resolved,
    with [null].  Any other truthy error: rejected with a plain Error of
    its string form. *)
Theorem response_wire_roundtrip path id err payload ws wr t r q :
  t_disposed ws = false ->
  __pendingRequests wr = Some t ->
  dict_get (toString id) (table_of t wr) = Some r ->
  requests wr !! r = Some q ->
  req_settled q = None ->
  let channel := sub_channel (__channel ws) RESPONSES in
  let msg := [path; id; if isError err then VStr (message_of err) else err;
              if truthy err then VNull else payload] in
  let timer := if isError err then [ESetTimeout "error" [VEvent (VStr "error") err]] else [] in
  let outcome :=
    match err with
    | VError _ m _ =>
        if (m =? "")%string then Resolved VNull else Rejected (VError Error_ m VUndefined)
    | _ =>
        if truthy err then Rejected (VError Error_ (toString err) VUndefined)
        else Resolved payload
    end in
  __sendResponse env path id err payload ws
  = output_send env channel msg (set_trace (trace ws ++ timer ++ [EOutputSend channel msg]) ws)
  /\ exists wr',
       __handleResponse env msg wr = Ok tt wr'
       /\ requests wr' !! r = Some (settled_as outcome q)
       /\ trace wr' = trace wr ++ [settle_effect r outcome]
       /\ dict_get (toString id) (table_of t wr') = None.
Proof.
  intros Hd Hp Hg Hq Hs channel msg timer outcome.
  split; [apply sendResponse_run, Hd|].
  assert (Hlt : t < length (tables wr)).
  { apply lookup_lt_is_Some. unfold table_of in Hg.
    destruct (tables wr !! t); [eauto|discriminate]. }
  assert (Ho : response_outcome (at_ msg 2) (at_ msg 3) = outcome).
  { unfold msg, outcome, response_outcome. cbn [at_ nth].
    destruct err as [| |b|n|s|xs|tag|p|c m d|a b|a b]; try reflexivity.
    - destruct b; reflexivity.
    - cbn [isError truthy]. destruct (_ =? _)%Z; reflexivity.
    - cbn [isError truthy]. destruct (String.eqb s ""); reflexivity.
    - cbn [isError truthy message_of toString]. destruct (String.eqb m ""); reflexivity. }
  eexists. split.
  { apply (handleResponse_found msg wr t r q); auto. }
  rewrite Ho. wsimp. split; [apply lookup_mark_eq, Hq|]. split; [reflexivity|].
  unfold table_of. wsimp. rewrite list_lookup_insert_eq by exact Hlt.
  apply dict_get_delete_eq.
Qed.

Lemma tick_explicit now w t tbl :
  sweeping w t tbl ->
  let due := fun e : string * nat => overdue w now (__requestTimeout w) e.2 in
  let err := new_error env TimeoutError VUndefined in
  tick env now w =
  Ok tt (set_tables (<[t := List.filter (fun e => negb (due e)) tbl]> (tables w))
           (set_trace (trace w ++ map (fun e => EReject e.2 err) (List.filter due tbl))
              (set_requests (foldl (mark (Rejected err)) (requests w)
                               (map snd (List.filter due tbl))) (set_clock now w)))).
Proof.
  intros (Hp & Htbl & Hwf) due err.
  unfold tick, bind, modify.
  rewrite (cleanup_run env (set_clock now w) t tbl Hp Htbl Hwf). reflexivity.
Qed.

(** X19.  A response that arrives after its request has timed out: the
    tick has rejected the request with a Timeout error and deleted its
    entry, so the response finds nothing; the request keeps its rejection
    and a "Redundant request handler" error event is published to the error
    listeners. *)
Theorem late_response w t tbl id r q now gs data :
  sweeping w t tbl ->
  (id, r) ∈ tbl ->
  requests w !! r = Some q ->
  (now - req_timestamp q > __requestTimeout w)%Z ->
  toString (at_ data 1) = id ->
  listeners_of "error" w = map LUser gs ->
  Forall (quiet env) gs ->
  let timeout := VError TimeoutError (error_text env TimeoutError VUndefined) VUndefined in
  let redundant := VEvent (VStr "error") (VError Error_ "Redundant request handler" VUndefined) in
  exists w1 w2,
    tick env now w = Ok tt w1
    /\ requests w1 !! r = Some (settled_as (Rejected timeout) q)
    /\ __handleResponse env data w1 = Ok tt w2
    /\ requests w2 = requests w1
    /\ trace w2 = trace w1 ++ map (fun g => EInvoke g [redundant]) gs.
Proof.
  intros Hsw Hin Hq Hlate Hid HE Hg timeout redundant.
  pose proof (tick_explicit now w t tbl Hsw) as Htick. cbn zeta in Htick.
  destruct Hsw as (Hp & Htbl & Hk & Hv & Hwf).
  assert (Hlt : t < length (tables w)) by (eapply lookup_lt_Some; eauto).
  set (due := fun e : string * nat => overdue w now (__requestTimeout w) e.2) in *.
  assert (Hdue : due (id, r) = true).
  { unfold due, overdue. cbn. rewrite Hq. apply Z.gtb_lt. lia. }
  remember (set_tables _ _) as w1 eqn:E1 in Htick.
  assert (Hp1 : __pendingRequests w1 = Some t) by (subst w1; exact Hp).
  assert (Hb1 : listeners_of "error" w1 = map LUser gs) by (subst w1; exact HE).
  assert (Ht1 : table_of t w1 = List.filter (fun e => negb (due e)) tbl).
  { subst w1. unfold table_of. wsimp. rewrite list_lookup_insert_eq by exact Hlt. reflexivity. }
  assert (Hg1 : dict_get id (table_of t w1) = None).
  { rewrite Ht1. destruct (dict_get id _) as [r'|] eqn:Eg; [|reflexivity].
    apply dict_get_In, filter_In in Eg as [Hin' Hnd]. apply list_elem_of_In in Hin'.
    assert (E : (id, r') = (id, r)) by (apply (NoDup_fst_inj tbl); auto).
    rewrite E, Hdue in Hnd. discriminate. }
  exists w1. eexists. split; [exact Htick|]. split.
  { subst w1. wsimp. fold timeout.
    rewrite (lookup_swept due _ tbl (requests w) id r q Hv Hin Hq), Hdue. reflexivity. }
  split.
  { unfold __handleResponse, bind, gets, table_get. rewrite Hp1. unfold gets.
    rewrite Hid, Hg1. unfold bus_emit, bind, gets. rewrite Hb1.
    apply forEach_users, Hg. }
  wsimp. split; reflexivity.
Qed.

End RoundTrip.

Lemma request_response_roundtrip_witness :
  exists w1 w2,
    request quiet_env "ping" VNull opened = Ok 0 w1
    /\ table_of 0 w1 = [("id-3", 0)]
    /\ __handleResponse quiet_env [VStr "ping"; VStr "id-3"; VUndefined; VStr "pong"] w1
       = Ok tt w2
    /\ trace w2 = trace w1 ++ [EResolve 0 (VStr "pong")]
    /\ table_of 0 w2 = [].
Proof.
  destruct (request_response_roundtrip quiet_env opened 0 [] "ping" VNull (VStr "pong"))
    as (w1 & w2 & H1 & _ & Ht1 & H2 & Htr & Ht2 & _); try (vm_compute; reflexivity).
  - apply not_elem_of_nil.
  - exists w1, w2. split; [exact H1|]. split; [exact Ht1|]. split; [exact H2|].
    split; [exact Htr|exact Ht2].
Defined.

Lemma request_keeps_sweeping_witness :
  exists w1,
    request quiet_env "ping" VNull opened = Ok 0 w1
    /\ sweeping w1 0 [("id-3", 0)].
Proof.
  apply (request_keeps_sweeping quiet_env opened 0 [] "ping" VNull);
    try (vm_compute; reflexivity).
  - split; [reflexivity|]. split; [reflexivity|].
    split; [apply NoDup_nil; exact I|]. split; [apply NoDup_nil; exact I|].
    intros id r H. apply not_elem_of_nil in H. destruct H.
  - apply not_elem_of_nil.
Defined.

Lemma response_keeps_sweeping_witness :
  exists w' q,
    __handleResponse quiet_env [VStr "ping"; VStr "id-3"; VUndefined; VStr "pong"] one_pending
    = Ok tt w'
    /\ requests one_pending !! 0 = Some q
    /\ requests w' !! 0 = Some (settled_as (Resolved (VStr "pong")) q)
    /\ sweeping w' 0 [].
Proof.
  destruct (response_keeps_sweeping quiet_env one_pending 0 [("id-3", 0)]
              [VStr "ping"; VStr "id-3"; VUndefined; VStr "pong"] 0)
    as (w' & q & Hrun & Hq & Hq' & _ & Hs).
  - split; [reflexivity|]. split; [reflexivity|].
    split; [apply NoDup_singleton|]. split; [apply NoDup_singleton|].
    intros id r H. apply list_elem_of_singleton in H. injection H as -> ->.
    exists ping. repeat split.
  - reflexivity.
  - exists w', q. split; [exact Hrun|]. split; [exact Hq|]. split; [exact Hq'|exact Hs].
Defined.

Lemma response_wire_roundtrip_witness :
  exists wr',
    __handleResponse quiet_env [VStr "ping"; VStr "id-3"; VStr ""; VNull] one_pending = Ok tt wr'
    /\ requests wr' !! 0 = Some (settled_as (Resolved VNull) ping).
Proof.
  destruct (response_wire_roundtrip quiet_env (VStr "ping") (VStr "id-3")
              (VError Error_ "" VUndefined) (VNum 5) opened one_pending 0 0 ping)
    as (_ & wr' & Hrun & Hq & _); try (vm_compute; reflexivity).
  exists wr'. split; [exact Hrun|exact Hq].
Defined.

Lemma late_response_witness :
  exists w1 w2,
    tick quiet_env 60001 one_pending = Ok tt w1
    /\ requests w1 !! 0
       = Some (settled_as (Rejected (VError TimeoutError "TimeoutError" VUndefined)) ping)
    /\ __handleResponse quiet_env [VStr "ping"; VStr "id-3"; VUndefined; VStr "pong"] w1
       = Ok tt w2
    /\ requests w2 = requests w1.
Proof.
  destruct (late_response quiet_env one_pending 0 [("id-3", 0)] "id-3" 0 ping 60001 []
              [VStr "ping"; VStr "id-3"; VUndefined; VStr "pong"])
    as (w1 & w2 & H1 & Hq & H2 & Hr & _); try (vm_compute; reflexivity).
  - split; [reflexivity|]. split; [reflexivity|].
    split; [apply NoDup_singleton|]. split; [apply NoDup_singleton|].
    intros id r H. apply list_elem_of_singleton in H. injection H as -> ->.
    exists ping. repeat split.
  - apply list_elem_of_singleton. reflexivity.
  - apply Forall_nil. exact I.
  - exists w1, w2. split; [exact H1|]. split; [exact Hq|]. split; [exact H2|exact Hr].
Defined.

(** ** The Transport's constructor *)

Section TransportConstructor.
Variable env : Env.

(** X20.  [new Transport(input, output)] succeeds exactly when the input
    has [on], [once], [removeAllListeners] and [removeListener] and the
    output, or the input when no output is given, has [send]; a missing
    input capability is reported as an invalid input whatever the output
    is, and a missing input as a Required error. *)
Theorem Transport_constructor_accepts input output :
  let out := default input output in
  (Transport_constructor env (Some input) output = inr (false, Some [])
   <-> has_on input = true /\ has_once input = true /\ has_removeAllListeners input = true
       /\ has_removeListener input = true /\ has_send out = true)
  /\ (has_on input && has_once input && has_removeAllListeners input && has_removeListener input
      = false ->
      Transport_constructor env (Some input) output
      = inl (VError InvalidInputError (error_text env InvalidInputError VUndefined) VUndefined))
  /\ Transport_constructor env None output
     = inl (VError RequiredError (error_text env RequiredError (VStr "input")) (VStr "input")).
Proof.
  intros out. unfold Transport_constructor, out.
  destruct input as [a b c d e], output as [[a' b' c' d' e']|];
    destruct a, b, c, d; cbn; (try destruct e); (try destruct e'); cbn;
    (split; [split; [intros H; try discriminate; repeat split|intros (?&?&?&?&?); congruence]
            |split; [intros H; try discriminate; reflexivity|reflexivity]]).
Qed.

End TransportConstructor.

Lemma Transport_constructor_accepts_witness :
  Transport_constructor quiet_env (Some endpoint) None = inr (false, Some []).
Proof.
  destruct (Transport_constructor_accepts quiet_env endpoint None) as [[_ H] _].
  apply H. repeat split.
Defined.
